(** * Qeasy front end: listing eligibility and transformation pipeline

    A shallow embedding of the TypeScript sources

    - [src/qoo10Category.ts] (keyword driven category classifier),
    - [src/api/qeasy.ts]     (wrappers around the Qeasy API server),
    - [src/App.tsx]          (price rules, ASIN CSV import, the listing run
                              and the grouping of its results; the tag
                              editor, search, selection and deletion, and the
                              handlers that fill the product list),

    followed by the properties established about them.

    JavaScript strings are sequences of UTF-16 code units, JavaScript numbers
    are IEEE 754 binary64 values (Rocq's primitive floats), exceptions and
    rejected promises are values of a small error monad. *)

From Stdlib Require Import ZArith NArith Bool String Ascii List Floats Lia.
From Stdlib Require Uint63.
From stdpp Require Import base option list gmap.
Import ListNotations.

Set Warnings "-inexact-float".
Local Open Scope N_scope.

(* ===================================================================== *)
(** * JavaScript strings                                                  *)
(* ===================================================================== *)

Module JsString.

(** A string is the list of its UTF-16 code units. *)
Abbreviation jsstring := (list N).

(** ** Literals

    Source literals are written as Rocq strings, which hold the UTF-8 bytes
    of the text; [js] decodes them into UTF-16 code units. *)

Definition bytes_of (s : string) : list N :=
  List.map N_of_ascii (list_ascii_of_string s).

Fixpoint utf8_decode (bs : list N) : list N :=
  match bs with
  | [] => []
  | b0 :: r0 =>
    if b0 <? 0x80 then b0 :: utf8_decode r0
    else
      match r0 with
      | [] => []
      | b1 :: r1 =>
        if b0 <? 0xE0 then
          ((b0 - 0xC0) * 0x40 + (b1 - 0x80)) :: utf8_decode r1
        else
          match r1 with
          | [] => []
          | b2 :: r2 =>
            if b0 <? 0xF0 then
              ((b0 - 0xE0) * 0x1000 + (b1 - 0x80) * 0x40 + (b2 - 0x80))
                :: utf8_decode r2
            else
              match r2 with
              | [] => []
              | b3 :: r3 =>
                ((b0 - 0xF0) * 0x40000 + (b1 - 0x80) * 0x1000
                 + (b2 - 0x80) * 0x40 + (b3 - 0x80)) :: utf8_decode r3
              end
          end
      end
  end.

Definition utf16_encode (cp : N) : list N :=
  if cp <? 0x10000 then [cp]
  else [0xD800 + (cp - 0x10000) / 0x400; 0xDC00 + (cp - 0x10000) mod 0x400].

Definition js (s : string) : jsstring :=
  flat_map utf16_encode (utf8_decode (bytes_of s)).
Arguments js s%_string.

(** ** Truthiness: only the empty string is falsy. *)
Definition nonEmpty (s : jsstring) : bool :=
  match s with [] => false | _ :: _ => true end.

(** ** Equality ([===] on strings) *)
Fixpoint eqb (a b : jsstring) : bool :=
  match a, b with
  | [], [] => true
  | x :: a', y :: b' => (x =? y) && eqb a' b'
  | _, _ => false
  end.

(** ** [String.prototype.includes] *)
Fixpoint startsWith (s p : jsstring) : bool :=
  match p, s with
  | [], _ => true
  | _ :: _, [] => false
  | x :: p', y :: s' => (x =? y) && startsWith s' p'
  end.

Fixpoint includes (s kw : jsstring) : bool :=
  startsWith s kw ||
  match s with
  | [] => false
  | _ :: s' => includes s' kw
  end.

(** ** [Array.prototype.some] over a keyword table *)
Definition someIncluded (kws : list jsstring) (title : jsstring) : bool :=
  existsb (fun kw => includes title kw) kws.

(** ** Case mapping

    [toUpperCase] and [toLowerCase] map the ASCII letters and leave every
    other code unit alone.  This is JavaScript's mapping on strings whose
    cased letters are ASCII.  The CSV import observes nothing else: it
    upper-cases only cells that matched [/^[A-Z0-9]{10}$/i], and it compares
    lower-cased header cells only with the literal [asin], which no string
    with a non-ASCII letter lower-cases to. *)
Definition upperUnit (c : N) : N :=
  if (97 <=? c) && (c <=? 122) then c - 32 else c.
Definition lowerUnit (c : N) : N :=
  if (65 <=? c) && (c <=? 90) then c + 32 else c.
Definition toUpperCase (s : jsstring) : jsstring := List.map upperUnit s.
Definition toLowerCase (s : jsstring) : jsstring := List.map lowerUnit s.

(** ** White space: [WhiteSpace] and [LineTerminator] of ECMAScript, the set
    removed by [trim] and matched by [\s]. *)
Definition isWhiteSpace (c : N) : bool :=
  ((9 <=? c) && (c <=? 13)) || (c =? 0x20) || (c =? 0xA0) || (c =? 0x1680)
  || ((0x2000 <=? c) && (c <=? 0x200A)) || (c =? 0x2028) || (c =? 0x2029)
  || (c =? 0x202F) || (c =? 0x205F) || (c =? 0x3000) || (c =? 0xFEFF).

Fixpoint dropWhile (f : N -> bool) (s : jsstring) : jsstring :=
  match s with
  | [] => []
  | c :: s' => if f c then dropWhile f s' else s
  end.

Definition dropWhileEnd (f : N -> bool) (s : jsstring) : jsstring :=
  rev (dropWhile f (rev s)).

(** [String.prototype.trim] *)
Definition trim (s : jsstring) : jsstring :=
  dropWhileEnd isWhiteSpace (dropWhile isWhiteSpace s).

(** ** Splitting

    [consHead c pieces] puts [c] in front of the first piece. *)
Definition consHead (c : N) (pieces : list jsstring) : list jsstring :=
  match pieces with
  | [] => [[c]]
  | h :: t => (c :: h) :: t
  end.

(** [s.split(/[..]/)] for a class [sep] of single code units. *)
Fixpoint splitOn (sep : N -> bool) (s : jsstring) : list jsstring :=
  match s with
  | [] => [[]]
  | c :: s' => if sep c then [] :: splitOn sep s' else consHead c (splitOn sep s')
  end.

(** [s.split(/\r?\n/)]: a line feed ends a line, and a carriage return
    directly before it belongs to the separator. *)
Fixpoint splitLines (s : jsstring) : list jsstring :=
  match s with
  | [] => [[]]
  | c :: s' =>
    match s' with
    | d :: s'' =>
      if (c =? 13) && (d =? 10) then [] :: splitLines s''
      else if c =? 10 then [] :: splitLines s'
      else consHead c (splitLines s')
    | [] => if c =? 10 then [[]; []] else [[c]]
    end
  end.

(** [/[,;\t]/] *)
Definition isDelimiter (c : N) : bool := (c =? 44) || (c =? 59) || (c =? 9).

(** [Array.prototype.join] *)
Fixpoint join (sep : jsstring) (l : list jsstring) : jsstring :=
  match l with
  | [] => []
  | [s] => s
  | s :: rest => s ++ sep ++ join sep rest
  end.

(** [s.replace(re, empty)] for the global pattern that matches a run of
    double or single quotes at the start or at the end of the string: both
    runs are removed. *)
Definition isQuote (c : N) : bool := (c =? 34) || (c =? 39).
Definition stripQuotes (s : jsstring) : jsstring :=
  dropWhileEnd isQuote (dropWhile isQuote s).

(** [s.split(w)] joined by the empty string, for a non-empty [w]: every
    occurrence of [w], found from left to right without overlap, is removed.
    [skip] counts the code units of the current occurrence still to be
    dropped. *)
Fixpoint removeAllFrom (skip : nat) (w s : jsstring) : jsstring :=
  match s with
  | [] => []
  | c :: s' =>
    match skip with
    | S k => removeAllFrom k w s'
    | O =>
      if startsWith s w then removeAllFrom (Nat.pred (length w)) w s'
      else c :: removeAllFrom O w s'
    end
  end.
Definition removeAll (w s : jsstring) : jsstring := removeAllFrom O w s.

(** [s.replace(/\s+/g, " ")]: each maximal run of white space becomes one
    space. *)
Fixpoint collapseSpaces (s : jsstring) : jsstring :=
  match s with
  | [] => []
  | c :: s' =>
    if isWhiteSpace c then
      match s' with
      | d :: _ => if isWhiteSpace d then collapseSpaces s' else 0x20 :: collapseSpaces s'
      | [] => [0x20]
      end
    else c :: collapseSpaces s'
  end.

(** [Array.prototype.indexOf] on an array of strings; [None] is [-1]. *)
Fixpoint indexOf (cells : list jsstring) (x : jsstring) : option nat :=
  match cells with
  | [] => None
  | c :: rest =>
    if eqb c x then Some O
    else match indexOf rest x with
         | Some i => Some (S i)
         | None => None
         end
  end.

(** [Array.prototype.includes] on an array of strings. *)
Definition arrayIncludes (l : list jsstring) (x : jsstring) : bool :=
  existsb (fun y => eqb y x) l.

(** [Array.from(new Set(l))]: a [Set] keeps the first insertion of each
    value, in insertion order. *)
Fixpoint uniqueFrom (seen : list jsstring) (l : list jsstring) : list jsstring :=
  match l with
  | [] => []
  | x :: rest =>
    if arrayIncludes seen x then uniqueFrom seen rest
    else x :: uniqueFrom (x :: seen) rest
  end.
Definition unique (l : list jsstring) : list jsstring := uniqueFrom [] l.

End JsString.

(* ===================================================================== *)
(** * JavaScript numbers                                                  *)
(* ===================================================================== *)

Module JsNumber.

Abbreviation number := float.

(** [ToBoolean]: [NaN], [+0] and [-0] are falsy. *)
Definition truthy (x : number) : bool := negb (is_nan x || is_zero x).

(** [Math.max] of two arguments: [NaN] if either is, otherwise the larger,
    [+0] counting as larger than [-0]. *)
Definition Math_max (a b : number) : number :=
  if is_nan a || is_nan b then nan
  else if (a <? b)%float then b
  else if (b <? a)%float then a
  else if get_sign a then b else a.

(** The float of an integer below [2^53] in magnitude (exact). *)
Definition ofZ (n : Z) : number :=
  match n with
  | Z0 => 0%float
  | Zpos _ => of_uint63 (Uint63.of_Z n)
  | Zneg p => (- of_uint63 (Uint63.of_Z (Zpos p)))%float
  end.

(** [Math.round]: a value that is not finite or already integral is
    returned as it is; otherwise the nearest integer, the one towards
    [+Infinity] on a tie, with the sign of the argument when it is zero.
    A finite non-zero double is [(-1)^s * m * 2^e]; it has a fractional
    part only if [e < 0], and then [|x| < 2^52]. *)
Definition Math_round (x : number) : number :=
  match Prim2SF x with
  | S754_finite s m e =>
    if (0 <=? e)%Z then x
    else
      let d := (2 ^ (- e))%Z in
      let sm := if s then Zneg m else Zpos m in
      let n := ((2 * sm + d) / (2 * d))%Z in
      if (n =? 0)%Z then (if s then neg_zero else zero) else ofZ n
  | _ => x
  end.

End JsNumber.

Import JsString JsNumber.

(* ===================================================================== *)
(** * qoo10Category.ts: the category classifier                           *)
(* ===================================================================== *)

Module Qoo10Category.

(** [MainCategoryCode]: a union of four string literal types. *)
Inductive MainCategoryCode : Set :=
| Main120000       (* "120000"    beauty *)
| Main130000       (* "130000"    supplements, health food *)
| Main120000033    (* "120000033" beauty and health appliances *)
| Main100000018.   (* "100000018" daily goods (razors and the like) *)

(** [BeautyCatCode] *)
Inductive BeautyCatCode : Set :=
| Beauty120000012  (* skin care *)
| Beauty120000013  (* base make-up *)
| Beauty120000014  (* point make-up *)
| Beauty120000017  (* UV care *)
| Beauty120000018  (* body, hand, foot care *)
| Beauty120000020  (* hair care *)
| Beauty120000021  (* nail *)
| Beauty120000022. (* perfume, fragrance *)

(** [Number(code)] of the literal behind each constructor. *)
Definition mainNumber (c : MainCategoryCode) : number :=
  match c with
  | Main120000 => 120000
  | Main130000 => 130000
  | Main120000033 => 120000033
  | Main100000018 => 100000018
  end%float.

Definition beautyNumber (c : BeautyCatCode) : number :=
  match c with
  | Beauty120000012 => 120000012
  | Beauty120000013 => 120000013
  | Beauty120000014 => 120000014
  | Beauty120000017 => 120000017
  | Beauty120000018 => 120000018
  | Beauty120000020 => 120000020
  | Beauty120000021 => 120000021
  | Beauty120000022 => 120000022
  end%float.

Record Qoo10CategoryDecision : Set := {
  main : MainCategoryCode;
  beautySecondSubCat : option BeautyCatCode
}.

Definition SUPPLEMENT_KEYWORDS : list jsstring := List.map js [
  "サプリメント"; "サプリ"; "健康食品"; "機能性表示食品"; "プロテイン";
  "ホエイプロテイン"; "ソイプロテイン"; "青汁"; "酵素"; "乳酸菌"; "オメガ3";
  "EPA"; "DHA"; "ダイエットサプリ"; "美容サプリ" ]%string.

Definition isSupplement (title : jsstring) : bool :=
  someIncluded SUPPLEMENT_KEYWORDS title.

Definition BEAUTY_APPLIANCE_KEYWORDS : list jsstring := List.map js [
  "ドライヤー"; "ヘアドライヤー"; "ヘアードライヤー";
  "ヘアアイロン"; "ストレートアイロン"; "カールアイロン"; "2WAYアイロン";
  "2WAY ヘアアイロン"; "コテ";
  "美顔器"; "フェイススチーマー"; "イオンスチーマー"; "スチーマー" ]%string.

Definition ELECTRIC_HINTS : list jsstring := List.map js [
  "電動"; "電気"; "充電式"; "コードレス"; "IPX"; "防水" ]%string.

Definition RAZOR_KEYWORDS : list jsstring := List.map js [
  "カミソリ"; "髭剃り"; "ひげそり"; "ヒゲソリ"; "シェーバー"; "シェイバー" ]%string.

Definition DAILY_RAZOR_HINTS : list jsstring := List.map js [
  "替刃"; "替え刃"; "ホルダー(刃付き"; "剃刀" ]%string.

Definition isBeautyAppliance (title : jsstring) : bool :=
  if someIncluded BEAUTY_APPLIANCE_KEYWORDS title then true
  else if someIncluded RAZOR_KEYWORDS title && someIncluded ELECTRIC_HINTS title
       then true
  else false.

Definition isDailyRazor (title : jsstring) : bool :=
  if negb (someIncluded RAZOR_KEYWORDS title) then false
  else if negb (someIncluded ELECTRIC_HINTS title) then true
  else if someIncluded DAILY_RAZOR_HINTS title then true
  else false.

(** The [??] on [titleRaw]: an absent title is the empty string. *)
Definition getMainCategoryCode (titleRaw : option jsstring) : MainCategoryCode :=
  let title := default [] titleRaw in
  if isSupplement title then Main130000
  else if isBeautyAppliance title then Main120000033
  else if isDailyRazor title then Main100000018
  else Main120000.

Record BeautyRule : Set := { code : BeautyCatCode; keywords : list jsstring }.

Definition BEAUTY_RULES : list BeautyRule := [
  {| code := Beauty120000017;
     keywords := List.map js [
       "日焼け止め"; "UVケア"; "UVカット"; "サンスクリーン"; "サンブロック";
       "サンプロテクター"; "サンクッション"; "UVクリーム"; "UVミルク";
       "UVジェル" ]%string |};
  {| code := Beauty120000013;
     keywords := List.map js [
       "ファンデーション"; "クッションファンデ"; "クッションファンデーション";
       "リキッドファンデ"; "パウダーファンデ"; "BBクリーム"; "CCクリーム";
       "化粧下地"; "メイク下地"; "プライマー"; "コンシーラー";
       "フェイスパウダー"; "ルースパウダー"; "プレストパウダー";
       "トーンアップベース"; "トーンアップクリーム" ]%string |};
  {| code := Beauty120000014;
     keywords := List.map js [
       "アイシャドウ"; "アイグロス"; "アイライナー"; "ジェルライナー";
       "ペンシルライナー"; "マスカラ"; "チーク"; "ブラッシュ"; "ハイライト";
       "シェーディング"; "コントゥア"; "リップ"; "口紅"; "グロス"; "ティント";
       "リップオイル"; "リップバーム"; "アイブロウ"; "眉マスカラ"; "ブロウ" ]%string |};
  {| code := Beauty120000020;
     keywords := List.map js [
       "シャンプー"; "ｼｬﾝﾌﾟｰ"; "コンディショナー"; "トリートメント";
       "ヘアマスク"; "ヘアパック"; "ヘアオイル"; "ヘアミスト"; "ヘアエッセンス";
       "ヘアスプレー"; "ヘアワックス"; "スタイリング"; "スタイリングジェル";
       "育毛剤"; "スカルプ"; "頭皮ケア"; "ヘアカラー"; "白髪染め"; "ヘナ" ]%string |};
  {| code := Beauty120000021;
     keywords := List.map js [
       "ネイル"; "マニキュア"; "ジェルネイル"; "トップコート"; "ベースコート";
       "ネイルポリッシュ"; "ネイルカラー"; "ネイルオイル";
       "キューティクルオイル" ]%string |};
  {| code := Beauty120000022;
     keywords := List.map js [
       "香水"; "フレグランス"; "オードトワレ"; "オードパルファム";
       "オーデコロン"; "ボディミスト"; "ヘアミスト"; "パルファム" ]%string |};
  {| code := Beauty120000018;
     keywords := List.map js [
       "ボディクリーム"; "ボディミルク"; "ボディローション"; "ボディジェル";
       "ボディオイル"; "ボディソープ"; "ボディウォッシュ"; "シャワージェル";
       "ハンドクリーム"; "ハンドジェル"; "ハンドローション"; "フットクリーム";
       "フットケア"; "ボディスクラブ"; "ボディスクラップ"; "バスソルト";
       "入浴剤"; "バスボム"; "デオドラント"; "制汗"; "ボディバター";
       "ボディミスト" ]%string |};
  {| code := Beauty120000012;
     keywords := List.map js [
       "化粧水"; "ローション"; "トナー"; "乳液"; "エマルジョン"; "美容液";
       "セラム"; "エッセンス"; "アンプル"; "クリーム"; "ジェルクリーム";
       "ジェル"; "オールインワンジェル"; "オールインワンゲル"; "クレンジング";
       "クレンジングオイル"; "クレンジングバーム"; "クレンジングジェル";
       "クレンジングミルク"; "洗顔"; "洗顔フォーム"; "フォームクレンザー";
       "シートマスク"; "フェイスマスク"; "マスク"; "パック";
       "スリーピングマスク"; "スリーピングパック"; "ピーリング"; "スクラブ";
       "角質ケア"; "CICA"; "シカ"; "美白美容液"; "毛穴ケア" ]%string |} ].

(** The two nested [for] loops: the first rule, in table order, one of
    whose keywords occurs in the title. *)
Fixpoint firstBeautyRule (rules : list BeautyRule) (title : jsstring)
  : option BeautyCatCode :=
  match rules with
  | [] => None
  | rule :: rest =>
    if someIncluded (keywords rule) title then Some (code rule)
    else firstBeautyRule rest title
  end.

Definition getBeautySecondSubCat (title : jsstring) : BeautyCatCode :=
  default Beauty120000012 (firstBeautyRule BEAUTY_RULES title).

Definition classifyQoo10Category (title : option jsstring) : Qoo10CategoryDecision :=
  let main := getMainCategoryCode title in
  match main with
  | Main120000 =>
    {| main := main;
       beautySecondSubCat := Some (getBeautySecondSubCat (default [] title)) |}
  | _ => {| main := main; beautySecondSubCat := None |}
  end.

End Qoo10Category.

(* ===================================================================== *)
(** * api/qeasy.ts: wrappers around the API server                        *)
(* ===================================================================== *)

Module Api.

(** ** Exceptions

    An [async] function either fulfils with a value or rejects with an
    error; [await] on a rejected promise throws.  Both are the error monad
    over the thrown value. *)
Inductive Completion (E A : Type) : Type :=
| Return (v : A)
| Throw (e : E).
Arguments Return {E A} v.
Arguments Throw {E A} e.

Definition bind {E A B} (c : Completion E A) (k : A -> Completion E B)
  : Completion E B :=
  match c with
  | Return v => k v
  | Throw e => Throw e
  end.

(** [try { body } catch { handler }] *)
Definition tryCatch {E A} (body : Completion E A) (handler : E -> Completion E A)
  : Completion E A :=
  match body with
  | Return v => Return v
  | Throw e => handler e
  end.

Notation "'await' x := c 'in' k" := (bind c (fun x => k))
  (at level 10, x name, c at level 100, k at level 200).

Record AmazonItemInfo : Set := {
  info_asin : jsstring;
  price : option number;        (* absent when the server has no price *)
  sellerCount : option number;  (* tested against [null] by the listing run *)
  title : option jsstring;
  image : option jsstring;
  isPrime : option bool;
  shipDays : option number
}.

Record Qoo10ListingPayload : Set := {
  payload_asin : jsstring;
  payload_price : number;
  shippingCode : jsstring;
  payload_title : jsstring;
  imageUrl : option jsstring;
  stock : option number;
  categoryNo : option number;
  payload_jan : option jsstring
}.

Record CreateListingResult : Set := {
  result_asin : jsstring;
  ok : bool;
  message : option jsstring;
  result_code : option jsstring;
  qoo10ItemCode : option jsstring
}.

Section Wrappers.

(** What the server can be asked and what comes back is outside the
    program: [Err] is the type of thrown values, [Response] the object
    [fetch] resolves to. *)
Variable Err : Type.

Record Response (T : Type) : Type := {
  res_ok : bool;
  res_text : Completion Err jsstring;   (* [res.text()] *)
  res_json : Completion Err T           (* [res.json()] *)
}.
Arguments res_ok {T} _.
Arguments res_text {T} _.
Arguments res_json {T} _.

(** [new Error(`${path} ${res.status} ${res.statusText} ${text}`.trim())] *)
Variable httpError : forall T, jsstring -> Response T -> jsstring -> Err.

(** [fetch(url, {method: "POST", body: JSON.stringify(body)})] as the
    program sees it: a function of the path and of the request body. *)
Definition Fetch (Req T : Type) : Type :=
  jsstring -> Req -> Completion Err (Response T).

(** [postJson]: [fetch] may reject (server unreachable); a response that
    is not ok is turned into a thrown [Error]; otherwise the body is
    parsed, which may throw as well. *)
Definition postJson {Req T} (fetch : Fetch Req T) (path : jsstring) (body : Req)
  : Completion Err T :=
  await res := fetch path body in
  if negb (res_ok res) then
    await text := tryCatch (res_text res) (fun _ => Return []) in
    Throw (httpError T path res text)
  else
    res_json res.

Definition fetchAmazonBulk (fetch : Fetch (list jsstring) (list AmazonItemInfo))
    (asins : list jsstring) : Completion Err (list AmazonItemInfo) :=
  if Nat.eqb (length asins) 0 then Return []
  else tryCatch (postJson fetch (js "/amazon/bulk") asins) (fun _ => Return []).

Definition checkQoo10Existing (fetch : Fetch (list jsstring) (list jsstring))
    (asins : list jsstring) : Completion Err (list jsstring) :=
  if Nat.eqb (length asins) 0 then Return []
  else
    tryCatch (postJson fetch (js "/qoo10/check-existing") asins)
             (fun _ => Return []).

Definition callFailedMessage : jsstring :=
  js "出品API呼び出しに失敗しました。（サーバ未接続の可能性）".

Definition createQoo10Listings
    (fetch : Fetch (list Qoo10ListingPayload) (list CreateListingResult))
    (items : list Qoo10ListingPayload) : Completion Err (list CreateListingResult) :=
  if Nat.eqb (length items) 0 then Return []
  else
    tryCatch (postJson fetch (js "/qoo10/create-listings") items)
      (fun _ =>
         Return (List.map (fun it =>
                   {| result_asin := payload_asin it;
                      ok := false;
                      message := Some callFailedMessage;
                      result_code := None;
                      qoo10ItemCode := None |}) items)).

End Wrappers.

Arguments res_ok {Err T} _.
Arguments res_text {Err T} _.
Arguments res_json {Err T} _.
Arguments postJson {Err} httpError {Req T} fetch path body.
Arguments fetchAmazonBulk {Err} httpError fetch asins.
Arguments checkQoo10Existing {Err} httpError fetch asins.
Arguments createQoo10Listings {Err} httpError fetch items.

End Api.

(* ===================================================================== *)
(** * App.tsx: price rules, CSV import, listing run, result grouping      *)
(* ===================================================================== *)

Module App.

Import Qoo10Category Api.

Record PriceRule : Set := {
  min : number;
  max : option number;
  multiply : number;
  plus : number
}.

(** [Record<string, number>], as the list [Object.entries] enumerates. *)
Abbreviation CategoryMap := (list (jsstring * number)).

Record Product : Set := {
  id : number;
  asin : jsstring;
  name : jsstring;
  jan : option jsstring;
  qoo10Id : option jsstring;
  amazonPrice : number;
  inStock : option bool
}.

Record SettingsState : Set := {
  primeOnly : bool;
  primeShipDaysMax : number;
  maxStockPerItem : number;
  settings_shippingCode : jsstring;
  rules : list PriceRule;
  noListASINs : list jsstring;
  noListWords : list jsstring;
  nameEraseWords : list jsstring;
  keepASINsOnDelete : list jsstring;
  categoryMap : CategoryMap;
  autoCategoryEnabled : bool
}.

(** ["success" | "exists" | "forbidden" | "error"] *)
Inductive ListingStatus : Set := success | exists_ | forbidden | error.

(** The text of a result.  Template literals that interpolate a number or a
    joined list are kept with their arguments. *)
Inductive Message : Set :=
| Text (s : jsstring)
| PrimeExcluded (shipDays : option number)
    (* `Prime条件を満たさないため除外（出荷まで ${info.shipDays ?? "-"}日）` *)
| SingleSeller (sellerCount : option number)
    (* `出品者が1人のみのため除外しました。（${info.sellerCount}人）` *)
| WordsHit (hitWords : list jsstring)
    (* `禁止ワード(${hitWords.join(", ")})が含まれているため除外しました。` *)
| ApiErrorCode (code : jsstring).
    (* `出品APIエラー (code: ${r.code})` *)

Record ListingResultItem : Set := {
  item_asin : jsstring;
  item_name : jsstring;
  status : ListingStatus;
  item_message : Message;
  hitWords : option (list jsstring);
  item_qoo10ItemCode : option jsstring
}.

Definition DEFAULT_SETTINGS : SettingsState := {|
  primeOnly := true;
  primeShipDaysMax := 3;
  maxStockPerItem := 2;
  settings_shippingCode := js "645035";
  rules := [
    {| min := 1; max := Some 3000%float; multiply := 1.2; plus := 400 |};
    {| min := 3001; max := Some 6000%float; multiply := 1.2; plus := 500 |};
    {| min := 6001; max := None; multiply := 1.2; plus := 600 |} ];
  noListASINs := [];
  noListWords := [];
  nameEraseWords := [js "Amazon.co.jp 限定"; js "発送"];
  keepASINsOnDelete := [];
  categoryMap := [ (js "ヘナ", 120000%float);
                   (js "シャンプー", 120000%float);
                   (js "サプリ", 130000%float) ];
  autoCategoryEnabled := true
|}.

(** ** Util *)

(** The predicate given to [rules.find]. *)
Definition ruleMatches (price : number) (rr : PriceRule) : bool :=
  match max rr with
  | Some m => (min rr <=? price)%float && (price <=? m)%float
  | None => (min rr <=? price)%float
  end.

(** [const r = rules.find(..); const result = r ? price * r.multiply + r.plus : price] *)
Definition ruleResult (price : number) (rules : list PriceRule) : number :=
  match List.find (ruleMatches price) rules with
  | Some r => (price * multiply r + plus r)%float
  | None => price
  end.

(** [applyRule]; the price is [None] where the caller has [undefined]. *)
Definition applyRule (price : option number) (rules : list PriceRule) : number :=
  match price with
  | None => 0%float
  | Some price =>
    if negb (truthy price) || (price <=? 0)%float then 0%float
    else Math_max 1 (Math_round (ruleResult price rules))
  end.

(** [a || b] on strings: [b] when [a] is absent or empty. *)
Definition orElse (a : option jsstring) (b : jsstring) : jsstring :=
  match a with
  | Some (c :: s) => c :: s
  | _ => b
  end.

Definition stripWords (title : jsstring) (words : list jsstring) : jsstring :=
  let t :=
    fold_left (fun t w => if negb (nonEmpty w) then t else removeAll w t)
              words title in
  trim (collapseSpaces t).

(** [/^[A-Z0-9]{10}$/i]: without the [u] flag, ignoring case matches a code
    unit above 127 only with itself, so the class holds the ASCII letters
    and digits. *)
Definition isAsinUnit (c : N) : bool :=
  ((48 <=? c) && (c <=? 57)) || ((65 <=? c) && (c <=? 90))
  || ((97 <=? c) && (c <=? 122)).
Definition isAsinPattern (s : jsstring) : bool :=
  Nat.eqb (length s) 10 && forallb isAsinUnit s.

(** The body of the row loop: what the row pushes onto [asins]. *)
Definition rowAsins (asinIndex : option nat) (row : jsstring) : list jsstring :=
  if negb (nonEmpty row) then []
  else
    let cells := splitOn isDelimiter row in
    let idx := default O asinIndex in
    match nth_error cells idx with
    | None => []                                  (* idx >= cells.length *)
    | Some cell =>
      let raw := trim cell in
      let cleaned := trim (stripQuotes raw) in
      if negb (nonEmpty cleaned) then []
      else if isAsinPattern cleaned then [toUpperCase cleaned]
      else []
    end.

Definition parseAsinCsv (text : jsstring) : list jsstring :=
  let rawLines := splitLines text in
  let lines := List.filter nonEmpty (List.map trim rawLines) in
  match lines with
  | [] => []
  | first :: others =>
    let first :=
      match first with
      | c :: rest => if c =? 0xFEFF then rest else first
      | [] => first
      end in
    let lines := first :: others in
    let headerCells :=
      List.map (fun c => toLowerCase (trim (stripQuotes c)))
               (splitOn isDelimiter first) in
    let asinIndex := indexOf headerCells (js "asin") in
    let startRow := match asinIndex with Some _ => 1%nat | None => 0%nat end in
    unique (flat_map (rowAsins asinIndex) (skipn startRow lines))
  end.

(** ** Category assignment *)

(** [info?.title || p.name], or the empty string if both are falsy. *)
Definition rawTitleOf (info : option AmazonItemInfo) (p : Product) : jsstring :=
  orElse (info ≫= title) (orElse (Some (name p)) []).

Section ChooseCategory.

(** [String.prototype.toLowerCase], whatever it does to each string. *)
Variable lower : jsstring -> jsstring.

(** The loop over [Object.entries(settings.categoryMap)]. *)
Fixpoint manualCategory (entries : CategoryMap) (titleLower : jsstring)
  : option number :=
  match entries with
  | [] => None
  | (key, cat) :: rest =>
    if negb (nonEmpty key) then manualCategory rest titleLower
    else if includes titleLower (lower key) then Some cat
    else manualCategory rest titleLower
  end.

Definition chooseCategory (info : option AmazonItemInfo) (p : Product)
    (settings : SettingsState) : option number :=
  let rawTitle := rawTitleOf info p in
  let titleLower := lower rawTitle in
  match manualCategory (categoryMap settings) titleLower with
  | Some cat => Some cat
  | None =>
    if negb (autoCategoryEnabled settings) then None
    else
      let decision := classifyQoo10Category (Some rawTitle) in
      match main decision with
      | Main120000 =>
        Some (beautyNumber
                (default Beauty120000012 (beautySecondSubCat decision)))
      | m => Some (mainNumber m)
      end
  end.

End ChooseCategory.

(** ** The listing run, [runListing] *)

(** [infoMap]: [amazonInfos.forEach((i) => i.asin && infoMap.set(i.asin, i))] *)
Definition buildInfoMap (amazonInfos : list AmazonItemInfo)
  : gmap jsstring AmazonItemInfo :=
  fold_left (fun m i => if nonEmpty (info_asin i) then <[info_asin i := i]> m else m)
            amazonInfos ∅.

(** [!info.price] *)
Definition priceMissing (price : option number) : bool :=
  match price with
  | None => true
  | Some x => negb (truthy x)
  end.

(** The Prime condition that excludes an item. *)
Definition failsPrime (settings : SettingsState) (info : AmazonItemInfo) : bool :=
  match isPrime info with Some false => true | _ => false end
  || match shipDays info with
     | Some d => (primeShipDaysMax settings <? d)%float
     | None => false
     end.

(** [info.sellerCount != null && info.sellerCount <= 1] *)
Definition singleSeller (info : AmazonItemInfo) : bool :=
  match sellerCount info with
  | Some n => (n <=? 1)%float
  | None => false
  end.

(** The fixed texts of the rejections. *)
Definition priceUnavailable : jsstring := js "Amazon価格が取得できませんでした。".
Definition asinDenied : jsstring := js "出品不可ASINに登録されています。".
Definition alreadyListed : jsstring := js "Qoo10に同一ASINの商品が既に存在します。".
Definition priceInvalid : jsstring :=
  js "価格ルール適用後の価格が不正のため除外しました。".

Definition rejected (p : Product) (st : ListingStatus) (msg : Message)
    (hits : option (list jsstring)) : ListingResultItem :=
  {| item_asin := asin p; item_name := name p; status := st;
     item_message := msg; hitWords := hits; item_qoo10ItemCode := None |}.

Section ListingRun.

Variable lower : jsstring -> jsstring.
Variable settings : SettingsState.

(** One turn of [for (const p of targets)]: the result pushed onto
    [results], or the payload pushed onto [payloads]. *)
Definition checkTarget (infoMap : gmap jsstring AmazonItemInfo)
    (existsSet : gset jsstring) (p : Product)
  : ListingResultItem + Qoo10ListingPayload :=
  match infoMap !! asin p with
  | None =>
    inl (rejected p error (Text priceUnavailable) None)
  | Some info =>
    if priceMissing (price info) then
      inl (rejected p error (Text priceUnavailable) None)
    else if primeOnly settings && failsPrime settings info then
      inl (rejected p forbidden (PrimeExcluded (shipDays info)) None)
    else if singleSeller info then
      inl (rejected p forbidden (SingleSeller (sellerCount info)) None)
    else if arrayIncludes (noListASINs settings) (asin p) then
      inl (rejected p forbidden (Text asinDenied) None)
    else
      let hits :=
        List.filter (fun w => nonEmpty w && includes (name p) w)
                    (noListWords settings) in
      if negb (Nat.eqb (length hits) 0) then
        inl (rejected p forbidden (WordsHit hits) (Some hits))
      else if bool_decide (asin p ∈ existsSet) then
        inl (rejected p exists_ (Text alreadyListed) None)
      else
        let title' := stripWords (orElse (title info) (name p))
                                 (nameEraseWords settings) in
        let price' := applyRule (price info) (rules settings) in
        if negb (truthy price') || (price' <=? 0)%float then
          inl (rejected p error (Text priceInvalid) None)
        else
          let categoryNo' := chooseCategory lower (Some info) p settings in
          let stock' :=
            if (0 <? maxStockPerItem settings)%float
            then maxStockPerItem settings else 1%float in
          inr {| payload_asin := asin p;
                 payload_price := price';
                 shippingCode := settings_shippingCode settings;
                 payload_title := title';
                 imageUrl := image info;
                 stock := Some stock';
                 categoryNo := categoryNo';
                 payload_jan := jan p |}
  end.

(** The loop, threading the two arrays it pushes onto. *)
Fixpoint listingLoop (infoMap : gmap jsstring AmazonItemInfo)
    (existsSet : gset jsstring) (targets : list Product)
    (results : list ListingResultItem) (payloads : list Qoo10ListingPayload)
  : list ListingResultItem * list Qoo10ListingPayload :=
  match targets with
  | [] => (results, payloads)
  | p :: rest =>
    match checkTarget infoMap existsSet p with
    | inl r => listingLoop infoMap existsSet rest (results ++ [r]) payloads
    | inr q => listingLoop infoMap existsSet rest results (payloads ++ [q])
    end
  end.

(** One turn of [for (const r of created)]. *)
Definition createdResult (targets : list Product) (r : CreateListingResult)
  : ListingResultItem :=
  let baseName :=
    orElse (name <$> List.find (fun p => JsString.eqb (asin p) (result_asin r)) targets)
           (result_asin r) in
  if ok r then
    {| item_asin := result_asin r; item_name := baseName; status := success;
       item_message := Text (orElse (message r) (js "出品登録が完了しました。"));
       hitWords := None; item_qoo10ItemCode := qoo10ItemCode r |}
  else
    {| item_asin := result_asin r; item_name := baseName; status := error;
       item_message :=
         match message r with
         | Some (c :: m) => Text (c :: m)
         | _ =>
           match result_code r with
           | Some (c :: code) => ApiErrorCode (c :: code)
           | _ => Text (js "出品APIからエラーが返されました。")
           end
         end;
       hitWords := None; item_qoo10ItemCode := None |}.

Variable Err : Type.
Variable httpError : forall T, jsstring -> Response Err T -> jsstring -> Err.
(** [e?.message] of a caught value. *)
Variable errorMessage : Err -> option jsstring.

Variable fetchBulk : Fetch Err (list jsstring) (list AmazonItemInfo).
Variable fetchExisting : Fetch Err (list jsstring) (list jsstring).
Variable fetchCreate :
  Fetch Err (list Qoo10ListingPayload) (list CreateListingResult).

(** [runListing] on the chosen [targets]: the value it hands to
    [setListingResults].  The two reads of [Promise.all] do not depend on
    each other; listing creation follows both. *)
Definition runListing (targets : list Product)
  : Completion Err (list ListingResultItem) :=
  tryCatch
    (if Nat.eqb (length targets) 0 then Return []
     else
       let asins := List.map asin targets in
       await amazonInfos := fetchAmazonBulk httpError fetchBulk asins in
       await existingAsins := checkQoo10Existing httpError fetchExisting asins in
       let infoMap := buildInfoMap amazonInfos in
       let existsSet : gset jsstring := list_to_set existingAsins in
       let '(results, payloads) := listingLoop infoMap existsSet targets [] [] in
       if Nat.eqb (length payloads) 0 then Return results
       else
         await created := createQoo10Listings httpError fetchCreate payloads in
         Return (results ++ List.map (createdResult targets) created))
    (fun e =>
       Return [ {| item_asin := js "-"; item_name := []; status := error;
                   item_message :=
                     Text (orElse (errorMessage e)
                             (js "出品処理中に予期せぬエラーが発生しました。"));
                   hitWords := None; item_qoo10ItemCode := None |} ]).

End ListingRun.

(** ** Result grouping, [ListingResultInline]

    The component renders nothing for [null] or an empty list; otherwise it
    renders the four filtered lists, in this order. *)
Definition hasStatus (s : ListingStatus) (r : ListingResultItem) : bool :=
  match s, status r with
  | success, success | exists_, exists_ | forbidden, forbidden | error, error => true
  | _, _ => false
  end.

Record Buckets : Set := {
  bucket_exists : list ListingResultItem;
  bucket_forbidden : list ListingResultItem;
  bucket_error : list ListingResultItem;
  bucket_success : list ListingResultItem
}.

Definition group (results : list ListingResultItem) : Buckets := {|
  bucket_exists := List.filter (hasStatus exists_) results;
  bucket_forbidden := List.filter (hasStatus forbidden) results;
  bucket_error := List.filter (hasStatus error) results;
  bucket_success := List.filter (hasStatus success) results
|}.

Definition ListingResultInline (results : option (list ListingResultItem))
  : option Buckets :=
  match results with
  | None | Some [] => None
  | Some results => Some (group results)
  end.

End App.

(* ===================================================================== *)
(** * api/qeasy.ts: settings and item wrappers                            *)
(* ===================================================================== *)

Module ApiRest.

Import Api.

Record QeasyItem : Set := {
  qi_asin : jsstring;
  qi_name : jsstring;
  qi_jan : option jsstring;
  qi_qoo10Id : option jsstring;
  qi_mainImage : option jsstring;
  qi_amazonPrice : option number;
  qi_inStock : option bool;
  qi_updatedAt : option jsstring
}.

Section Rest.

Variable Err : Type.
Variable httpError : forall T, jsstring -> Response Err T -> jsstring -> Err.

(** [new Error(`${path} ${res.status} ${res.statusText}`)] of [getJson] *)
Variable httpGetError : forall T, jsstring -> Response Err T -> Err.

(** [fetch(url, {method: "GET"})]: a function of the path. *)
Definition FetchGet (T : Type) : Type := jsstring -> Completion Err (Response Err T).

Definition getJson {T} (fetch : FetchGet T) (path : jsstring) : Completion Err T :=
  await res := fetch path in
  if negb (res_ok res) then Throw (httpGetError T path res)
  else res_json res.

(** The settings are [any]; [null] is the value handed out on failure. *)
Variable Settings : Type.
Variable null : Settings.

Definition fetchSettings (fetch : FetchGet Settings) : Completion Err Settings :=
  tryCatch (getJson fetch (js "/settings")) (fun _ => Return null).

Definition saveSettings {T} (fetch : Fetch Err Settings T) (settings : Settings)
  : Completion Err unit :=
  tryCatch (await _ := postJson httpError fetch (js "/settings") settings in Return tt)
           (fun _ => Return tt).

Definition fetchItems (fetch : FetchGet (list QeasyItem))
  : Completion Err (list QeasyItem) :=
  tryCatch (getJson fetch (js "/items")) (fun _ => Return []).

Definition saveItems {T} (fetch : Fetch Err (list QeasyItem) T) (items : list QeasyItem)
  : Completion Err unit :=
  tryCatch (await _ := postJson httpError fetch (js "/items") items in Return tt)
           (fun _ => Return tt).

Definition refreshItems {T} (fetch : Fetch Err unit T) : Completion Err unit :=
  tryCatch (await _ := postJson httpError fetch (js "/items/refresh") tt in Return tt)
           (fun _ => Return tt).

End Rest.

Arguments getJson {Err} httpGetError {T} fetch path.
Arguments fetchSettings {Err} httpGetError {Settings} null fetch.
Arguments saveSettings {Err} httpError {Settings T} fetch settings.
Arguments fetchItems {Err} httpGetError fetch.
Arguments saveItems {Err} httpError {T} fetch items.
Arguments refreshItems {Err} httpError {T} fetch.

End ApiRest.

(* ===================================================================== *)
(** * App.tsx: the tag editor                                             *)
(* ===================================================================== *)

Module TagEditor.

Import JsString.

(** The state of the component; [tags] and [onChange] are its props. *)
Record State : Set := {
  value : jsstring;
  bulk : jsstring;
  showBulk : bool
}.

(** The class of [/[\s,\n、，]+/] *)
Definition isSeparator (c : N) : bool :=
  isWhiteSpace c || (c =? 0x2C) || (c =? 0x0A) || (c =? 0x3001) || (c =? 0xFF0C).

(** [s.split(/[..]+/)] for a class [sep] of code units: a maximal run of
    separators ends a piece. *)
Fixpoint splitRuns (sep : N -> bool) (s : jsstring) : list jsstring :=
  match s with
  | [] => [[]]
  | c :: s' =>
    if sep c then
      match s' with
      | d :: _ => if sep d then splitRuns sep s' else [] :: splitRuns sep s'
      | [] => [[]; []]
      end
    else consHead c (splitRuns sep s')
  end.

(** A handler returns the list it hands to [onChange], if it calls it, and
    the next state. *)
Definition add (tags : list jsstring) (st : State)
  : option (list jsstring) * State :=
  let t := trim (value st) in
  if negb (nonEmpty t) || arrayIncludes tags t then (None, st)
  else (Some (t :: tags),
        {| value := []; bulk := bulk st; showBulk := showBulk st |}).

(** [bulk.split(..).map((x) => x.trim()).filter(Boolean)] *)
Definition bulkList (st : State) : list jsstring :=
  List.filter nonEmpty (List.map trim (splitRuns isSeparator (bulk st))).

(** The [Set] starts from [tags] and receives the new tags one by one. *)
Definition addBulk (tags : list jsstring) (st : State)
  : option (list jsstring) * State :=
  let list := bulkList st in
  if Nat.eqb (length list) 0 then (None, st)
  else (Some (unique (tags ++ list)),
        {| value := value st; bulk := []; showBulk := false |}).

Definition remove (tags : list jsstring) (t : jsstring) : list jsstring :=
  List.filter (fun x => negb (eqb x t)) tags.

End TagEditor.

(* ===================================================================== *)
(** * App.tsx: search, selection and deletion                             *)
(* ===================================================================== *)

Module Selection.

Import JsString JsNumber App.

(** ** [Set<number>]

    A [Set] compares with SameValueZero: [NaN] equals [NaN], and [+0]
    equals [-0].  It keeps its values in the order of insertion, and stores
    [+0] for [-0]. *)
Definition sameValueZero (x y : number) : bool :=
  (x =? y)%float || (PrimFloat.is_nan x && PrimFloat.is_nan y).

Definition NumberSet : Set := list number.

Definition Set_has (s : NumberSet) (x : number) : bool :=
  existsb (fun y => sameValueZero y x) s.

Definition Set_add (s : NumberSet) (x : number) : NumberSet :=
  if Set_has s x then s
  else s ++ [if PrimFloat.is_zero x then 0%float else x].

Definition Set_delete (s : NumberSet) (x : number) : NumberSet :=
  List.filter (fun y => negb (sameValueZero y x)) s.

(** [new Set(l)] *)
Definition Set_of (l : list number) : NumberSet := fold_left Set_add l [].

(** ** The state of the list page *)
Record ListState : Set := {
  products : list Product;
  search : jsstring;
  selected : NumberSet
}.

Section Handlers.

Variable lower : jsstring -> jsstring.
Variable settings : SettingsState.

(** The text a product is searched in. *)
Definition searchText (p : Product) : jsstring :=
  name p ++ js " " ++ asin p ++ js " " ++ orElse (jan p) []
  ++ js " " ++ orElse (qoo10Id p) [].

Definition filteredProducts (st : ListState) : list Product :=
  let q := lower (trim (search st)) in
  if negb (nonEmpty q) then products st
  else List.filter (fun p => includes (lower (searchText p)) q) (products st).

Definition setSearch (s : jsstring) (st : ListState) : ListState :=
  {| products := products st; search := s; selected := selected st |}.

Definition toggleSelect (id : number) (checked : bool) (st : ListState) : ListState :=
  {| products := products st; search := search st;
     selected := if checked then Set_add (selected st) id
                 else Set_delete (selected st) id |}.

Definition clearSelection (st : ListState) : ListState :=
  {| products := products st; search := search st; selected := [] |}.

Definition selectVisible (st : ListState) : ListState :=
  {| products := products st; search := search st;
     selected := Set_of (List.map id (filteredProducts st)) |}.

(** [settings.keepASINsOnDelete.includes(p.asin)] *)
Definition kept (p : Product) : bool :=
  arrayIncludes (keepASINsOnDelete settings) (asin p).

(** [confirm] is the answer to [window.confirm], which is asked only when
    there is something to delete. *)
Definition deleteSelected (confirm : bool) (st : ListState) : ListState :=
  if Nat.eqb (length (selected st)) 0 then st
  else if negb confirm then st
  else
    clearSelection
      {| products :=
           List.filter (fun p => negb (Set_has (selected st) (id p)) || kept p)
                       (products st);
         search := search st; selected := selected st |}.

Definition deleteAll (confirm : bool) (st : ListState) : ListState :=
  if Nat.eqb (length (products st)) 0 then st
  else if negb confirm then st
  else
    clearSelection
      {| products := List.filter kept (products st);
         search := search st; selected := selected st |}.

(** What the user can do on the list page with these handlers. *)
Inductive Action : Set :=
| SetSearch (s : jsstring)
| ToggleSelect (id : number) (checked : bool)
| ClearSelection
| SelectVisible
| DeleteSelected (confirm : bool)
| DeleteAll (confirm : bool).

Definition step (st : ListState) (a : Action) : ListState :=
  match a with
  | SetSearch s => setSearch s st
  | ToggleSelect id checked => toggleSelect id checked st
  | ClearSelection => clearSelection st
  | SelectVisible => selectVisible st
  | DeleteSelected confirm => deleteSelected confirm st
  | DeleteAll confirm => deleteAll confirm st
  end.

Definition steps (st : ListState) (actions : list Action) : ListState :=
  fold_left step actions st.

End Handlers.

End Selection.

(* ===================================================================== *)
(** * App.tsx: filling the product list                                   *)
(* ===================================================================== *)

Module Catalog.

Import JsString JsNumber Api ApiRest App.

(** A [Product] with the fields that only the page shows. *)
Record ProductRow : Set := {
  product : Product;
  mainImage : jsstring;
  images : list jsstring;
  updatedAt : jsstring
}.

Definition noImage : jsstring :=
  js "https://via.placeholder.com/120x120.png?text=No+Image".

(** [x || 0] on an optional number *)
Definition orZero (x : option number) : number :=
  match x with
  | Some v => if truthy v then v else 0%float
  | None => 0%float
  end.

(** [img ? [img] : []] *)
Definition imagesOf (img : option jsstring) : list jsstring :=
  match img with
  | Some (c :: s) => [c :: s]
  | _ => []
  end.

Definition mapItemsToProducts (items : list QeasyItem) : list ProductRow :=
  imap (fun idx r =>
          {| product :=
               {| id := (ofZ (Z.of_nat idx) + 1)%float;
                  asin := qi_asin r;
                  name := orElse (Some (qi_name r)) (qi_asin r);
                  jan := qi_jan r;
                  qoo10Id := qi_qoo10Id r;
                  amazonPrice := orZero (qi_amazonPrice r);
                  inStock := qi_inStock r |};
             mainImage := orElse (qi_mainImage r) noImage;
             images := imagesOf (qi_mainImage r);
             updatedAt := orElse (qi_updatedAt r) [] |})
       (List.filter (fun r => nonEmpty (qi_asin r)) items).

(** [Math.max(...l)] *)
Definition Math_max_list (l : list number) : number :=
  fold_left Math_max l neg_infinity.

Section CsvImport.

(** [String.prototype.toUpperCase], and the time stamp
    [new Date().toISOString().replace("T", " ").slice(0, 19)]. *)
Variable upper : jsstring -> jsstring.
Variable now : jsstring.

Definition importedRow (idBase : number) (asin : jsstring) (info : AmazonItemInfo)
  : ProductRow :=
  {| product :=
       {| id := idBase;
          asin := asin;
          name := orElse (title info) asin;
          jan := None;
          qoo10Id := None;
          amazonPrice := orZero (price info);
          inStock := Some (negb (priceMissing (price info))) |};
     mainImage := orElse (image info) noImage;
     images := imagesOf (image info);
     updatedAt := now |}.

(** The loop over [infos]: [used] is the [Set] of ASINs, [idBase] the next
    id, [next] the list being built. *)
Fixpoint importLoop (infos : list AmazonItemInfo) (used : list jsstring)
    (idBase : number) (next : list ProductRow) : list ProductRow :=
  match infos with
  | [] => next
  | info :: rest =>
    let asin := upper (info_asin info) in
    if negb (nonEmpty asin) || arrayIncludes used asin
    then importLoop rest used idBase next
    else importLoop rest (used ++ [asin]) (idBase + 1)%float
                    (next ++ [importedRow idBase asin info])
  end.

(** The update handed to [setProducts]. *)
Definition mergeImported (infos : list AmazonItemInfo) (prev : list ProductRow)
  : list ProductRow :=
  let used := unique (List.map (fun p => asin (product p)) prev) in
  let idBase :=
    if negb (Nat.eqb (length prev) 0)
    then (Math_max_list (List.map (fun p => id (product p)) prev) + 1)%float
    else 1%float in
  importLoop infos used idBase prev.


Variable Err : Type.
Variable httpError : forall T, jsstring -> Response Err T -> jsstring -> Err.
Variable httpGetError : forall T, jsstring -> Response Err T -> Err.




End CsvImport.

End Catalog.

(* ===================================================================== *)
(** * Properties                                                          *)
(* ===================================================================== *)

(** ** Lists *)

Module ListFacts.

Lemma filter_sublist {A} (f : A → bool) (l : list A) : sublist (List.filter f l) l.
Proof.
  induction l as [|x l IH]; simpl; [constructor|].
  destruct (f x); by constructor.
Qed.

Lemma find_first {A} (f : A → bool) (pre : list A) (x : A) (post : list A) :
  Forall (fun y => f y = false) pre → f x = true →
  List.find f (pre ++ x :: post) = Some x.
Proof.
  intros Hpre Hx. induction Hpre as [|y pre Hy _ IH]; simpl.
  - by rewrite Hx.
  - by rewrite Hy.
Qed.

Lemma find_none {A} (f : A → bool) (l : list A) :
  Forall (fun y => f y = false) l → List.find f l = None.
Proof.
  intros H. induction H as [|y l Hy _ IH]; simpl; [done|]. by rewrite Hy.
Qed.

End ListFacts.

(** ** Strings *)

Module JsStringFacts.

(** [contains s kw]: [kw] occurs in [s] as a run of consecutive code
    units. *)
Definition contains (s kw : jsstring) : Prop :=
  ∃ pre post, s = pre ++ kw ++ post.

Lemma startsWith_iff (s p : jsstring) :
  startsWith s p = true ↔ ∃ post, s = p ++ post.
Proof.
  revert s; induction p as [|x p IH]; intros s.
  - split; [intros _; by exists s | by destruct s].
  - destruct s as [|y s]; simpl.
    + split; [done | intros [post H]; discriminate].
    + rewrite andb_true_iff, N.eqb_eq, IH. split.
      * intros [-> [post ->]]. by exists post.
      * intros [post H]. injection H as -> ->. eauto.
Qed.

Lemma includes_iff (s kw : jsstring) :
  includes s kw = true ↔ contains s kw.
Proof.
  unfold contains. induction s as [|c s IH].
  - change (includes [] kw) with (startsWith [] kw || false).
    rewrite orb_false_r, startsWith_iff. split.
    + intros [post H]. by exists [], post.
    + intros (pre & post & H). destruct pre; [|discriminate].
      simpl in H. by exists post.
  - change (includes (c :: s) kw)
      with (startsWith (c :: s) kw || includes s kw).
    rewrite orb_true_iff, startsWith_iff, IH. split.
    + intros [[post H] | (pre & post & H)].
      * by exists [], post.
      * exists (c :: pre), post. by rewrite H.
    + intros (pre & post & H). destruct pre as [|d pre].
      * left. by exists post.
      * right. injection H as -> ->. by exists pre, post.
Qed.

Lemma includes_empty (s : jsstring) : includes s [] = true.
Proof. apply includes_iff. by exists [], s. Qed.

Lemma someIncluded_iff (kws : list jsstring) (title : jsstring) :
  someIncluded kws title = true ↔ ∃ kw, In kw kws ∧ contains title kw.
Proof.
  unfold someIncluded. rewrite existsb_exists.
  split; intros (kw & Hin & H); exists kw; split; auto; by apply includes_iff.
Qed.

Lemma eqb_eq (a b : jsstring) : JsString.eqb a b = true ↔ a = b.
Proof.
  revert b; induction a as [|x a IH]; intros [|y b]; simpl; try done.
  rewrite andb_true_iff, N.eqb_eq, IH. split; [by intros [-> ->] | by intros [= -> ->]].
Qed.

Lemma eqb_refl (a : jsstring) : JsString.eqb a a = true.
Proof. by apply eqb_eq. Qed.

Lemma arrayIncludes_iff (l : list jsstring) (x : jsstring) :
  arrayIncludes l x = true ↔ In x l.
Proof.
  unfold arrayIncludes. rewrite existsb_exists. split.
  - intros (y & Hin & H). apply eqb_eq in H. by subst.
  - intros H. exists x. split; [done | apply eqb_refl].
Qed.

End JsStringFacts.

(** ** The classifier *)

Module ClassifierFacts.

Import Qoo10Category JsStringFacts.

(** C5.  A title that contains a supplement keyword and a razor keyword is
    classified as supplement, [130000], with no beauty sub-category: the
    supplement test comes first in [getMainCategoryCode]. *)
Theorem supplement_before_razor (title kw rz : jsstring) :
  In kw SUPPLEMENT_KEYWORDS → contains title kw →
  In rz RAZOR_KEYWORDS → contains title rz →
  getMainCategoryCode (Some title) = Main130000
  ∧ classifyQoo10Category (Some title)
    = {| main := Main130000; beautySecondSubCat := None |}.
Proof.
  intros Hkw Hc _ _.
  assert (Hs : isSupplement title = true).
  { apply someIncluded_iff. eauto. }
  assert (Hm : getMainCategoryCode (Some title) = Main130000).
  { unfold getMainCategoryCode.
    change (default [] (Some title)) with title. by rewrite Hs. }
  split; [done|]. unfold classifyQoo10Category. by rewrite Hm.
Qed.

Lemma supplement_before_razor_witness :
  let title := js "プロテイン シェーバー" in
  getMainCategoryCode (Some title) = Main130000
  ∧ classifyQoo10Category (Some title)
    = {| main := Main130000; beautySecondSubCat := None |}.
Proof.
  apply (supplement_before_razor (js "プロテイン シェーバー")
           (js "プロテイン") (js "シェーバー")).
  - vm_compute. tauto.
  - exists [], (js " シェーバー"). reflexivity.
  - vm_compute. tauto.
  - exists (js "プロテイン "), []. reflexivity.
Defined.

(** C1.  What the code does with a razor title that carries an electric
    hint: [isDailyRazor] accepts it when a disposable-blade hint is present,
    but [getMainCategoryCode] never asks, because [isBeautyAppliance] has
    already matched; the result is the appliance category (or supplement),
    never daily goods. *)
Theorem razor_electric_is_appliance (title rz el : jsstring) :
  In rz RAZOR_KEYWORDS → contains title rz →
  In el ELECTRIC_HINTS → contains title el →
  getMainCategoryCode (Some title)
    = (if isSupplement title then Main130000 else Main120000033)
  ∧ getMainCategoryCode (Some title) ≠ Main100000018
  ∧ isDailyRazor title = someIncluded DAILY_RAZOR_HINTS title.
Proof.
  intros Hrz Hc Hel Hc'.
  assert (Hr : someIncluded RAZOR_KEYWORDS title = true)
    by (apply someIncluded_iff; eauto).
  assert (He : someIncluded ELECTRIC_HINTS title = true)
    by (apply someIncluded_iff; eauto).
  assert (Ha : isBeautyAppliance title = true).
  { unfold isBeautyAppliance. rewrite Hr, He.
    destruct (someIncluded BEAUTY_APPLIANCE_KEYWORDS title); reflexivity. }
  unfold getMainCategoryCode, isDailyRazor.
  change (default [] (Some title)) with title. rewrite Ha, Hr, He.
  destruct (isSupplement title), (someIncluded DAILY_RAZOR_HINTS title);
    repeat split; discriminate.
Qed.

Lemma razor_electric_is_appliance_witness :
  let title := js "電動シェーバー 替刃" in
  getMainCategoryCode (Some title) = Main120000033
  ∧ getMainCategoryCode (Some title) ≠ Main100000018
  ∧ isDailyRazor title = true.
Proof.
  apply (razor_electric_is_appliance (js "電動シェーバー 替刃")
           (js "シェーバー") (js "電動")).
  - vm_compute. tauto.
  - exists (js "電動"), (js " 替刃"). reflexivity.
  - vm_compute. tauto.
  - exists [], (js "シェーバー 替刃"). reflexivity.
Defined.

End ClassifierFacts.

(** ** The API wrappers *)

Module ApiFacts.

Import Api.

Section Degrade.

Variable Err : Type.
Variable httpError : forall T, jsstring -> Response Err T -> jsstring -> Err.

(** When does the underlying call fail?  [fetch] rejects (the server is
    unreachable), the response is not ok, or its body does not parse. *)
Lemma postJson_throws {Req T} (fetch : Fetch Err Req T) path body :
  (∃ e, postJson httpError fetch path body = Throw e) ↔
  (∃ e, fetch path body = Throw e)
  ∨ (∃ res, fetch path body = Return res
            ∧ (res_ok res = false ∨ ∃ e, res_json res = Throw e)).
Proof.
  unfold postJson, bind, tryCatch.
  destruct (fetch path body) as [res|e0].
  - destruct (res_ok res) eqn:Hok; simpl.
    + split.
      * intros [e He]. right. exists res. eauto.
      * intros [[e He] | (res' & [= <-] & [Hk | He])]; congruence.
    + split.
      * intros _. right. exists res. eauto.
      * intros _. destruct (res_text res); eauto.
  - split; [intros _; left | intros _]; eauto.
Qed.

(** No wrapper throws. *)
Lemma fetchAmazonBulk_returns fetch asins :
  ∃ v, fetchAmazonBulk httpError fetch asins = Return v.
Proof.
  unfold fetchAmazonBulk.
  destruct (Nat.eqb _ _); [eauto|]. destruct (postJson _ _ _ _); simpl; eauto.
Qed.

Lemma checkQoo10Existing_returns fetch asins :
  ∃ v, checkQoo10Existing httpError fetch asins = Return v.
Proof.
  unfold checkQoo10Existing.
  destruct (Nat.eqb _ _); [eauto|]. destruct (postJson _ _ _ _); simpl; eauto.
Qed.

Lemma createQoo10Listings_returns fetch items :
  ∃ v, createQoo10Listings httpError fetch items = Return v.
Proof.
  unfold createQoo10Listings.
  destruct (Nat.eqb _ _); [eauto|]. destruct (postJson _ _ _ _); simpl; eauto.
Qed.

(** One result per payload, for the same ASIN, each with [ok = false]. *)
Definition failed (items : list Qoo10ListingPayload) (rs : list CreateListingResult)
  : Prop :=
  Forall2 (fun it r => result_asin r = payload_asin it ∧ ok r = false) items rs.

(** C9.  Each wrapper turns a failure of the underlying call into a value:
    the empty list for [fetchAmazonBulk] and [checkQoo10Existing], one
    result with [ok = false] per submitted payload for
    [createQoo10Listings]; and whatever [fetch] does, no wrapper
    throws. *)
Theorem wrappers_degrade :
  (∀ fetch asins e,
     postJson httpError fetch (js "/amazon/bulk") asins = Throw e →
     fetchAmazonBulk httpError fetch asins = Return [])
  ∧ (∀ fetch asins e,
       postJson httpError fetch (js "/qoo10/check-existing") asins = Throw e →
       checkQoo10Existing httpError fetch asins = Return [])
  ∧ (∀ fetch items e,
       postJson httpError fetch (js "/qoo10/create-listings") items = Throw e →
       ∃ rs, createQoo10Listings httpError fetch items = Return rs
             ∧ failed items rs)
  ∧ (∀ fetch asins, ∃ v, fetchAmazonBulk httpError fetch asins = Return v)
  ∧ (∀ fetch asins, ∃ v, checkQoo10Existing httpError fetch asins = Return v)
  ∧ (∀ fetch items, ∃ v, createQoo10Listings httpError fetch items = Return v).
Proof.
  assert (Hfailed : ∀ items,
            failed items
              (List.map (fun it =>
                 {| result_asin := payload_asin it; ok := false;
                    message := Some callFailedMessage; result_code := None;
                    qoo10ItemCode := None |}) items)).
  { induction items as [|it items IH]; constructor; auto. }
  repeat split.
  - intros fetch asins e H. unfold fetchAmazonBulk.
    destruct (Nat.eqb _ _); [done|]. by rewrite H.
  - intros fetch asins e H. unfold checkQoo10Existing.
    destruct (Nat.eqb _ _); [done|]. by rewrite H.
  - intros fetch items e H. unfold createQoo10Listings.
    destruct (Nat.eqb (length items) 0) eqn:Hlen.
    + apply Nat.eqb_eq in Hlen. destruct items; [|discriminate].
      exists []. split; [done | constructor].
    + rewrite H. simpl. eauto.
  - apply fetchAmazonBulk_returns.
  - apply checkQoo10Existing_returns.
  - apply createQoo10Listings_returns.
Qed.

End Degrade.

(** The server is down: every [fetch] rejects. *)
Definition unreachable {Req T} : Fetch jsstring Req T :=
  fun _ _ => Throw (js "Failed to fetch").

Definition pathAsError : forall T, jsstring -> Response jsstring T -> jsstring -> jsstring :=
  fun _ path _ _ => path.

Definition somePayload : Qoo10ListingPayload :=
  {| payload_asin := js "B00TEST001"; payload_price := 3400;
     shippingCode := js "645035"; payload_title := js "x";
     imageUrl := None; stock := Some 2%float; categoryNo := None;
     payload_jan := None |}.

Lemma wrappers_degrade_witness :
  fetchAmazonBulk pathAsError unreachable [js "B00TEST001"] = Return []
  ∧ checkQoo10Existing pathAsError unreachable [js "B00TEST001"] = Return []
  ∧ ∃ rs, createQoo10Listings pathAsError unreachable [somePayload] = Return rs
          ∧ failed [somePayload] rs.
Proof.
  destruct (wrappers_degrade jsstring pathAsError) as (H1 & H2 & H3 & _).
  split; [|split].
  - apply (H1 unreachable [js "B00TEST001"] (js "Failed to fetch")). reflexivity.
  - apply (H2 unreachable [js "B00TEST001"] (js "Failed to fetch")). reflexivity.
  - apply (H3 unreachable [somePayload] (js "Failed to fetch")). reflexivity.
Defined.

End ApiFacts.

(** ** Result grouping *)

Module GroupFacts.

Import Api App ListFacts.

(** The bucket shown for a status. *)
Definition bucket (b : Buckets) (s : ListingStatus) : list ListingResultItem :=
  match s with
  | exists_ => bucket_exists b
  | forbidden => bucket_forbidden b
  | error => bucket_error b
  | success => bucket_success b
  end.

Lemma hasStatus_iff s r : hasStatus s r = true ↔ status r = s.
Proof. unfold hasStatus. destruct s, (status r); split; congruence. Qed.

Lemma bucket_filter results s :
  bucket (group results) s = List.filter (hasStatus s) results.
Proof. by destruct s. Qed.

Lemma group_permutation results :
  Permutation
    (bucket_exists (group results) ++ bucket_forbidden (group results)
     ++ bucket_error (group results) ++ bucket_success (group results))
    results.
Proof.
  unfold group; simpl. induction results as [|r results IH]; [done|].
  simpl. unfold hasStatus at 1 3 5 7. destruct (status r); simpl.
  - (* success *)
    rewrite !app_assoc. rewrite <- Permutation_middle.
    rewrite <- !app_assoc. by constructor.
  - by constructor.
  - rewrite <- Permutation_middle. by constructor.
  - rewrite app_assoc. rewrite <- Permutation_middle.
    rewrite <- app_assoc. by constructor.
Qed.

(** C8.  The four lists of [ListingResultInline] split the results: their
    lengths add up to the length of the input, each result is in the list of
    its own status and in no other, and each list keeps the order of the
    input. *)
Theorem group_partitions (results : list ListingResultItem) :
  let b := group results in
  (length (bucket_exists b) + length (bucket_forbidden b)
   + length (bucket_error b) + length (bucket_success b) = length results)%nat
  ∧ Permutation
      (bucket_exists b ++ bucket_forbidden b ++ bucket_error b ++ bucket_success b)
      results
  ∧ (∀ r s, In r (bucket b s) ↔ In r results ∧ status r = s)
  ∧ (∀ r, In r results → ∃ s, In r (bucket b s) ∧ ∀ s', In r (bucket b s') → s' = s)
  ∧ (∀ s, sublist (bucket b s) results).
Proof.
  intros b.
  assert (Hin : ∀ r s, In r (bucket b s) ↔ In r results ∧ status r = s).
  { intros r s. unfold b. rewrite bucket_filter, filter_In, hasStatus_iff. tauto. }
  split; [|split; [|split; [|split]]].
  - pose proof (Permutation_length (group_permutation results)) as H.
    rewrite !length_app in H. unfold b. lia.
  - apply group_permutation.
  - apply Hin.
  - intros r Hr. exists (status r). split.
    + by apply Hin.
    + intros s' H. apply Hin in H. by destruct H.
  - intros s. unfold b. rewrite bucket_filter. apply filter_sublist.
Qed.

(** The component shows these lists exactly when there is a result. *)
Lemma ListingResultInline_group (results : list ListingResultItem) :
  ListingResultInline (Some results)
  = if Nat.eqb (length results) 0 then None else Some (group results).
Proof. by destruct results. Qed.

End GroupFacts.

(** ** Numbers *)

Module JsNumberFacts.

(** [NaN] is the one value that differs from itself. *)
Lemma SFcompare_refl (sf : spec_float) :
  sf ≠ S754_nan → SFcompare sf sf = Some Eq.
Proof.
  destruct sf as [s|s| |s m e]; intros H; try done; simpl.
  - by destruct s.
  - rewrite Z.compare_refl, Pos.compare_cont_refl. by destruct s.
Qed.

Lemma is_nan_spec (x : number) :
  PrimFloat.is_nan x = true ↔ Prim2SF x = S754_nan.
Proof.
  unfold PrimFloat.is_nan. rewrite FloatAxioms.eqb_spec. unfold SFeqb. split.
  - intros H. destruct (Prim2SF x) as [s|s| |s m e] eqn:E; [| |done|];
      rewrite SFcompare_refl in H by done; discriminate.
  - intros ->. reflexivity.
Qed.

Lemma is_nan_false (x : number) :
  PrimFloat.is_nan x = false ↔ Prim2SF x ≠ S754_nan.
Proof.
  rewrite <- is_nan_spec. destruct (PrimFloat.is_nan x); split; congruence.
Qed.

(** A positive number is truthy and not [<= 0]. *)
Lemma positive_passes (p : number) :
  (0 <? p)%float = true →
  PrimFloat.is_nan p = false ∧ truthy p = true ∧ (p <=? 0)%float = false.
Proof.
  intros H. rewrite FloatAxioms.ltb_spec in H.
  unfold truthy, PrimFloat.is_zero.
  assert (Hn : PrimFloat.is_nan p = false).
  { apply is_nan_false. intros E. rewrite E in H. discriminate. }
  rewrite Hn, FloatAxioms.eqb_spec, FloatAxioms.leb_spec.
  change (Prim2SF 0) with (S754_zero false) in *.
  change (Prim2SF zero) with (S754_zero false) in *.
  unfold SFltb, SFeqb, SFleb in *.
  destruct (Prim2SF p) as [s|s| |s m e]; simpl in *; try discriminate;
    destruct s; try discriminate; done.
Qed.


(** [Math.max(1, b)] is at least 1 unless [b] is [NaN]. *)
Lemma Math_max_1_ge (b : number) :
  PrimFloat.is_nan b = false → (1 <=? Math_max 1 b)%float = true.
Proof.
  intros Hb. unfold Math_max. rewrite Hb.
  change (PrimFloat.is_nan 1) with false. simpl.
  destruct (1 <? b)%float eqn:Hlt.
  - rewrite FloatAxioms.ltb_spec in Hlt. rewrite FloatAxioms.leb_spec.
    unfold SFltb, SFleb in *.
    by destruct (SFcompare (Prim2SF 1) (Prim2SF b)) as [[]|].
  - by destruct (b <? 1)%float.
Qed.

Lemma Math_max_1_nan (b : number) :
  PrimFloat.is_nan b = true → Math_max 1 b = nan.
Proof. intros Hb. unfold Math_max. rewrite Hb. by rewrite orb_true_r. Qed.

(** *** Rounding a non-negative mantissa never yields [NaN] *)

Lemma shr_1_nonneg (mrs : shr_record) :
  (0 <= shr_m mrs)%Z → (0 <= shr_m (shr_1 mrs))%Z.
Proof.
  destruct mrs as [m r s]. simpl.
  destruct m as [|[p|p|]|p]; simpl; lia.
Qed.

Lemma iter_pos_shr_1_nonneg (p : positive) (mrs : shr_record) :
  (0 <= shr_m mrs)%Z → (0 <= shr_m (SpecFloat.iter_pos shr_1 p mrs))%Z.
Proof.
  revert mrs. induction p as [p IH|p IH|]; intros mrs H; simpl.
  - apply IH, IH. by apply shr_1_nonneg.
  - by apply IH, IH.
  - by apply shr_1_nonneg.
Qed.

Lemma shr_fexp_nonneg (m e : Z) (l : location) :
  (0 <= m)%Z → (0 <= shr_m (fst (shr_fexp prec emax m e l)))%Z.
Proof.
  intros H. unfold shr_fexp, shr.
  assert (H0 : (0 <= shr_m (shr_record_of_loc m l))%Z).
  { destruct l as [|[]]; simpl; lia. }
  destruct (_ - e)%Z; simpl; auto.
  by apply iter_pos_shr_1_nonneg.
Qed.

Lemma round_nearest_even_nonneg (m : Z) (l : location) :
  (0 <= m)%Z → (0 <= round_nearest_even m l)%Z.
Proof.
  intros H. destruct l as [|[]]; simpl; try lia.
  destruct (Z.even m); lia.
Qed.

Lemma binary_round_aux_not_nan (sx : bool) (mx ex : Z) (lx : location) :
  (0 <= mx)%Z → binary_round_aux prec emax sx mx ex lx ≠ S754_nan.
Proof.
  intros H. unfold binary_round_aux.
  pose proof (shr_fexp_nonneg mx ex lx H) as H1.
  destruct (shr_fexp prec emax mx ex lx) as [mrs' e'].
  simpl in H1.
  pose proof (shr_fexp_nonneg _ e' loc_Exact
                (round_nearest_even_nonneg _ (loc_of_shr_record mrs') H1)) as H2.
  destruct (shr_fexp prec emax _ e' loc_Exact) as [mrs'' e''].
  simpl in H2.
  destruct (shr_m mrs''); [done| |lia].
  by destruct (_ <=? _)%Z.
Qed.

Lemma binary_normalize_not_nan (m e : Z) (szero : bool) :
  binary_normalize prec emax m e szero ≠ S754_nan.
Proof.
  unfold binary_normalize, binary_round.
  destruct m as [|p|p]; [done| |];
    destruct (shl_align _ _ _); by apply binary_round_aux_not_nan.
Qed.

Lemma ofZ_not_nan (n : Z) : PrimFloat.is_nan (ofZ n) = false.
Proof.
  apply is_nan_false. destruct n as [|p|p]; simpl.
  - done.
  - rewrite of_uint63_spec. apply binary_normalize_not_nan.
  - rewrite opp_spec, of_uint63_spec.
    pose proof (binary_normalize_not_nan
                  (Uint63.to_Z (Uint63.of_Z (Z.pos p))) 0 false) as H.
    by destruct (binary_normalize _ _ _ _ _).
Qed.

(** [Math.round] yields [NaN] only for [NaN]. *)
Lemma Math_round_nan (x : number) :
  PrimFloat.is_nan (Math_round x) = PrimFloat.is_nan x.
Proof.
  unfold Math_round. destruct (Prim2SF x) as [s|s| |s m e] eqn:E; try done.
  destruct (0 <=? e)%Z; [done|].
  assert (Hx : PrimFloat.is_nan x = false).
  { apply is_nan_false. by rewrite E. }
  rewrite Hx. destruct (_ =? 0)%Z.
  - by destruct s.
  - apply ofZ_not_nan.
Qed.

(** *** Finite operands *)

Definition finiteSF (sf : spec_float) : Prop :=
  match sf with
  | S754_zero _ | S754_finite _ _ _ => True
  | _ => False
  end.

Lemma is_finite_spec (x : number) :
  PrimFloat.is_finite x = true → finiteSF (Prim2SF x).
Proof.
  unfold PrimFloat.is_finite, PrimFloat.is_infinity.
  rewrite negb_true_iff, orb_false_iff. intros [Hn Hi].
  apply is_nan_false in Hn.
  rewrite FloatAxioms.eqb_spec, abs_spec in Hi.
  change (Prim2SF infinity) with (S754_infinity false) in Hi.
  by destruct (Prim2SF x).
Qed.

Lemma mul_finite_not_nan (x y : number) :
  finiteSF (Prim2SF x) → finiteSF (Prim2SF y) →
  Prim2SF (x * y)%float ≠ S754_nan.
Proof.
  rewrite mul_spec. unfold SF64mul, SFmul.
  destruct (Prim2SF x), (Prim2SF y); simpl; try done.
  intros _ _. by apply binary_round_aux_not_nan.
Qed.

Lemma add_finite_not_nan (x y : number) :
  Prim2SF x ≠ S754_nan → finiteSF (Prim2SF y) →
  Prim2SF (x + y)%float ≠ S754_nan.
Proof.
  rewrite add_spec. unfold SF64add, SFadd.
  destruct (Prim2SF x) as [s|s| |s m e], (Prim2SF y) as [s'|s'| |s' m' e'];
    simpl; try done.
  - intros _ _. by destruct s, s'.
  - intros _ _. apply binary_normalize_not_nan.
Qed.

End JsNumberFacts.

(** ** Price rules *)

Module PriceFacts.

Import Api App ListFacts JsNumberFacts.

(** The band of a rule: its lower bound is at most the price and its upper
    bound, if it has one, at least the price. *)
Definition inBand (price : number) (rr : PriceRule) : Prop :=
  (min rr <=? price)%float = true
  ∧ ∀ m, max rr = Some m → (price <=? m)%float = true.

Lemma ruleMatches_iff (price : number) (rr : PriceRule) :
  ruleMatches price rr = true ↔ inBand price rr.
Proof.
  unfold ruleMatches, inBand. destruct (max rr) as [m|].
  - rewrite andb_true_iff. split.
    + intros [H1 H2]. split; [done|]. by intros m' [= <-].
    + intros [H1 H2]. split; [done|]. by apply H2.
  - split; [intros H; split; [done|discriminate] | by intros [H _]].
Qed.

(** A rule whose factor and addend are finite numbers. *)
Definition finiteRule (r : PriceRule) : Prop :=
  PrimFloat.is_finite (multiply r) = true ∧ PrimFloat.is_finite (plus r) = true.

Lemma ruleResult_finite (p : number) (rules : list PriceRule) :
  PrimFloat.is_finite p = true → Forall finiteRule rules →
  PrimFloat.is_nan (ruleResult p rules) = false.
Proof.
  intros Hp Hrules. apply is_nan_false. unfold ruleResult.
  destruct (List.find _ rules) as [r|] eqn:E.
  - apply find_some in E as [Hin _].
    assert (Hr : finiteRule r).
    { revert r Hin. by apply List.Forall_forall. }
    destruct Hr as [Hm Hc].
    apply add_finite_not_nan; [|by apply is_finite_spec].
    apply mul_finite_not_nan; by apply is_finite_spec.
  - apply is_finite_spec in Hp. intros E'. by rewrite E' in Hp.
Qed.

Definition rule_1_3000 : PriceRule :=
  {| min := 1; max := Some 3000%float; multiply := 1.2; plus := 400 |}.

(** C2.  [applyRule] is 0 for an absent, [NaN], zero or negative price.  For
    a positive price it takes the first rule of the list whose band holds the
    price and returns [Math.max(1, Math.round(price * multiply + plus))]; if
    no rule's band holds the price it returns
    [Math.max(1, Math.round(price))].  With the single rule
    [{min: 1, max: 3000, multiply: 1.2, plus: 400}], 3000 gives 4000 and 3001,
    outside the band, comes back as 3001. *)
Theorem applyRule_spec :
  (∀ rules, applyRule None rules = 0%float)
  ∧ (∀ p rules,
       (p <=? 0)%float = true ∨ truthy p = false →
       applyRule (Some p) rules = 0%float)
  ∧ (∀ p r, ruleMatches p r = true ↔ inBand p r)
  ∧ (∀ p pre r post,
       (0 <? p)%float = true →
       Forall (fun r' => ruleMatches p r' = false) pre →
       ruleMatches p r = true →
       applyRule (Some p) (pre ++ r :: post)
       = Math_max 1 (Math_round (p * multiply r + plus r)))
  ∧ (∀ p rules,
       (0 <? p)%float = true →
       Forall (fun r' => ruleMatches p r' = false) rules →
       applyRule (Some p) rules = Math_max 1 (Math_round p))
  ∧ applyRule (Some 3000%float) [rule_1_3000] = 4000%float
  ∧ ruleMatches 3001 rule_1_3000 = false
  ∧ applyRule (Some 3001%float) [rule_1_3000] = 3001%float.
Proof.
  split; [done|]. split; [|split; [|split; [|split]]].
  - intros p rules [H|H]; unfold applyRule.
    + rewrite H. by rewrite orb_true_r.
    + by rewrite H.
  - apply ruleMatches_iff.
  - intros p pre r post Hp Hpre Hr.
    destruct (positive_passes p Hp) as (_ & Ht & Hle).
    unfold applyRule, ruleResult. rewrite Ht, Hle. simpl.
    by rewrite (find_first _ _ _ _ Hpre Hr).
  - intros p rules Hp Hnone.
    destruct (positive_passes p Hp) as (_ & Ht & Hle).
    unfold applyRule, ruleResult. rewrite Ht, Hle. simpl.
    by rewrite (find_none _ _ Hnone).
  - repeat split; vm_compute; reflexivity.
Qed.

Lemma applyRule_spec_witness :
  applyRule (Some (-5)%float) (rules DEFAULT_SETTINGS) = 0%float
  ∧ applyRule (Some 4500%float) (rules DEFAULT_SETTINGS) = 5900%float
  ∧ applyRule (Some 0.4%float) (rules DEFAULT_SETTINGS) = 1%float.
Proof.
  destruct applyRule_spec as (_ & H0 & _ & Hfirst & Hnone & _).
  split; [|split].
  - apply H0. left. reflexivity.
  - apply (Hfirst 4500%float
             [{| min := 1; max := Some 3000%float; multiply := 1.2; plus := 400 |}]
             {| min := 3001; max := Some 6000%float; multiply := 1.2; plus := 500 |}
             [{| min := 6001; max := None; multiply := 1.2; plus := 600 |}]).
    + reflexivity.
    + repeat constructor.
    + reflexivity.
  - apply (Hnone 0.4%float (rules DEFAULT_SETTINGS)).
    + reflexivity.
    + repeat constructor.
Defined.

End PriceFacts.

(** ** The listing run *)

Module ListingFacts.

Import Api App ListFacts JsStringFacts JsNumberFacts PriceFacts.

(** Case analysis on the test of the outermost conditional of the goal. *)
Ltac case_test :=
  match goal with
  | |- context [if ?b then _ else _] => destruct b
  end.

(** What the loop leaves in its two arrays. *)
Lemma listingLoop_spec lower settings infoMap existsSet targets results payloads :
  listingLoop lower settings infoMap existsSet targets results payloads
  = (results ++ omap (fun p => match checkTarget lower settings infoMap existsSet p with
                               | inl r => Some r | inr _ => None end) targets,
     payloads ++ omap (fun p => match checkTarget lower settings infoMap existsSet p with
                                | inl _ => None | inr q => Some q end) targets).
Proof.
  revert results payloads.
  induction targets as [|p targets IH]; intros results payloads; simpl.
  - by rewrite !app_nil_r.
  - destruct (checkTarget lower settings infoMap existsSet p) as [r|q];
      rewrite IH; simpl; by rewrite <- app_assoc.
Qed.

Lemma listingLoop_rejects lower settings infoMap existsSet targets p r :
  In p targets →
  checkTarget lower settings infoMap existsSet p = inl r →
  In r (fst (listingLoop lower settings infoMap existsSet targets [] [])).
Proof.
  intros Hp Hr. rewrite listingLoop_spec. simpl.
  apply list_elem_of_In, list_elem_of_omap. exists p.
  split; [by apply list_elem_of_In | by rewrite Hr].
Qed.

(** The candidate has source data with a usable price and satisfies the
    Prime condition, if that is switched on. *)
Definition passesPrime (settings : SettingsState)
    (infoMap : gmap jsstring AmazonItemInfo) (p : Product) (info : AmazonItemInfo)
  : Prop :=
  infoMap !! asin p = Some info
  ∧ priceMissing (price info) = false
  ∧ (primeOnly settings && failsPrime settings info) = false.

(** C3.  A candidate that passes the availability and Prime checks and whose
    seller count is known and at most 1 is rejected as forbidden, whatever
    the settings are; the result is among the results of the run.  A
    candidate without a seller count is never rejected for that reason. *)
Theorem single_seller_forbidden lower settings infoMap existsSet p info :
  passesPrime settings infoMap p info →
  (∀ n, sellerCount info = Some n → (n <=? 1)%float = true →
     checkTarget lower settings infoMap existsSet p
     = inl (rejected p forbidden (SingleSeller (Some n)) None)
     ∧ status (rejected p forbidden (SingleSeller (Some n)) None) = forbidden
     ∧ ∀ targets, In p targets →
         In (rejected p forbidden (SingleSeller (Some n)) None)
            (fst (listingLoop lower settings infoMap existsSet targets [] [])))
  ∧ (sellerCount info = None →
     ∀ r c, checkTarget lower settings infoMap existsSet p = inl r →
            item_message r ≠ SingleSeller c).
Proof.
  intros (Hinfo & Hprice & Hprime). split.
  - intros n Hn Hle.
    assert (Hc : checkTarget lower settings infoMap existsSet p
                 = inl (rejected p forbidden (SingleSeller (Some n)) None)).
    { unfold checkTarget. rewrite Hinfo, Hprice, Hprime.
      unfold singleSeller. by rewrite Hn, Hle. }
    split; [done|]. split; [done|].
    intros targets Hp. by apply listingLoop_rejects with p.
  - intros Hnone r c. unfold checkTarget.
    rewrite Hinfo, Hprice, Hprime. unfold singleSeller. rewrite Hnone.
    repeat (case_test; simpl); intros [= <-]; simpl; discriminate.
Qed.

Definition oneSeller : AmazonItemInfo :=
  {| info_asin := js "B00TEST001"; price := Some 2500%float;
     sellerCount := Some 1%float; title := Some (js "日焼け止め 50ml");
     image := None; isPrime := Some true; shipDays := Some 1%float |}.

Definition candidate : Product :=
  {| id := 1; asin := js "B00TEST001"; name := js "日焼け止め 50ml";
     jan := None; qoo10Id := None; amazonPrice := 2500; inStock := Some true |}.

Lemma single_seller_forbidden_witness :
  checkTarget toLowerCase DEFAULT_SETTINGS (buildInfoMap [oneSeller]) ∅ candidate
  = inl (rejected candidate forbidden (SingleSeller (Some 1%float)) None).
Proof.
  refine (proj1 (proj1 (single_seller_forbidden toLowerCase DEFAULT_SETTINGS
            (buildInfoMap [oneSeller]) ∅ candidate oneSeller _) 1%float _ _)).
  - repeat split; vm_compute; reflexivity.
  - reflexivity.
  - reflexivity.
Defined.


(** The candidate reaches the word deny-list: it passed the availability,
    Prime, seller-count and ASIN deny-list checks. *)
Definition reachesWordCheck (settings : SettingsState)
    (infoMap : gmap jsstring AmazonItemInfo) (p : Product) (info : AmazonItemInfo)
  : Prop :=
  passesPrime settings infoMap p info
  ∧ singleSeller info = false
  ∧ arrayIncludes (noListASINs settings) (asin p) = false.

Lemma nonEmpty_iff (w : jsstring) : nonEmpty w = true ↔ w ≠ [].
Proof. by destruct w. Qed.

(** C7, as the code has it.  For a candidate that reaches the word deny-list,
    the matched words are the configured words that are not empty and occur
    in the name, all of them, in configured order; if there is one, the
    candidate is rejected as forbidden with exactly this list as [hitWords],
    and the result is among the results of the run.  Two configured non-empty
    words that both occur give a list of length 2. *)
Theorem denied_words_all_reported lower settings infoMap existsSet p info :
  reachesWordCheck settings infoMap p info →
  let hits :=
    List.filter (fun w => nonEmpty w && includes (name p) w) (noListWords settings) in
  (∀ w, In w hits ↔ In w (noListWords settings) ∧ w ≠ [] ∧ contains (name p) w)
  ∧ sublist hits (noListWords settings)
  ∧ ((∃ w, In w (noListWords settings) ∧ w ≠ [] ∧ contains (name p) w) →
     checkTarget lower settings infoMap existsSet p
     = inl (rejected p forbidden (WordsHit hits) (Some hits))
     ∧ ∀ targets, In p targets →
         In (rejected p forbidden (WordsHit hits) (Some hits))
            (fst (listingLoop lower settings infoMap existsSet targets [] [])))
  ∧ (∀ w1 w2, noListWords settings = [w1; w2] →
       w1 ≠ [] → w2 ≠ [] → contains (name p) w1 → contains (name p) w2 →
       hits = [w1; w2] ∧ length hits = 2%nat).
Proof.
  intros ((Hinfo & Hprice & Hprime) & Hseller & Hasin) hits.
  assert (Hin : ∀ w, In w hits ↔
                     In w (noListWords settings) ∧ w ≠ [] ∧ contains (name p) w).
  { intros w. unfold hits.
    rewrite filter_In, andb_true_iff, nonEmpty_iff, includes_iff. tauto. }
  split; [done|]. split; [apply filter_sublist|]. split.
  - intros (w & Hw). apply Hin in Hw.
    assert (Hc : checkTarget lower settings infoMap existsSet p
                 = inl (rejected p forbidden (WordsHit hits) (Some hits))).
    { unfold checkTarget. rewrite Hinfo, Hprice, Hprime, Hseller, Hasin.
      fold hits. destruct hits; [done|]. reflexivity. }
    split; [done|]. intros targets Hp. by apply listingLoop_rejects with p.
  - intros w1 w2 Hws H1 H2 Hc1 Hc2. unfold hits. rewrite Hws. simpl.
    apply nonEmpty_iff in H1, H2. apply includes_iff in Hc1, Hc2.
    by rewrite H1, H2, Hc1, Hc2.
Qed.

Definition fiveSellers : AmazonItemInfo :=
  {| info_asin := js "B00TEST001"; price := Some 2500%float;
     sellerCount := Some 5%float; title := Some (js "日焼け止め 50ml");
     image := None; isPrime := Some true; shipDays := Some 1%float |}.

(** The default settings with other forbidden words and price rules. *)
Definition settingsWith (words : list jsstring) (rs : list PriceRule) : SettingsState :=
  {| primeOnly := primeOnly DEFAULT_SETTINGS;
     primeShipDaysMax := primeShipDaysMax DEFAULT_SETTINGS;
     maxStockPerItem := maxStockPerItem DEFAULT_SETTINGS;
     settings_shippingCode := settings_shippingCode DEFAULT_SETTINGS;
     rules := rs;
     noListASINs := [];
     noListWords := words;
     nameEraseWords := nameEraseWords DEFAULT_SETTINGS;
     keepASINsOnDelete := [];
     categoryMap := categoryMap DEFAULT_SETTINGS;
     autoCategoryEnabled := true |}.

Lemma denied_words_all_reported_witness :
  checkTarget toLowerCase
    (settingsWith [js "日焼け"; js "50ml"] (rules DEFAULT_SETTINGS))
    (buildInfoMap [fiveSellers]) ∅ candidate
  = inl (rejected candidate forbidden (WordsHit [js "日焼け"; js "50ml"])
           (Some [js "日焼け"; js "50ml"])).
Proof.
  refine (proj1 (proj1 (proj2 (proj2 (denied_words_all_reported toLowerCase
            (settingsWith [js "日焼け"; js "50ml"] (rules DEFAULT_SETTINGS))
            (buildInfoMap [fiveSellers]) ∅ candidate fiveSellers _))) _)).
  - repeat split; vm_compute; reflexivity.
  - exists (js "50ml"). split; [vm_compute; tauto|]. split; [discriminate|].
    exists (js "日焼け止め "), []. reflexivity.
Defined.

(** C7 as specified fails for an empty configured word: it is a
    substring of every name, but the filter drops it, and the candidate is
    not rejected. *)
Lemma empty_word_not_reported :
  ¬ (∀ lower settings infoMap existsSet p info,
       reachesWordCheck settings infoMap p info →
       (∃ w, In w (noListWords settings) ∧ contains (name p) w) →
       ∃ r, checkTarget lower settings infoMap existsSet p = inl r
            ∧ status r = forbidden
            ∧ ∀ w, In w (noListWords settings) → contains (name p) w →
                   ∃ ws, hitWords r = Some ws ∧ In w ws).
Proof.
  intros H.
  destruct (H toLowerCase (settingsWith [[]] (rules DEFAULT_SETTINGS))
              (buildInfoMap [fiveSellers]) ∅ candidate fiveSellers)
    as (r & Hr & _).
  - repeat split; vm_compute; reflexivity.
  - exists []. split; [by left|]. by exists [], (name candidate).
  - vm_compute in Hr. discriminate.
Qed.

(** *** The price check after the rules *)

Lemma one_le_positive (y : number) :
  (1 <=? y)%float = true → (0 <? y)%float = true.
Proof.
  rewrite FloatAxioms.leb_spec, FloatAxioms.ltb_spec. unfold SFleb, SFltb.
  change (Prim2SF 1) with (S754_finite false 4503599627370496 (-52)).
  change (Prim2SF 0) with (S754_zero false).
  destruct (Prim2SF y) as [s|s| |s m e]; simpl; try discriminate;
    destruct s; try discriminate; done.
Qed.

Lemma priceInvalid_distinct :
  priceInvalid ≠ priceUnavailable ∧ priceInvalid ≠ asinDenied
  ∧ priceInvalid ≠ alreadyListed.
Proof. repeat split; vm_compute; discriminate. Qed.

(** C10, as the code has it.  For a positive price [applyRule] is [NaN]
    exactly when [price * multiply + plus] (or the price, without a rule) is
    [NaN], and at least 1 otherwise.  So a candidate with a positive source
    price whose rule computation is not [NaN] is never rejected for an
    invalid price after the rules.  The computation is not [NaN] when the
    price and every rule's factor and addend are finite. *)
Theorem applyRule_at_least_one :
  (∀ p rules,
     (0 <? p)%float = true →
     PrimFloat.is_nan (applyRule (Some p) rules)
     = PrimFloat.is_nan (ruleResult p rules))
  ∧ (∀ p rules,
       (0 <? p)%float = true →
       PrimFloat.is_nan (ruleResult p rules) = false →
       (1 <=? applyRule (Some p) rules)%float = true)
  ∧ (∀ lower settings infoMap existsSet p info x,
       infoMap !! asin p = Some info →
       price info = Some x →
       (0 <? x)%float = true →
       PrimFloat.is_nan (ruleResult x (rules settings)) = false →
       ∀ r, checkTarget lower settings infoMap existsSet p = inl r →
            item_message r ≠ Text priceInvalid)
  ∧ (∀ p rules,
       (0 <? p)%float = true →
       PrimFloat.is_finite p = true → Forall finiteRule rules →
       (1 <=? applyRule (Some p) rules)%float = true).
Proof.
  assert (Hge : ∀ p rules,
            (0 <? p)%float = true →
            PrimFloat.is_nan (ruleResult p rules) = false →
            (1 <=? applyRule (Some p) rules)%float = true).
  { intros p rules Hp Hn.
    destruct (positive_passes p Hp) as (_ & Ht & Hle).
    unfold applyRule. rewrite Ht, Hle. simpl.
    apply Math_max_1_ge. by rewrite Math_round_nan. }
  split; [|split; [exact Hge|split]].
  - intros p rules Hp.
    destruct (positive_passes p Hp) as (_ & Ht & Hle).
    unfold applyRule. rewrite Ht, Hle. simpl.
    destruct (PrimFloat.is_nan (ruleResult p rules)) eqn:Hn.
    + rewrite Math_max_1_nan; [done | by rewrite Math_round_nan].
    + pose proof (Math_max_1_ge (Math_round (ruleResult p rules))) as H.
      rewrite Math_round_nan in H. specialize (H Hn).
      apply one_le_positive, positive_passes in H. tauto.
  - intros lower settings infoMap existsSet p info x Hinfo Hprice Hx Hn r.
    pose proof (Hge x (rules settings) Hx Hn) as H1.
    apply one_le_positive, positive_passes in H1. destruct H1 as (_ & Ht' & Hle').
    destruct (positive_passes x Hx) as (_ & Ht & _).
    destruct priceInvalid_distinct as (D1 & D2 & D3).
    unfold checkTarget. rewrite Hinfo, Hprice.
    change (priceMissing (Some x)) with (negb (truthy x)).
    cbv zeta. rewrite Ht, Ht', Hle'. simpl negb. simpl orb.
    repeat case_test;
      try discriminate; intros [= <-]; simpl; try discriminate; congruence.
  - intros p rules Hp Hfin Hrules. apply Hge; [done|].
    by apply ruleResult_finite.
Qed.

Lemma applyRule_at_least_one_witness :
  (1 <=? applyRule (Some 2500%float) (rules DEFAULT_SETTINGS))%float = true.
Proof.
  refine (proj2 (proj2 (proj2 applyRule_at_least_one))
            2500%float (rules DEFAULT_SETTINGS) _ _ _).
  - reflexivity.
  - reflexivity.
  - repeat constructor.
Defined.

Definition rule_inf : PriceRule :=
  {| min := 1; max := None; multiply := infinity; plus := neg_infinity |}.

(** C10 as specified fails: with a rule whose factor is [Infinity]
    and whose addend is [-Infinity] the result is [NaN], which is not at least
    1, and the candidate is rejected for an invalid price after the rules. *)
Lemma applyRule_nan_counterexample :
  ¬ (∀ p rules, (0 <? p)%float = true →
                (1 <=? applyRule (Some p) rules)%float = true)
  ∧ (0 <? 2500)%float = true
  ∧ applyRule (Some 2500%float) [rule_inf] = nan
  ∧ checkTarget toLowerCase (settingsWith [] [rule_inf])
      (buildInfoMap [fiveSellers]) ∅ candidate
    = inl (rejected candidate error (Text priceInvalid) None).
Proof.
  split; [|repeat split; vm_compute; reflexivity].
  intros H. specialize (H 2500%float [rule_inf] eq_refl).
  vm_compute in H. discriminate.
Qed.

(** A negative source price is truthy: it passes the availability check and
    is stopped only by the price check after the rules. *)
Lemma negative_price_rejected_late :
  let info := {| info_asin := js "B00TEST001"; price := Some (-1)%float;
                 sellerCount := Some 5%float; title := None; image := None;
                 isPrime := Some true; shipDays := None |} in
  priceMissing (price info) = false
  ∧ checkTarget toLowerCase DEFAULT_SETTINGS (buildInfoMap [info]) ∅ candidate
    = inl (rejected candidate error (Text priceInvalid) None).
Proof. split; vm_compute; reflexivity. Qed.

End ListingFacts.

(** ** Category assignment *)

Module CategoryFacts.

Import Qoo10Category Api App JsStringFacts ListingFacts.

Section Manual.

Variable lower : jsstring → jsstring.

(** An entry of the manual map is skipped when its key is empty or does not
    occur in the lower-cased title. *)
Definition skipped (titleLower : jsstring) (entry : jsstring * number) : Prop :=
  fst entry = [] ∨ ¬ contains titleLower (lower (fst entry)).

Lemma manualCategory_first (titleLower : jsstring) pre key cat post :
  Forall (skipped titleLower) pre →
  key ≠ [] → contains titleLower (lower key) →
  manualCategory lower (pre ++ (key, cat) :: post) titleLower = Some cat.
Proof.
  intros Hpre Hkey Hc. induction Hpre as [|[k c] pre Hk _ IH]; simpl.
  - destruct key; [done|]. simpl.
    apply includes_iff in Hc. by rewrite Hc.
  - destruct Hk as [Hk|Hk]; simpl in Hk.
    + by rewrite Hk.
    + destruct (nonEmpty k); simpl; [|done].
      destruct (includes titleLower (lower k)) eqn:E; [|done].
      by apply includes_iff in E.
Qed.

(** C4, as the code has it.  The first entry of the manual map, in stored
    order, whose key is not empty and whose lower-cased key occurs in the
    lower-cased title decides: [chooseCategory] returns its code, whether
    automatic classification is enabled or not and whatever it would say. *)
Theorem manual_map_first (info : option AmazonItemInfo) (p : Product)
    (settings : SettingsState) pre key cat post :
  categoryMap settings = pre ++ (key, cat) :: post →
  Forall (skipped (lower (rawTitleOf info p))) pre →
  key ≠ [] →
  contains (lower (rawTitleOf info p)) (lower key) →
  chooseCategory lower info p settings = Some cat.
Proof.
  intros Hmap Hpre Hkey Hc. unfold chooseCategory. rewrite Hmap.
  by rewrite (manualCategory_first _ pre key cat post Hpre Hkey Hc).
Qed.

End Manual.

(** A manual entry for a keyword that the automatic rules know as well. *)
Definition manualSupplement : SettingsState :=
  {| primeOnly := true; primeShipDaysMax := 3; maxStockPerItem := 2;
     settings_shippingCode := js "645035"; rules := rules DEFAULT_SETTINGS;
     noListASINs := []; noListWords := []; nameEraseWords := [];
     keepASINsOnDelete := [];
     categoryMap := [ (js "ヘナ", 120000%float); (js "サプリ", 999%float) ];
     autoCategoryEnabled := true |}.

Definition supplementProduct : Product :=
  {| id := 1; asin := js "B00TEST001"; name := js "美容サプリ 30日分";
     jan := None; qoo10Id := None; amazonPrice := 2500; inStock := Some true |}.

Lemma manual_map_first_witness :
  chooseCategory toLowerCase None supplementProduct manualSupplement = Some 999%float
  ∧ main (classifyQoo10Category (Some (name supplementProduct))) = Main130000.
Proof.
  split; [|reflexivity].
  apply (manual_map_first toLowerCase None supplementProduct manualSupplement
           [(js "ヘナ", 120000%float)] (js "サプリ") 999%float []).
  - reflexivity.
  - constructor; [|constructor]. right. rewrite <- includes_iff.
    vm_compute. discriminate.
  - discriminate.
  - exists (js "美容"), (js " 30日分"). reflexivity.
Defined.

(** The specification's reading: the first entry whose lower-cased key
    occurs in the lower-cased title, empty key or not. *)
Definition firstContained (lower : jsstring → jsstring) (entries : CategoryMap)
    (titleLower : jsstring) : option (jsstring * number) :=
  List.find (fun entry => includes titleLower (lower (fst entry))) entries.

Definition emptyKey : SettingsState :=
  {| primeOnly := true; primeShipDaysMax := 3; maxStockPerItem := 2;
     settings_shippingCode := js "645035"; rules := rules DEFAULT_SETTINGS;
     noListASINs := []; noListWords := []; nameEraseWords := [];
     keepASINsOnDelete := [];
     categoryMap := [ ([], 5%float) ];
     autoCategoryEnabled := true |}.

(** C4 as specified fails for an entry with the empty key: the empty
    string occurs in every title, but the loop skips the entry and the
    automatic classification decides. *)
Lemma empty_key_skipped :
  ¬ (∀ lower info p settings key cat,
       firstContained lower (categoryMap settings) (lower (rawTitleOf info p))
       = Some (key, cat) →
       chooseCategory lower info p settings = Some cat)
  ∧ firstContained toLowerCase (categoryMap emptyKey)
      (toLowerCase (rawTitleOf None candidate)) = Some ([], 5%float)
  ∧ chooseCategory toLowerCase None candidate emptyKey = Some 120000017%float.
Proof.
  split; [|split; vm_compute; reflexivity].
  intros H.
  specialize (H toLowerCase None candidate emptyKey [] 5%float eq_refl).
  vm_compute in H. discriminate.
Qed.

End CategoryFacts.

(** ** The ASIN CSV import *)

Module CsvFacts.

Import App JsStringFacts.

(** [/^[A-Z0-9]{10}$/]: what the import returns. *)
Definition isCanonicalUnit (c : N) : bool :=
  ((48 <=? c) && (c <=? 57)) || ((65 <=? c) && (c <=? 90)).

Definition plain (s : jsstring) : Prop := Forall (fun c => isCanonicalUnit c = true) s.

Definition isIdentifier (s : jsstring) : Prop := length s = 10%nat ∧ plain s.

(** *** Code units *)

Lemma canonical_bounds (c : N) :
  isCanonicalUnit c = true → 48 <= c <= 57 ∨ 65 <= c <= 90.
Proof.
  unfold isCanonicalUnit.
  rewrite orb_true_iff, !andb_true_iff, !N.leb_le. lia.
Qed.

Lemma not_whiteSpace (c : N) : isCanonicalUnit c = true → isWhiteSpace c = false.
Proof.
  intros H%canonical_bounds. unfold isWhiteSpace.
  rewrite (proj2 (N.leb_gt c 13)) by lia.
  rewrite (proj2 (N.leb_gt 0x2000 c)) by lia.
  rewrite !(proj2 (N.eqb_neq c _)) by lia.
  by rewrite andb_false_r.
Qed.

Lemma not_quote (c : N) : isCanonicalUnit c = true → isQuote c = false.
Proof.
  intros H%canonical_bounds. unfold isQuote.
  by rewrite !(proj2 (N.eqb_neq c _)) by lia.
Qed.

Lemma not_delimiter (c : N) : isCanonicalUnit c = true → isDelimiter c = false.
Proof.
  intros H%canonical_bounds. unfold isDelimiter.
  by rewrite !(proj2 (N.eqb_neq c _)) by lia.
Qed.

Lemma canonical_asinUnit (c : N) : isCanonicalUnit c = true → isAsinUnit c = true.
Proof.
  unfold isCanonicalUnit, isAsinUnit.
  rewrite !orb_true_iff, !andb_true_iff, !N.leb_le. lia.
Qed.

Lemma canonical_upper (c : N) : isCanonicalUnit c = true → upperUnit c = c.
Proof.
  intros H%canonical_bounds. unfold upperUnit.
  by rewrite (proj2 (N.leb_gt 97 c)) by lia.
Qed.

Lemma upper_canonical (c : N) : isAsinUnit c = true → isCanonicalUnit (upperUnit c) = true.
Proof.
  unfold isAsinUnit. rewrite !orb_true_iff, !andb_true_iff, !N.leb_le. intros H.
  assert (Hc : ∀ d, 48 <= d <= 57 ∨ 65 <= d <= 90 → isCanonicalUnit d = true).
  { intros d Hd. unfold isCanonicalUnit.
    rewrite orb_true_iff, !andb_true_iff, !N.leb_le. lia. }
  unfold upperUnit. destruct (N.leb_spec 97 c) as [H97|H97]; simpl.
  - destruct (N.leb_spec c 122); simpl; apply Hc; lia.
  - apply Hc. lia.
Qed.

(** *** Strings without separators *)

Lemma dropWhile_none (f : N → bool) (s : jsstring) :
  Forall (fun c => f c = false) s → dropWhile f s = s.
Proof. intros H. destruct H as [|c s Hc _]; simpl; [done | by rewrite Hc]. Qed.

Lemma dropWhileEnd_none (f : N → bool) (s : jsstring) :
  Forall (fun c => f c = false) s → dropWhileEnd f s = s.
Proof.
  intros H. unfold dropWhileEnd. rewrite dropWhile_none.
  - apply rev_involutive.
  - by apply List.Forall_rev.
Qed.

Lemma plain_all (P : N → Prop) (s : jsstring) :
  (∀ c, isCanonicalUnit c = true → P c) → plain s → Forall P s.
Proof. intros HP Hs. eapply List.Forall_impl; [|exact Hs]. done. Qed.

Lemma trim_plain (s : jsstring) : plain s → trim s = s.
Proof.
  intros H. pose proof (plain_all _ s not_whiteSpace H) as Hw.
  unfold trim. rewrite (dropWhile_none _ _ Hw). by apply dropWhileEnd_none.
Qed.

Lemma stripQuotes_plain (s : jsstring) : plain s → stripQuotes s = s.
Proof.
  intros H. pose proof (plain_all _ s not_quote H) as Hq.
  unfold stripQuotes. rewrite (dropWhile_none _ _ Hq). by apply dropWhileEnd_none.
Qed.

Lemma splitOn_plain (s : jsstring) : plain s → splitOn isDelimiter s = [s].
Proof.
  intros H. pose proof (plain_all _ s not_delimiter H) as Hd.
  induction Hd as [|c s Hc _ IH]; simpl; [done|].
  rewrite Hc, IH; [done|]. by inversion H.
Qed.

Lemma toUpperCase_plain (s : jsstring) : plain s → toUpperCase s = s.
Proof.
  intros H. unfold toUpperCase. induction H as [|c s Hc _ IH]; simpl; [done|].
  by rewrite (canonical_upper c Hc), IH.
Qed.

Lemma isAsinPattern_identifier (s : jsstring) : isIdentifier s → isAsinPattern s = true.
Proof.
  intros [Hlen H]. unfold isAsinPattern. rewrite Hlen. simpl.
  apply forallb_forall. intros c Hc. apply canonical_asinUnit.
  revert c Hc. by apply List.Forall_forall.
Qed.

(** *** Lines *)

Lemma splitLines_cons (c : N) (s : jsstring) :
  c ≠ 13 → c ≠ 10 → splitLines (c :: s) = consHead c (splitLines s).
Proof.
  intros H13%N.eqb_neq H10%N.eqb_neq. destruct s as [|d s]; simpl.
  - by rewrite H10.
  - by rewrite H13, H10.
Qed.

Lemma splitLines_lf (s : jsstring) : splitLines (10 :: s) = [] :: splitLines s.
Proof. by destruct s. Qed.

Lemma plain_noBreak (s : jsstring) : plain s → Forall (fun c => c ≠ 13 ∧ c ≠ 10) s.
Proof. apply plain_all. intros c H%canonical_bounds. lia. Qed.

Lemma splitLines_plain (s : jsstring) : plain s → splitLines s = [s].
Proof.
  intros H%plain_noBreak. induction H as [|c s [H13 H10] _ IH]; [done|].
  by rewrite splitLines_cons, IH.
Qed.

Lemma splitLines_line (s rest : jsstring) :
  plain s → splitLines (s ++ 10 :: rest) = s :: splitLines rest.
Proof.
  intros H%plain_noBreak. induction H as [|c s [H13 H10] _ IH].
  - apply splitLines_lf.
  - rewrite <- app_comm_cons. by rewrite splitLines_cons, IH.
Qed.

Lemma splitLines_join (x : jsstring) (l : list jsstring) :
  Forall plain (x :: l) → splitLines (join [10] (x :: l)) = x :: l.
Proof.
  revert x. induction l as [|y l IH]; intros x H.
  - simpl. apply splitLines_plain. by inversion H.
  - change (join [10] (x :: y :: l)) with (x ++ 10 :: join [10] (y :: l)).
    inversion H as [|? ? Hx Hl]; subst.
    by rewrite splitLines_line, IH.
Qed.

(** *** Uniqueness *)

Lemma uniqueFrom_In (seen l : list jsstring) (x : jsstring) :
  In x (uniqueFrom seen l) → In x l ∧ ¬ In x seen.
Proof.
  revert seen. induction l as [|y l IH]; intros seen; simpl; [done|].
  destruct (arrayIncludes seen y) eqn:E.
  - intros H%IH. tauto.
  - intros [<-|H%IH].
    + split; [by left|]. intros Hin%arrayIncludes_iff. congruence.
    + simpl in H. tauto.
Qed.

Lemma uniqueFrom_NoDup (seen l : list jsstring) : List.NoDup (uniqueFrom seen l).
Proof.
  revert seen. induction l as [|y l IH]; intros seen; simpl; [constructor|].
  destruct (arrayIncludes seen y); [apply IH|].
  constructor; [|apply IH].
  intros H%uniqueFrom_In. simpl in H. tauto.
Qed.

Lemma uniqueFrom_id (seen l : list jsstring) :
  List.NoDup l → (∀ x, In x l → ¬ In x seen) → uniqueFrom seen l = l.
Proof.
  intros H. revert seen. induction H as [|y l Hy _ IH]; intros seen Hs; simpl; [done|].
  destruct (arrayIncludes seen y) eqn:E.
  - apply arrayIncludes_iff in E. exfalso. apply (Hs y); [by left | done].
  - f_equal. apply IH. intros x Hx [<-|Hin]; [done|].
    apply (Hs x); [by right | done].
Qed.


(** *** Rows *)

Lemma rowAsins_identifier (asinIndex : option nat) (row x : jsstring) :
  In x (rowAsins asinIndex row) → isIdentifier x.
Proof.
  unfold rowAsins. destruct (nonEmpty row); simpl; [|done].
  destruct (nth_error _ _) as [cell|]; [|done].
  destruct (nonEmpty _); simpl; [|done].
  destruct (isAsinPattern _) eqn:E; [|done].
  intros [<-|[]]. unfold isAsinPattern in E.
  apply andb_true_iff in E as [Hlen Hall]. apply Nat.eqb_eq in Hlen.
  split.
  - unfold toUpperCase. by rewrite length_map.
  - unfold plain, toUpperCase. apply Forall_map.
    apply List.Forall_forall. intros c Hc. apply upper_canonical.
    revert c Hc. by apply forallb_forall.
Qed.

Lemma rowAsins_fixed (x : jsstring) : isIdentifier x → rowAsins None x = [x].
Proof.
  intros Hx. pose proof Hx as [Hlen Hp]. unfold rowAsins.
  rewrite (splitOn_plain x Hp). simpl.
  rewrite (trim_plain x Hp), (stripQuotes_plain x Hp), (trim_plain x Hp).
  rewrite (isAsinPattern_identifier x Hx), (toUpperCase_plain x Hp).
  by destruct x.
Qed.

Lemma flat_map_rowAsins_fixed (l : list jsstring) :
  Forall isIdentifier l → flat_map (rowAsins None) l = l.
Proof.
  intros H. induction H as [|x l Hx _ IH]; simpl; [done|].
  by rewrite (rowAsins_fixed x Hx), IH.
Qed.

Lemma map_trim_fixed (l : list jsstring) :
  Forall isIdentifier l → List.map trim l = l.
Proof.
  intros H. induction H as [|x l [_ Hx] _ IH]; simpl; [done|].
  by rewrite (trim_plain x Hx), IH.
Qed.

Lemma filter_nonEmpty_fixed (l : list jsstring) :
  Forall isIdentifier l → List.filter nonEmpty l = l.
Proof.
  intros H. induction H as [|x l [Hlen _] _ IH]; simpl; [done|].
  rewrite IH. by destruct x.
Qed.

Lemma not_header (x : jsstring) :
  isIdentifier x → JsString.eqb (toLowerCase x) (js "asin") = false.
Proof.
  intros [Hlen _]. destruct (JsString.eqb _ _) eqn:E; [|done].
  apply eqb_eq in E. apply (f_equal (@length N)) in E.
  unfold toLowerCase in E. rewrite length_map, Hlen in E. discriminate.
Qed.

(** *** The import *)

Lemma parseAsinCsv_identifiers (text : jsstring) :
  Forall isIdentifier (parseAsinCsv text).
Proof.
  unfold parseAsinCsv.
  destruct (List.filter nonEmpty _) as [|first others]; [constructor|].
  cbv zeta. apply List.Forall_forall. intros x Hx.
  apply uniqueFrom_In in Hx as [Hx _].
  apply in_flat_map in Hx as (row & _ & Hx).
  by apply rowAsins_identifier in Hx.
Qed.

Lemma parseAsinCsv_NoDup (text : jsstring) : List.NoDup (parseAsinCsv text).
Proof.
  unfold parseAsinCsv.
  destruct (List.filter nonEmpty _) as [|first others]; [constructor|].
  apply uniqueFrom_NoDup.
Qed.

Lemma parseAsinCsv_fixed (l : list jsstring) :
  Forall isIdentifier l → List.NoDup l → parseAsinCsv (join [10] l) = l.
Proof.
  intros Hl Hnd. destruct l as [|x l]; [reflexivity|].
  unfold parseAsinCsv.
  rewrite splitLines_join
    by (eapply List.Forall_impl; [|exact Hl]; by intros ? [_ ?]).
  rewrite (map_trim_fixed _ Hl), (filter_nonEmpty_fixed _ Hl).
  inversion Hl as [|? ? Hx Hl']; subst.
  pose proof Hx as [Hlen Hp].
  destruct x as [|c x]; [discriminate|].
  assert (Hc : (c =? 0xFEFF) = false).
  { apply N.eqb_neq. inversion Hp as [|? ? Hc _]; subst.
    apply canonical_bounds in Hc. lia. }
  rewrite Hc. cbv zeta.
  rewrite (splitOn_plain _ Hp).
  change (List.map ?f [c :: x]) with [f (c :: x)]. cbv beta.
  rewrite (stripQuotes_plain _ Hp), (trim_plain _ Hp).
  change (indexOf [?h] ?y) with (if JsString.eqb h y then Some O else None).
  rewrite (not_header _ Hx).
  change (skipn 0 ?l) with l.
  rewrite (flat_map_rowAsins_fixed _ Hl).
  apply uniqueFrom_id; [done|]. by intros ? _ [].
Qed.

(** C6, as the code has it.  An identifier has exactly ten characters, so the
    ten-character [B00TEST001] given twice is returned once.  For every
    input the result has no duplicates and holds only identifiers ([A-Z0-9],
    ten of them), and importing the result, joined with line feeds, gives the
    result back. *)
Theorem parseAsinCsv_dedup_idempotent :
  parseAsinCsv (js "B00TEST001" ++ 10 :: js "B00TEST001") = [js "B00TEST001"]
  ∧ (∀ text, List.NoDup (parseAsinCsv text))
  ∧ (∀ text, Forall isIdentifier (parseAsinCsv text))
  ∧ (∀ text, parseAsinCsv (join [10] (parseAsinCsv text)) = parseAsinCsv text).
Proof.
  split; [vm_compute; reflexivity|].
  split; [apply parseAsinCsv_NoDup|].
  split; [apply parseAsinCsv_identifiers|].
  intros text. apply parseAsinCsv_fixed.
  - apply parseAsinCsv_identifiers.
  - apply parseAsinCsv_NoDup.
Qed.

(** C6 as specified fails on its example: [B00TEST0001] has eleven
    characters, no line matches the pattern, and the result is empty. *)
Lemma eleven_characters_rejected :
  length (js "B00TEST0001") = 11%nat
  ∧ parseAsinCsv (js "B00TEST0001" ++ 10 :: js "B00TEST0001") = []
  ∧ parseAsinCsv (js "B00TEST0001" ++ 10 :: js "B00TEST0001") ≠ [js "B00TEST0001"].
Proof. repeat split; vm_compute; (reflexivity || discriminate). Qed.

(** A header row names the column; without one the first column is used.
    Lower-case input is accepted and returned in upper case. *)
Example header_detection :
  parseAsinCsv (js "asin" ++ 10 :: js "b00test001") = [js "B00TEST001"]
  ∧ parseAsinCsv (js "b00test001") = [js "B00TEST001"]
  ∧ parseAsinCsv (js "title,ASIN" ++ 13 :: 10 :: js "x;'b00test001'") = [js "B00TEST001"].
Proof. repeat split; vm_compute; reflexivity. Qed.

End CsvFacts.

(** ** The whole run *)

Module RunFacts.

Import Qoo10Category Api App ApiFacts ListingFacts.


(** The rejections decided in the loop reach the page, whatever the
    services do: the run returns them first, in the order of the targets,
    followed by the results of listing creation. *)
Lemma runListing_keeps_rejections lower settings (Err : Type) httpError errorMessage
    fetchBulk fetchExisting fetchCreate targets :
  targets ≠ [] →
  ∃ amazonInfos existingAsins rest,
    fetchAmazonBulk httpError fetchBulk (List.map asin targets) = Return amazonInfos
    ∧ checkQoo10Existing httpError fetchExisting (List.map asin targets)
      = Return existingAsins
    ∧ runListing lower settings Err httpError errorMessage
        fetchBulk fetchExisting fetchCreate targets
      = Return (fst (listingLoop lower settings (buildInfoMap amazonInfos)
                       (list_to_set existingAsins) targets [] []) ++ rest).
Proof.
  intros Hne.
  destruct (fetchAmazonBulk_returns Err httpError fetchBulk (List.map asin targets))
    as [amazonInfos Hbulk].
  destruct (checkQoo10Existing_returns Err httpError fetchExisting
              (List.map asin targets)) as [existingAsins Hexisting].
  exists amazonInfos, existingAsins.
  unfold runListing. rewrite Hbulk, Hexisting. simpl bind.
  destruct targets as [|p targets]; [done|]. simpl Nat.eqb. cbv iota.
  destruct (listingLoop _ _ _ _ _ _ _) as [results payloads]. simpl fst.
  destruct (Nat.eqb (length payloads) 0).
  - exists []. by rewrite app_nil_r.
  - destruct (createQoo10Listings_returns Err httpError fetchCreate payloads)
      as [created Hcreated].
    rewrite Hcreated. simpl. eauto.
Qed.

(** A server that answers every request with the given body. *)
Definition answers {Req T} (body : T) : Fetch jsstring Req T :=
  fun _ _ => Return {| res_ok := true; res_text := Return []; res_json := Return body |}.

Definition created : CreateListingResult :=
  {| result_asin := js "B00TEST001"; ok := true; message := None;
     result_code := None; qoo10ItemCode := Some (js "1000000001") |}.

(** The scenario of the specification: source price 2500, Prime, five
    sellers, no deny-list hit, not yet listed, a sunscreen title.  The payload
    carries the price 3400 and the UV care category, and the result is a
    success. *)
Example sunscreen_scenario :
  checkTarget toLowerCase DEFAULT_SETTINGS (buildInfoMap [fiveSellers]) ∅ candidate
  = inr {| payload_asin := js "B00TEST001"; payload_price := 3400;
           shippingCode := js "645035"; payload_title := js "日焼け止め 50ml";
           imageUrl := None; stock := Some 2%float;
           categoryNo := Some (beautyNumber Beauty120000017);
           payload_jan := None |}
  ∧ runListing toLowerCase DEFAULT_SETTINGS jsstring pathAsError (fun e => Some e)
      (answers [fiveSellers]) (answers []) (answers [created]) [candidate]
    = Return [ {| item_asin := js "B00TEST001"; item_name := js "日焼け止め 50ml";
                  status := success;
                  item_message := Text (js "出品登録が完了しました。");
                  hitWords := None;
                  item_qoo10ItemCode := Some (js "1000000001") |} ].
Proof. split; vm_compute; reflexivity. Qed.

(** With the server down every candidate ends as an error, none is lost. *)
Example server_down :
  runListing toLowerCase DEFAULT_SETTINGS jsstring pathAsError (fun e => Some e)
    unreachable unreachable unreachable [candidate]
  = Return [rejected candidate error (Text priceUnavailable) None].
Proof. vm_compute. reflexivity. Qed.

End RunFacts.

(** ** More on the classifier *)

Module ClassifierTable.

Import Qoo10Category JsStringFacts.

(** The main category as a function of four tests on the title.  The
    disposable-blade hints take no part in it. *)
Theorem main_category_table (title : jsstring) :
  let supplement := isSupplement title in
  let appliance := someIncluded BEAUTY_APPLIANCE_KEYWORDS title in
  let razor := someIncluded RAZOR_KEYWORDS title in
  let electric := someIncluded ELECTRIC_HINTS title in
  (getMainCategoryCode (Some title) = Main130000 ↔ supplement = true)
  ∧ (getMainCategoryCode (Some title) = Main120000033 ↔
       supplement = false ∧ (appliance = true ∨ razor = true ∧ electric = true))
  ∧ (getMainCategoryCode (Some title) = Main100000018 ↔
       supplement = false ∧ appliance = false ∧ razor = true ∧ electric = false)
  ∧ (getMainCategoryCode (Some title) = Main120000 ↔
       supplement = false ∧ appliance = false ∧ razor = false).
Proof.
  unfold getMainCategoryCode, isBeautyAppliance, isDailyRazor.
  change (default [] (Some title)) with title.
  destruct (isSupplement title), (someIncluded BEAUTY_APPLIANCE_KEYWORDS title),
    (someIncluded RAZOR_KEYWORDS title), (someIncluded ELECTRIC_HINTS title),
    (someIncluded DAILY_RAZOR_HINTS title); simpl; intuition congruence.
Qed.

(** *** The beauty cascade *)

Definition silent (title : jsstring) (rule : BeautyRule) : Prop :=
  someIncluded (keywords rule) title = false.

Lemma firstBeautyRule_first (title : jsstring) pre rule post :
  Forall (silent title) pre → someIncluded (keywords rule) title = true →
  firstBeautyRule (pre ++ rule :: post) title = Some (code rule).
Proof.
  intros Hpre Hrule. induction Hpre as [|r pre Hr _ IH]; simpl.
  - by rewrite Hrule.
  - unfold silent in Hr. by rewrite Hr.
Qed.

Lemma firstBeautyRule_none (title : jsstring) rules :
  Forall (silent title) rules ↔ firstBeautyRule rules title = None.
Proof.
  induction rules as [|r rules IH]; simpl.
  - split; [done | constructor].
  - destruct (someIncluded (keywords r) title) eqn:E.
    + split; [|done]. intros H. inversion H as [|? ? Hr _]; subst.
      unfold silent in Hr. congruence.
    + rewrite <- IH. split.
      * intros H. by inversion H.
      * intros H. by constructor.
Qed.

Lemma firstBeautyRule_sound (title : jsstring) rules c :
  firstBeautyRule rules title = Some c →
  ∃ pre rule post,
    rules = pre ++ rule :: post ∧ Forall (silent title) pre
    ∧ someIncluded (keywords rule) title = true ∧ code rule = c.
Proof.
  induction rules as [|r rules IH]; simpl; [done|].
  destruct (someIncluded (keywords r) title) eqn:E.
  - intros [= <-]. exists [], r, rules. repeat split; [constructor | done].
  - intros (pre & rule & post & -> & Hpre & Hrule & Hc)%IH.
    exists (r :: pre), rule, post. repeat split; try done. by constructor.
Qed.

(** The sub-category is the code of the first rule of the table, from UV care
    down to skin care, one of whose keywords occurs in the title, and skin
    care if none does; conversely every answer other than the skin care
    default is backed by a keyword of its rule that occurs in the title, all
    rules before it being silent. *)
Theorem beauty_first_rule_wins (title : jsstring) :
  (∀ pre rule post,
     BEAUTY_RULES = pre ++ rule :: post →
     Forall (silent title) pre →
     (∃ kw, In kw (keywords rule) ∧ contains title kw) →
     getBeautySecondSubCat title = code rule)
  ∧ (Forall (silent title) BEAUTY_RULES →
     getBeautySecondSubCat title = Beauty120000012)
  ∧ (getBeautySecondSubCat title ≠ Beauty120000012 →
     ∃ pre rule post kw,
       BEAUTY_RULES = pre ++ rule :: post ∧ Forall (silent title) pre
       ∧ In kw (keywords rule) ∧ contains title kw
       ∧ getBeautySecondSubCat title = code rule).
Proof.
  unfold getBeautySecondSubCat. split; [|split].
  - intros pre rule post -> Hpre Hkw%someIncluded_iff.
    by rewrite (firstBeautyRule_first title pre rule post Hpre Hkw).
  - intros H%firstBeautyRule_none. by rewrite H.
  - destruct (firstBeautyRule BEAUTY_RULES title) as [c|] eqn:E; [|done].
    intros _. apply firstBeautyRule_sound in E
      as (pre & rule & post & Hsplit & Hpre & Hrule & Hc).
    apply someIncluded_iff in Hrule as (kw & Hin & Hkw).
    exists pre, rule, post, kw. by rewrite Hc.
Qed.

Lemma beauty_first_rule_wins_witness :
  getBeautySecondSubCat (js "UVカット リップ クリーム") = Beauty120000017.
Proof.
  refine (proj1 (beauty_first_rule_wins (js "UVカット リップ クリーム"))
            [] (nth 0 BEAUTY_RULES {| code := Beauty120000012; keywords := [] |})
            (skipn 1 BEAUTY_RULES) _ _ _).
  - reflexivity.
  - constructor.
  - exists (js "UVカット"). split; [vm_compute; tauto|].
    exists [], (js " リップ クリーム"). vm_compute. reflexivity.
Defined.

(** Which codes the rules up to and including a matching one can give. *)
Lemma firstBeautyRule_among (title : jsstring) pre rule post :
  someIncluded (keywords rule) title = true →
  ∃ c, firstBeautyRule (pre ++ rule :: post) title = Some c
       ∧ In c (List.map code (pre ++ [rule])).
Proof.
  intros Hrule. induction pre as [|r pre IH]; simpl.
  - rewrite Hrule. eauto.
  - destruct (someIncluded (keywords r) title); [eauto|].
    destruct IH as (c & -> & Hc). eauto.
Qed.

(** Two keywords stand in two rules each.  The earlier rule always answers:
    a title with [ボディミスト] is never body care on account of it (fragrance
    comes first), and a title with [ヘアミスト] is never fragrance on account
    of it (hair care comes first).  Stated without "on account of": such a
    title gets a code from the rules up to the earlier one. *)
Theorem duplicate_keywords_shadowed (title : jsstring) :
  (contains title (js "ボディミスト") →
   getBeautySecondSubCat title ≠ Beauty120000018
   ∧ getBeautySecondSubCat title ≠ Beauty120000012)
  ∧ (contains title (js "ヘアミスト") →
     getBeautySecondSubCat title ≠ Beauty120000022
     ∧ getBeautySecondSubCat title ≠ Beauty120000018
     ∧ getBeautySecondSubCat title ≠ Beauty120000012).
Proof.
  unfold getBeautySecondSubCat. split.
  - intros Hc.
    destruct (firstBeautyRule_among title (firstn 5 BEAUTY_RULES)
                (nth 5 BEAUTY_RULES {| code := Beauty120000012; keywords := [] |})
                (skipn 6 BEAUTY_RULES)) as (c & Hc' & Hin).
    { apply someIncluded_iff. exists (js "ボディミスト").
      split; [vm_compute; tauto | done]. }
    change (firstn 5 BEAUTY_RULES ++ _ :: skipn 6 BEAUTY_RULES)
      with BEAUTY_RULES in Hc'.
    rewrite Hc'. simpl in Hin. intuition (subst; discriminate).
  - intros Hc.
    destruct (firstBeautyRule_among title (firstn 3 BEAUTY_RULES)
                (nth 3 BEAUTY_RULES {| code := Beauty120000012; keywords := [] |})
                (skipn 4 BEAUTY_RULES)) as (c & Hc' & Hin).
    { apply someIncluded_iff. exists (js "ヘアミスト").
      split; [vm_compute; tauto | done]. }
    change (firstn 3 BEAUTY_RULES ++ _ :: skipn 4 BEAUTY_RULES)
      with BEAUTY_RULES in Hc'.
    rewrite Hc'. simpl in Hin. intuition (subst; discriminate).
Qed.

Lemma duplicate_keywords_shadowed_witness :
  getBeautySecondSubCat (js "ボディミスト 100ml") ≠ Beauty120000018
  ∧ getBeautySecondSubCat (js "ボディミスト 100ml") ≠ Beauty120000012.
Proof.
  apply (proj1 (duplicate_keywords_shadowed (js "ボディミスト 100ml"))).
  exists [], (js " 100ml"). reflexivity.
Defined.

End ClassifierTable.

(** ** More on category assignment *)

Module CategoryAuto.

Import Qoo10Category Api App JsStringFacts CategoryFacts.

(** The manual map is silent exactly when every entry is skipped. *)
Lemma manualCategory_none lower (entries : CategoryMap) (titleLower : jsstring) :
  manualCategory lower entries titleLower = None ↔
  Forall (skipped lower titleLower) entries.
Proof.
  induction entries as [|[k c] entries IH]; simpl.
  - split; [constructor | done].
  - unfold skipped at 1. simpl. destruct k as [|u k]; simpl.
    + rewrite IH. split; [intros H; constructor; auto | by inversion 1].
    + destruct (includes titleLower (lower (u :: k))) eqn:E.
      * split; [done|]. inversion 1 as [|? ? [Hk|Hk] _]; subst; [done|].
        cbn [fst] in Hk. by apply includes_iff in E.
      * rewrite IH. split; [|by inversion 1].
        intros H. constructor; [|done]. right. cbn [fst].
        rewrite <- includes_iff. congruence.
Qed.

(** The codes automatic classification can give: a main code other than the
    bare beauty code, or a beauty sub-category code. *)
Definition autoCodes : list number :=
  [ mainNumber Main130000; mainNumber Main120000033; mainNumber Main100000018;
    beautyNumber Beauty120000012; beautyNumber Beauty120000013;
    beautyNumber Beauty120000014; beautyNumber Beauty120000017;
    beautyNumber Beauty120000018; beautyNumber Beauty120000020;
    beautyNumber Beauty120000021; beautyNumber Beauty120000022 ].

(** When no entry of the manual map applies, [chooseCategory] answers
    [undefined] exactly if automatic classification is switched off.
    Switched on, it always answers, with one of eleven codes, never the bare
    beauty code 120000: a beauty title gets its sub-category code, and it gets
    one exactly when the main category is beauty. *)
Theorem automatic_category lower (info : option AmazonItemInfo) (p : Product)
    (settings : SettingsState) :
  Forall (skipped lower (lower (rawTitleOf info p))) (categoryMap settings) →
  (autoCategoryEnabled settings = false →
   chooseCategory lower info p settings = None)
  ∧ (autoCategoryEnabled settings = true →
     ∃ c, chooseCategory lower info p settings = Some c
          ∧ In c autoCodes ∧ c ≠ mainNumber Main120000
          ∧ (getMainCategoryCode (Some (rawTitleOf info p)) = Main120000 →
             c = beautyNumber (getBeautySecondSubCat (rawTitleOf info p)))
          ∧ (getMainCategoryCode (Some (rawTitleOf info p)) ≠ Main120000 →
             c = mainNumber (getMainCategoryCode (Some (rawTitleOf info p))))).
Proof.
  intros H%manualCategory_none. unfold chooseCategory. rewrite H. split.
  - by intros ->.
  - intros ->. simpl negb. cbv iota.
    unfold classifyQoo10Category.
    destruct (getMainCategoryCode (Some (rawTitleOf info p))) eqn:Hm; simpl.
    + change (default [] (Some (rawTitleOf info p))) with (rawTitleOf info p).
      eexists. split; [reflexivity|].
      split; [|split; [|split; [done|done]]].
      * destruct (getBeautySecondSubCat _); simpl; tauto.
      * destruct (getBeautySecondSubCat _); simpl; discriminate.
    + eexists. split; [reflexivity|]. repeat split; simpl; try tauto; try discriminate.
    + eexists. split; [reflexivity|]. repeat split; simpl; try tauto; try discriminate.
    + eexists. split; [reflexivity|]. repeat split; simpl; try tauto; try discriminate.
Qed.

Lemma automatic_category_witness :
  ∃ c, chooseCategory toLowerCase None ListingFacts.candidate DEFAULT_SETTINGS = Some c
       ∧ In c autoCodes.
Proof.
  assert (Hskip : Forall (skipped toLowerCase
                            (toLowerCase (rawTitleOf None ListingFacts.candidate)))
                         (categoryMap DEFAULT_SETTINGS)).
  { repeat (apply List.Forall_cons;
            [right; rewrite <- includes_iff; vm_compute; discriminate|]).
    apply List.Forall_nil. }
  destruct (proj2 (automatic_category toLowerCase None ListingFacts.candidate
                     DEFAULT_SETTINGS Hskip) eq_refl) as (c & Hc & Hin & _).
  exists c. by split.
Defined.

End CategoryAuto.

(** ** More on numbers and price rules *)

Module PriceRange.

Import Api App JsNumberFacts.

(** A truthy number that is not [<= 0] is positive. *)
Lemma truthy_positive (y : number) :
  truthy y = true → (y <=? 0)%float = false → (0 <? y)%float = true.
Proof.
  unfold truthy, PrimFloat.is_zero.
  rewrite negb_true_iff, orb_false_iff. intros [Hn Hz].
  apply is_nan_false in Hn.
  rewrite FloatAxioms.eqb_spec in Hz.
  rewrite FloatAxioms.leb_spec, FloatAxioms.ltb_spec.
  change (Prim2SF zero) with (S754_zero false) in *.
  change (Prim2SF 0) with (S754_zero false) in *.
  unfold SFeqb, SFleb, SFltb in *.
  destruct (Prim2SF y) as [s|s| |s m e]; simpl in *; try done;
    by destruct s.
Qed.

(** [applyRule] returns 0, [NaN] or a number that is at least 1. *)
Lemma applyRule_trichotomy (price : option number) (rules : list PriceRule) :
  applyRule price rules = 0%float
  ∨ PrimFloat.is_nan (applyRule price rules) = true
  ∨ (1 <=? applyRule price rules)%float = true.
Proof.
  destruct price as [p|]; simpl; [|by left].
  destruct (truthy p) eqn:Ht; simpl; [|by left].
  destruct (p <=? 0)%float eqn:Hle; [by left|].
  pose proof (Math_max_1_ge (Math_round (ruleResult p rules))) as Hge.
  rewrite Math_round_nan in Hge.
  destruct (PrimFloat.is_nan (ruleResult p rules)) eqn:Hn.
  - rewrite Math_max_1_nan by (by rewrite Math_round_nan). right; by left.
  - right; right. by apply Hge.
Qed.

(** [applyRule] returns 0 exactly on its two early exits. *)
Lemma applyRule_zero_iff (price : option number) (rules : list PriceRule) :
  applyRule price rules = 0%float ↔
  match price with
  | None => True
  | Some p => truthy p = false ∨ (p <=? 0)%float = true
  end.
Proof.
  destruct price as [p|]; simpl; [|done].
  destruct (truthy p) eqn:Ht; simpl; [|tauto].
  destruct (p <=? 0)%float eqn:Hle; [tauto|].
  split; [|intros [H|H]; discriminate].
  destruct (PrimFloat.is_nan (ruleResult p rules)) eqn:Hn.
  - rewrite Math_max_1_nan by (by rewrite Math_round_nan). discriminate.
  - pose proof (Math_max_1_ge (Math_round (ruleResult p rules))) as Hge.
    rewrite Math_round_nan in Hge. specialize (Hge Hn).
    intros E. rewrite E in Hge. discriminate.
Qed.

(** Whatever the price and the rules, [applyRule] returns 0, [NaN] or a
    number that is at least 1: never a negative number and never one strictly
    between 0 and 1.  It returns 0 exactly for an absent, falsy or negative
    price. *)
Theorem applyRule_range (price : option number) (rules : list PriceRule) :
  (applyRule price rules = 0%float
   ∨ PrimFloat.is_nan (applyRule price rules) = true
   ∨ (1 <=? applyRule price rules)%float = true)
  ∧ (applyRule price rules = 0%float ↔
     match price with
     | None => True
     | Some p => truthy p = false ∨ (p <=? 0)%float = true
     end).
Proof. split; [apply applyRule_trichotomy | apply applyRule_zero_iff]. Qed.

End PriceRange.

(** ** More on the listing run *)

Module PipelineFacts.

Import Api App ListFacts JsStringFacts JsNumberFacts PriceFacts ListingFacts
       ApiFacts PriceRange.

(** *** The map of source data *)

Lemma buildInfoMap_snoc (infos : list AmazonItemInfo) (i : AmazonItemInfo) :
  buildInfoMap (infos ++ [i])
  = if nonEmpty (info_asin i) then <[info_asin i := i]> (buildInfoMap infos)
    else buildInfoMap infos.
Proof. unfold buildInfoMap. by rewrite fold_left_app. Qed.

(** Looking up an ASIN gives the last item of the server's answer that carries
    it, and nothing if no item does; an item without ASIN is not stored. *)
Theorem infoMap_lookup (infos : list AmazonItemInfo) :
  (∀ a, a ≠ [] →
     buildInfoMap infos !! a
     = List.find (fun i => JsString.eqb (info_asin i) a) (rev infos))
  ∧ buildInfoMap infos !! [] = None
  ∧ (∀ a i, buildInfoMap infos !! a = Some i → In i infos ∧ info_asin i = a)
  ∧ (∀ a, a ≠ [] → (buildInfoMap infos !! a = None ↔
                     ∀ i, In i infos → info_asin i ≠ a)).
Proof.
  assert (H1 : ∀ a, a ≠ [] →
            buildInfoMap infos !! a
            = List.find (fun i => JsString.eqb (info_asin i) a) (rev infos)).
  { intros a Ha. induction infos as [|i infos IH] using rev_ind; [done|].
    rewrite buildInfoMap_snoc, rev_app_distr. simpl.
    destruct (JsString.eqb (info_asin i) a) eqn:E.
    - apply eqb_eq in E. subst a. destruct (info_asin i); [done|]. simpl.
      by rewrite lookup_insert_eq.
    - assert (Hne : info_asin i ≠ a).
      { intros Heq. apply eqb_eq in Heq. congruence. }
      destruct (nonEmpty (info_asin i)); [|done].
      by rewrite lookup_insert_ne. }
  assert (H2 : buildInfoMap infos !! [] = None).
  { clear H1. induction infos as [|i infos IH] using rev_ind; [done|].
    rewrite buildInfoMap_snoc. destruct (info_asin i) eqn:E; cbn [nonEmpty]; [done|].
    by rewrite lookup_insert_ne. }
  split; [done|]. split; [done|]. split.
  - intros a i Hi. destruct a as [|u a]; [congruence|].
    rewrite H1 in Hi by done. apply find_some in Hi as [Hin Heq].
    apply in_rev in Hin. by apply eqb_eq in Heq.
  - intros a Ha. rewrite (H1 a Ha). split.
    + intros Hnone i Hin Heq.
      assert (E : JsString.eqb (info_asin i) a = true) by (by apply eqb_eq).
      assert (Hf : JsString.eqb (info_asin i) a = false).
      { apply (List.find_none _ _ Hnone i). by apply in_rev in Hin. }
      congruence.
    + intros Hall. destruct (List.find _ _) as [i|] eqn:E; [|done].
      apply find_some in E as [Hin Heq]. apply in_rev in Hin.
      apply eqb_eq in Heq. by destruct (Hall i Hin).
Qed.

Lemma infoMap_lookup_witness :
  buildInfoMap [oneSeller; fiveSellers] !! js "B00TEST001" = Some fiveSellers.
Proof.
  rewrite (proj1 (infoMap_lookup [oneSeller; fiveSellers]) (js "B00TEST001"));
    [reflexivity | discriminate].
Defined.

(** *** One candidate *)

(** A rejection names the candidate and is never a success; a payload
    carries the candidate's ASIN. *)
Lemma checkTarget_rejection lower settings infoMap existsSet (p : Product)
    (r : ListingResultItem) :
  checkTarget lower settings infoMap existsSet p = inl r →
  item_asin r = asin p ∧ status r ≠ success.
Proof.
  unfold checkTarget. cbv zeta.
  repeat case_match; intros [= <-]; by split.
Qed.

Lemma checkTarget_payload lower settings infoMap existsSet (p : Product)
    (q : Qoo10ListingPayload) :
  checkTarget lower settings infoMap existsSet p = inr q → payload_asin q = asin p.
Proof.
  unfold checkTarget. cbv zeta.
  repeat case_match; by intros [= <-].
Qed.

(** What is behind a payload: the candidate passed every check.  Its source
    price is positive, the price sent is [applyRule] of it and at least 1, and
    the stock sent is positive. *)
Theorem payload_sound lower settings infoMap existsSet (p : Product)
    (q : Qoo10ListingPayload) :
  checkTarget lower settings infoMap existsSet p = inr q →
  ∃ info x,
    infoMap !! asin p = Some info ∧ price info = Some x
    ∧ (0 <? x)%float = true
    ∧ (primeOnly settings && failsPrime settings info) = false
    ∧ singleSeller info = false
    ∧ ¬ In (asin p) (noListASINs settings)
    ∧ (∀ w, In w (noListWords settings) → w ≠ [] → ¬ contains (name p) w)
    ∧ (asin p ∉ existsSet)
    ∧ payload_asin q = asin p
    ∧ payload_price q = applyRule (Some x) (rules settings)
    ∧ (1 <=? payload_price q)%float = true
    ∧ payload_title q
      = stripWords (orElse (title info) (name p)) (nameEraseWords settings)
    ∧ shippingCode q = settings_shippingCode settings
    ∧ categoryNo q = chooseCategory lower (Some info) p settings
    ∧ imageUrl q = image info ∧ payload_jan q = jan p
    ∧ ∃ s, stock q = Some s ∧ (0 <? s)%float = true.
Proof.
  unfold checkTarget.
  destruct (infoMap !! asin p) as [info|]; [|done].
  destruct (price info) as [x|] eqn:Hx; [|done].
  change (priceMissing (Some x)) with (negb (truthy x)).
  destruct (truthy x) eqn:Ht; [|done]. cbn [negb].
  destruct (primeOnly settings && failsPrime settings info) eqn:Hprime; [done|].
  destruct (singleSeller info) eqn:Hseller; [done|].
  destruct (arrayIncludes (noListASINs settings) (asin p)) eqn:Hasin; [done|].
  cbv zeta.
  destruct (List.filter _ (noListWords settings)) as [|w0 hits] eqn:Hhits;
    cbn [length Nat.eqb negb]; [|done].
  destruct (bool_decide (asin p ∈ existsSet)) eqn:Hex; [done|].
  destruct (truthy (applyRule (Some x) (rules settings))) eqn:Hty;
    cbn [negb orb]; [|done].
  destruct (applyRule (Some x) (rules settings) <=? 0)%float eqn:Hle; [done|].
  intros [= <-]. cbn [payload_asin payload_price shippingCode payload_title
                      imageUrl stock categoryNo payload_jan].
  assert (Hx0 : (0 <? x)%float = true).
  { apply truthy_positive; [done|].
    destruct (x <=? 0)%float eqn:E; [|done].
    assert (H0 : applyRule (Some x) (rules settings) = 0%float).
    { apply applyRule_zero_iff. by right. }
    rewrite H0 in Hty. discriminate. }
  exists info, x. repeat split; try done.
  - intros Hin%arrayIncludes_iff. congruence.
  - intros w Hw Hne Hc.
    assert (Hf : In w (List.filter (fun w => nonEmpty w && includes (name p) w)
                                   (noListWords settings))).
    { apply filter_In. split; [done|]. apply andb_true_iff. split.
      - by apply nonEmpty_iff.
      - by apply includes_iff. }
    by rewrite Hhits in Hf.
  - by apply bool_decide_eq_false in Hex.
  - destruct (applyRule_trichotomy (Some x) (rules settings)) as [H0|[Hn|H1]].
    + rewrite H0 in Hty. discriminate.
    + unfold truthy in Hty. rewrite Hn in Hty. discriminate.
    + done.
  - destruct (0 <? maxStockPerItem settings)%float eqn:E; eauto.
Qed.

Lemma payload_sound_witness :
  ∃ q, checkTarget toLowerCase DEFAULT_SETTINGS (buildInfoMap [fiveSellers]) ∅ candidate
       = inr q
       ∧ payload_asin q = asin candidate
       ∧ (1 <=? payload_price q)%float = true.
Proof.
  destruct (checkTarget toLowerCase DEFAULT_SETTINGS (buildInfoMap [fiveSellers]) ∅
              candidate) as [r|q] eqn:E; [vm_compute in E; discriminate|].
  exists q. split; [done|].
  destruct (payload_sound _ _ _ _ _ _ E)
    as (info & x & _ & _ & _ & _ & _ & _ & _ & _ & Hasin & _ & Hge & _).
  by split.
Defined.

(** What is behind a rejection, by status.  An [error] is a price problem
    (no source data, no usable source price, or a price that is 0 or [NaN]
    after the rules); [forbidden] is a failed Prime condition, a single seller,
    a denied ASIN or a denied word; [exists] means the ASIN is in the set of
    existing listings and none of the earlier checks failed.  The loop never
    reports [success], names the candidate in every rejection, and attaches
    matched words only to a word rejection. *)
Theorem rejection_sound lower settings infoMap existsSet (p : Product)
    (r : ListingResultItem) :
  checkTarget lower settings infoMap existsSet p = inl r →
  item_asin r = asin p ∧ item_name r = name p
  ∧ item_qoo10ItemCode r = None ∧ status r ≠ success
  ∧ (status r = error →
     infoMap !! asin p = None
     ∨ ∃ info, infoMap !! asin p = Some info
               ∧ (priceMissing (price info) = true
                  ∨ applyRule (price info) (rules settings) = 0%float
                  ∨ PrimFloat.is_nan (applyRule (price info) (rules settings)) = true))
  ∧ (status r = forbidden →
     ∃ info, infoMap !! asin p = Some info ∧ priceMissing (price info) = false
             ∧ ((primeOnly settings && failsPrime settings info) = true
                ∨ singleSeller info = true
                ∨ In (asin p) (noListASINs settings)
                ∨ ∃ w, In w (noListWords settings) ∧ w ≠ [] ∧ contains (name p) w))
  ∧ (status r = exists_ →
     (asin p ∈ existsSet) ∧ ¬ In (asin p) (noListASINs settings)
     ∧ ∀ w, In w (noListWords settings) → w ≠ [] → ¬ contains (name p) w)
  ∧ (∀ ws, hitWords r = Some ws →
       ws ≠ [] ∧ status r = forbidden ∧ item_message r = WordsHit ws).
Proof.
  unfold checkTarget.
  destruct (infoMap !! asin p) as [info|] eqn:Hinfo.
  2: { intros [= <-]. simpl. repeat split; try done. by left. }
  destruct (priceMissing (price info)) eqn:Hmiss.
  { intros [= <-]. simpl. repeat split; try done. right. exists info. tauto. }
  destruct (primeOnly settings && failsPrime settings info) eqn:Hprime.
  { intros [= <-]. simpl. repeat split; try done. exists info. tauto. }
  destruct (singleSeller info) eqn:Hseller.
  { intros [= <-]. simpl. repeat split; try done. exists info. tauto. }
  destruct (arrayIncludes (noListASINs settings) (asin p)) eqn:Hasin.
  { intros [= <-]. simpl. repeat split; try done. exists info.
    apply arrayIncludes_iff in Hasin. tauto. }
  cbv zeta.
  destruct (List.filter _ (noListWords settings)) as [|w0 hits] eqn:Hhits.
  2: { cbn [length Nat.eqb negb]. intros [= <-]. simpl. repeat split; try done.
       - exists info. split; [done|]. split; [done|]. do 3 right. exists w0.
         assert (Hf : In w0 (List.filter (fun w => nonEmpty w && includes (name p) w)
                                         (noListWords settings))).
         { rewrite Hhits. by left. }
         apply filter_In in Hf as [Hin Hf]. apply andb_true_iff in Hf as [H1 H2].
         apply nonEmpty_iff in H1. apply includes_iff in H2. tauto.
       - match goal with H : Some _ = Some _ |- _ => by injection H as <- end.
       - match goal with H : Some _ = Some _ |- _ => by injection H as <- end. }
  cbn [length Nat.eqb negb].
  assert (Hnohit : ∀ w, In w (noListWords settings) → w ≠ [] → ¬ contains (name p) w).
  { intros w Hw Hne Hc.
    assert (Hf : In w (List.filter (fun w => nonEmpty w && includes (name p) w)
                                   (noListWords settings))).
    { apply filter_In. split; [done|]. apply andb_true_iff. split.
      - by apply nonEmpty_iff.
      - by apply includes_iff. }
    by rewrite Hhits in Hf. }
  assert (Hnotdenied : ¬ In (asin p) (noListASINs settings)).
  { intros Hin%arrayIncludes_iff. congruence. }
  destruct (bool_decide (asin p ∈ existsSet)) eqn:Hex.
  { intros [= <-]. simpl. repeat split; try done.
    by apply bool_decide_eq_true in Hex. }
  destruct (negb (truthy (applyRule (price info) (rules settings)))
            || (applyRule (price info) (rules settings) <=? 0)%float) eqn:Hbad; [|done].
  intros [= <-]. simpl. repeat split; try done.
  intros _. right. exists info. split; [done|]. right.
  destruct (applyRule_trichotomy (price info) (rules settings)) as [H0|[Hn|H1]];
    [by left | by right |].
  apply one_le_positive, positive_passes in H1 as (_ & Ht & Hle).
  rewrite Ht, Hle in Hbad. discriminate.
Qed.

Lemma rejection_sound_witness :
  ∃ r, checkTarget toLowerCase DEFAULT_SETTINGS (buildInfoMap [oneSeller]) ∅ candidate
       = inl r
       ∧ item_asin r = asin candidate ∧ status r ≠ success.
Proof.
  destruct (checkTarget toLowerCase DEFAULT_SETTINGS (buildInfoMap [oneSeller]) ∅
              candidate) as [r|q] eqn:E; [|vm_compute in E; discriminate].
  exists r. split; [done|].
  destruct (rejection_sound _ _ _ _ _ _ E) as (Ha & _ & _ & Hs & _).
  by split.
Defined.

(** *** The loop *)

Lemma omap_split_length {A B C} (f : A → B + C) (l : list A) :
  (length (omap (fun x => match f x with inl b => Some b | inr _ => None end) l)
   + length (omap (fun x => match f x with inl _ => None | inr c => Some c end) l)
   = length l)%nat.
Proof.
  induction l as [|x l IH]; [done|].
  cbn [omap list_omap]. destruct (f x); simpl; lia.
Qed.

Lemma listingLoop_length lower settings infoMap existsSet (targets : list Product) :
  (length (fst (listingLoop lower settings infoMap existsSet targets [] []))
   + length (snd (listingLoop lower settings infoMap existsSet targets [] []))
   = length targets)%nat.
Proof. rewrite listingLoop_spec. cbn [fst snd app]. apply omap_split_length. Qed.

Lemma listingLoop_asins lower settings infoMap existsSet (targets : list Product) :
  let results := fst (listingLoop lower settings infoMap existsSet targets [] []) in
  let payloads := snd (listingLoop lower settings infoMap existsSet targets [] []) in
  sublist (List.map item_asin results) (List.map asin targets)
  ∧ sublist (List.map payload_asin payloads) (List.map asin targets)
  ∧ Permutation (List.map item_asin results ++ List.map payload_asin payloads)
                (List.map asin targets).
Proof.
  rewrite listingLoop_spec. cbn [fst snd app].
  induction targets as [|p targets (IH1 & IH2 & IH3)].
  - repeat split; constructor.
  - cbn [omap list_omap List.map].
    destruct (checkTarget lower settings infoMap existsSet p) as [r|q] eqn:E.
    + destruct (checkTarget_rejection _ _ _ _ _ _ E) as [Ha _].
      cbn [List.map app]. rewrite Ha. repeat split; by constructor.
    + pose proof (checkTarget_payload _ _ _ _ _ _ E) as Ha.
      cbn [List.map app]. rewrite Ha. repeat split; try by constructor.
      rewrite <- Permutation_middle. by constructor.
Qed.

Lemma listingLoop_no_success lower settings infoMap existsSet (targets : list Product) :
  Forall (fun r => status r ≠ success)
    (fst (listingLoop lower settings infoMap existsSet targets [] [])).
Proof.
  rewrite listingLoop_spec. cbn [fst app].
  induction targets as [|p targets IH]; [constructor|].
  cbn [omap list_omap].
  destruct (checkTarget lower settings infoMap existsSet p) as [r|q] eqn:E; [|done].
  constructor; [|done]. by destruct (checkTarget_rejection _ _ _ _ _ _ E).
Qed.

(** Every target ends in exactly one of the two arrays of the loop, a
    rejection in [results] or a payload in [payloads], under its own ASIN and
    in the order of the targets; no rejection says [success]. *)
Theorem every_target_decided_once lower settings infoMap existsSet
    (targets : list Product) :
  let results := fst (listingLoop lower settings infoMap existsSet targets [] []) in
  let payloads := snd (listingLoop lower settings infoMap existsSet targets [] []) in
  (length results + length payloads = length targets)%nat
  ∧ sublist (List.map item_asin results) (List.map asin targets)
  ∧ sublist (List.map payload_asin payloads) (List.map asin targets)
  ∧ Permutation (List.map item_asin results ++ List.map payload_asin payloads)
                (List.map asin targets)
  ∧ Forall (fun r => status r ≠ success) results.
Proof.
  cbv zeta. split; [apply listingLoop_length|].
  pose proof (listingLoop_asins lower settings infoMap existsSet targets) as H.
  cbv zeta in H. destruct H as (H1 & H2 & H3).
  repeat split; try done. apply listingLoop_no_success.
Qed.


Section Run.

Variable lower : jsstring → jsstring.
Variable settings : SettingsState.
Variable Err : Type.
Variable httpError : forall T, jsstring -> Response Err T -> jsstring -> Err.
Variable errorMessage : Err -> option jsstring.
Variable fetchBulk : Fetch Err (list jsstring) (list AmazonItemInfo).
Variable fetchExisting : Fetch Err (list jsstring) (list jsstring).
Variable fetchCreate : Fetch Err (list Qoo10ListingPayload) (list CreateListingResult).

Abbreviation run :=
  (runListing lower settings Err httpError errorMessage
     fetchBulk fetchExisting fetchCreate).


(** The shape of a run on at least one target: the rejections of the loop,
    followed, if there is a payload, by one result for each answer of the
    listing service. *)
Lemma run_shape (targets : list Product) :
  targets ≠ [] →
  ∃ amazonInfos existingAsins,
    fetchAmazonBulk httpError fetchBulk (List.map asin targets) = Return amazonInfos
    ∧ checkQoo10Existing httpError fetchExisting (List.map asin targets)
      = Return existingAsins
    ∧ let loop := listingLoop lower settings (buildInfoMap amazonInfos)
                    (list_to_set existingAsins) targets [] [] in
      (snd loop = [] ∧ run targets = Return (fst loop))
      ∨ (snd loop ≠ [] ∧
         ∃ created,
           createQoo10Listings httpError fetchCreate (snd loop) = Return created
           ∧ run targets
             = Return (fst loop ++ List.map (createdResult targets) created)).
Proof.
  intros Hne.
  destruct (fetchAmazonBulk_returns Err httpError fetchBulk (List.map asin targets))
    as [amazonInfos Hbulk].
  destruct (checkQoo10Existing_returns Err httpError fetchExisting
              (List.map asin targets)) as [existingAsins Hexisting].
  exists amazonInfos, existingAsins. split; [done|]. split; [done|].
  unfold runListing. rewrite Hbulk, Hexisting. cbn [bind].
  destruct targets as [|p targets]; [done|]. cbn [length Nat.eqb].
  destruct (listingLoop _ _ _ _ _ _ _) as [results payloads]. cbn [fst snd].
  destruct payloads as [|q payloads]; cbn [length Nat.eqb].
  - left. by split.
  - right. split; [done|].
    destruct (createQoo10Listings_returns Err httpError fetchCreate (q :: payloads))
      as [created Hcreated].
    exists created. split; [done|]. by rewrite Hcreated.
Qed.

(** A result says [success] only if the listing service answered [ok] for
    that ASIN: it then carries the ASIN and the item code of that answer. *)
Theorem success_only_if_confirmed (targets : list Product)
    (results : list ListingResultItem) (r : ListingResultItem) :
  run targets = Return results → In r results → status r = success →
  ∃ amazonInfos existingAsins created c,
    fetchAmazonBulk httpError fetchBulk (List.map asin targets) = Return amazonInfos
    ∧ checkQoo10Existing httpError fetchExisting (List.map asin targets)
      = Return existingAsins
    ∧ createQoo10Listings httpError fetchCreate
        (snd (listingLoop lower settings (buildInfoMap amazonInfos)
                (list_to_set existingAsins) targets [] []))
      = Return created
    ∧ In c created ∧ ok c = true
    ∧ item_asin r = result_asin c
    ∧ item_qoo10ItemCode r = qoo10ItemCode c.
Proof.
  intros Hrun Hin Hs.
  destruct targets as [|p targets].
  { unfold runListing in Hrun. simpl in Hrun. injection Hrun as <-. done. }
  destruct (run_shape (p :: targets)) as (infos & existing & Hb & He & Hshape); [done|].
  pose proof (listingLoop_no_success lower settings (buildInfoMap infos)
                (list_to_set existing) (p :: targets)) as Hrej.
  cbv zeta in Hshape.
  destruct Hshape as [[_ Hr] | (_ & created & Hcreated & Hr)];
    rewrite Hr in Hrun; injection Hrun as <-.
  - exfalso. rewrite List.Forall_forall in Hrej. by apply (Hrej r).
  - apply in_app_or in Hin as [Hin|Hin].
    + exfalso. rewrite List.Forall_forall in Hrej. by apply (Hrej r).
    + apply in_map_iff in Hin as (c & <- & Hc).
      exists infos, existing, created, c.
      unfold createdResult in *. destruct (ok c); [done | discriminate].
Qed.


End Run.



Lemma success_only_if_confirmed_witness :
  let r := {| item_asin := js "B00TEST001"; item_name := js "日焼け止め 50ml";
              status := success;
              item_message := Text (js "出品登録が完了しました。");
              hitWords := None;
              item_qoo10ItemCode := Some (js "1000000001") |} in
  ∃ c, ok c = true ∧ item_asin r = result_asin c
       ∧ item_qoo10ItemCode r = qoo10ItemCode c.
Proof.
  intros r.
  destruct (success_only_if_confirmed toLowerCase DEFAULT_SETTINGS jsstring pathAsError
           (fun e => Some e) (RunFacts.answers [fiveSellers]) (RunFacts.answers [])
           (RunFacts.answers [RunFacts.created]) [candidate] [r] r)
    as (infos & existing & created & c & _ & _ & _ & _ & Hok & Ha & Hc).
  - vm_compute. reflexivity.
  - by left.
  - reflexivity.
  - by exists c.
Defined.

End PipelineFacts.

(** ** More on the API wrappers *)

Module ApiRestFacts.

Import Api ApiRest ApiFacts.

Section Degrade.

Variable Err : Type.
Variable httpError : forall T, jsstring -> Response Err T -> jsstring -> Err.
Variable httpGetError : forall T, jsstring -> Response Err T -> Err.

(** [getJson] hands out the parsed body of an ok response and throws in
    every other case. *)
Lemma getJson_cases {T} (fetch : FetchGet Err T) (path : jsstring) :
  (∀ v, getJson httpGetError fetch path = Return v ↔
        ∃ res, fetch path = Return res ∧ res_ok res = true ∧ res_json res = Return v).
Proof.
  intros v. unfold getJson, bind. destruct (fetch path) as [res|e].
  - destruct (res_ok res) eqn:Hok; simpl.
    + split; [intros H; exists res; auto | by intros (res' & [= <-] & _ & H)].
    + split; [done | intros (res' & [= <-] & H & _); congruence].
  - split; [done | by intros (res & H & _)].
Qed.

Lemma postJson_ok {Req T} (fetch : Fetch Err Req T) path body res v :
  fetch path body = Return res → res_ok res = true → res_json res = Return v →
  postJson httpError fetch path body = Return v.
Proof. intros Hf Hok Hj. unfold postJson, bind. by rewrite Hf, Hok. Qed.

(** A reading wrapper hands out the body of an ok response, and its fallback
    in every other case. *)
Lemma reading_degrades {T} (fetch : FetchGet Err T) path (fallback : T) :
  ∃ v, tryCatch (getJson httpGetError fetch path) (fun _ => Return fallback) = Return v
       ∧ ((∃ res, fetch path = Return res ∧ res_ok res = true
                  ∧ res_json res = Return v)
          ∨ (v = fallback
             ∧ ∀ res, fetch path = Return res →
                      res_ok res = false ∨ ∃ e, res_json res = Throw e)).
Proof.
  unfold getJson, bind. destruct (fetch path) as [res|e] eqn:Hf.
  - destruct (res_ok res) eqn:Hok; cbn [negb].
    + destruct (res_json res) as [v|e] eqn:Hj.
      * exists v. split; [done|]. left. by exists res.
      * exists fallback. split; [done|]. right. split; [done|].
        intros res' [= <-]. right. by exists e.
    + exists fallback. split; [done|]. right. split; [done|].
      intros res' [= <-]. by left.
  - exists fallback. split; [done|]. right. by split.
Qed.

(** Reading settings and items never throws: the body of an ok response is
    handed out, and [null] and the empty list take its place when the server
    cannot be reached, answers with an error status or sends an unreadable
    body. *)
Theorem rest_reads_degrade {Settings : Type} (null : Settings) :
  (∀ fetch, ∃ v,
     fetchSettings httpGetError null fetch = Return v
     ∧ ((∃ res, fetch (js "/settings") = Return res ∧ res_ok res = true
                ∧ res_json res = Return v)
        ∨ (v = null
           ∧ ∀ res, fetch (js "/settings") = Return res →
                    res_ok res = false ∨ ∃ e, res_json res = Throw e)))
  ∧ (∀ fetch, ∃ v,
       fetchItems httpGetError fetch = Return v
       ∧ ((∃ res, fetch (js "/items") = Return res ∧ res_ok res = true
                  ∧ res_json res = Return v)
          ∨ (v = []
             ∧ ∀ res, fetch (js "/items") = Return res →
                      res_ok res = false ∨ ∃ e, res_json res = Throw e))).
Proof. split; intros fetch; apply reading_degrades. Qed.

(** The three writing calls return nothing and never throw, whether the
    server took the data or not. *)
Theorem rest_writes_never_throw :
  (∀ Settings T (fetch : Fetch Err Settings T) settings,
     saveSettings httpError fetch settings = Return tt)
  ∧ (∀ T (fetch : Fetch Err (list QeasyItem) T) items,
       saveItems httpError fetch items = Return tt)
  ∧ (∀ T (fetch : Fetch Err unit T), refreshItems httpError fetch = Return tt).
Proof.
  repeat split.
  - intros Settings T fetch settings. unfold saveSettings, bind.
    by destruct (postJson _ _ _ _).
  - intros T fetch items. unfold saveItems, bind. by destruct (postJson _ _ _ _).
  - intros T fetch. unfold refreshItems, bind. by destruct (postJson _ _ _ _).
Qed.

(** The three wrappers of the listing run answer the empty list for an empty
    request, whatever the server would do; for a request that is not empty
    they hand out the body of an ok response unchanged, and the empty list
    for an ok response whose body cannot be read. *)
Theorem wrappers_pass_through :
  (∀ fetch, fetchAmazonBulk httpError fetch [] = Return [])
  ∧ (∀ fetch, checkQoo10Existing httpError fetch [] = Return [])
  ∧ (∀ fetch, createQoo10Listings httpError fetch [] = Return [])
  ∧ (∀ fetch asins res v,
       asins ≠ [] → fetch (js "/amazon/bulk") asins = Return res →
       res_ok res = true → res_json res = Return v →
       fetchAmazonBulk httpError fetch asins = Return v)
  ∧ (∀ fetch asins res v,
       asins ≠ [] → fetch (js "/qoo10/check-existing") asins = Return res →
       res_ok res = true → res_json res = Return v →
       checkQoo10Existing httpError fetch asins = Return v)
  ∧ (∀ fetch items res v,
       items ≠ [] → fetch (js "/qoo10/create-listings") items = Return res →
       res_ok res = true → res_json res = Return v →
       createQoo10Listings httpError fetch items = Return v)
  ∧ (∀ fetch asins res e,
       fetch (js "/amazon/bulk") asins = Return res →
       res_ok res = true → res_json res = Throw e →
       fetchAmazonBulk httpError fetch asins = Return [])
  ∧ (∀ fetch asins res e,
       fetch (js "/qoo10/check-existing") asins = Return res →
       res_ok res = true → res_json res = Throw e →
       checkQoo10Existing httpError fetch asins = Return []).
Proof.
  repeat split; try done.
  - intros fetch asins res v Hne Hf Hok Hj. unfold fetchAmazonBulk.
    destruct asins; [done|]. cbn [length Nat.eqb].
    by rewrite (postJson_ok _ _ _ _ _ Hf Hok Hj).
  - intros fetch asins res v Hne Hf Hok Hj. unfold checkQoo10Existing.
    destruct asins; [done|]. cbn [length Nat.eqb].
    by rewrite (postJson_ok _ _ _ _ _ Hf Hok Hj).
  - intros fetch items res v Hne Hf Hok Hj. unfold createQoo10Listings.
    destruct items; [done|]. cbn [length Nat.eqb].
    by rewrite (postJson_ok _ _ _ _ _ Hf Hok Hj).
  - intros fetch asins res e Hf Hok Hj. unfold fetchAmazonBulk.
    destruct (Nat.eqb _ _); [done|]. unfold postJson, bind.
    by rewrite Hf, Hok, Hj.
  - intros fetch asins res e Hf Hok Hj. unfold checkQoo10Existing.
    destruct (Nat.eqb _ _); [done|]. unfold postJson, bind.
    by rewrite Hf, Hok, Hj.
Qed.

End Degrade.

Definition statusAsError : forall T, jsstring -> Response jsstring T -> jsstring :=
  fun _ path _ => path.

Definition downGet {T} : FetchGet jsstring T := fun _ => Throw (js "Failed to fetch").

Lemma rest_reads_degrade_witness :
  fetchSettings statusAsError (None : option nat) downGet = Return None
  ∧ fetchItems statusAsError downGet = Return [].
Proof.
  destruct (rest_reads_degrade jsstring statusAsError (None : option nat))
    as (H1 & H2).
  split.
  - destruct (H1 downGet) as (v & Hv & [(res & Hf & _) | [-> _]]); [discriminate | done].
  - destruct (H2 downGet) as (v & Hv & [(res & Hf & _) | [-> _]]); [discriminate | done].
Defined.

Lemma wrappers_pass_through_witness :
  fetchAmazonBulk pathAsError (RunFacts.answers [ListingFacts.fiveSellers])
    [js "B00TEST001"]
  = Return [ListingFacts.fiveSellers].
Proof.
  destruct (wrappers_pass_through jsstring pathAsError) as (_ & _ & _ & H & _).
  eapply H; [discriminate | reflexivity | reflexivity | reflexivity].
Defined.

End ApiRestFacts.

(** ** More on the ASIN CSV import *)

Module CsvColumns.

Import App JsStringFacts CsvFacts.

(** Strings of ASCII letters and digits, in either case. *)
Definition alnum (s : jsstring) : Prop := Forall (fun c => isAsinUnit c = true) s.

Lemma asinUnit_bounds (c : N) :
  isAsinUnit c = true → 48 <= c <= 57 ∨ 65 <= c <= 90 ∨ 97 <= c <= 122.
Proof.
  unfold isAsinUnit. rewrite !orb_true_iff, !andb_true_iff, !N.leb_le. lia.
Qed.

Lemma alnum_all (P : N → Prop) (s : jsstring) :
  (∀ c, 48 <= c <= 57 ∨ 65 <= c <= 90 ∨ 97 <= c <= 122 → P c) → alnum s → Forall P s.
Proof.
  intros HP Hs. eapply List.Forall_impl; [|exact Hs].
  intros c Hc. by apply HP, asinUnit_bounds.
Qed.

Lemma trim_alnum (s : jsstring) : alnum s → trim s = s.
Proof.
  intros H.
  assert (Hw : Forall (fun c => isWhiteSpace c = false) s).
  { revert H. apply alnum_all. intros c Hc. unfold isWhiteSpace.
    rewrite (proj2 (N.leb_gt c 13)) by lia.
    rewrite (proj2 (N.leb_gt 0x2000 c)) by lia.
    rewrite !(proj2 (N.eqb_neq c _)) by lia.
    by rewrite andb_false_r. }
  unfold trim. rewrite (dropWhile_none _ _ Hw). by apply dropWhileEnd_none.
Qed.

Lemma stripQuotes_alnum (s : jsstring) : alnum s → stripQuotes s = s.
Proof.
  intros H.
  assert (Hq : Forall (fun c => isQuote c = false) s).
  { revert H. apply alnum_all. intros c Hc. unfold isQuote.
    by rewrite !(proj2 (N.eqb_neq c _)) by lia. }
  unfold stripQuotes. rewrite (dropWhile_none _ _ Hq). by apply dropWhileEnd_none.
Qed.

Lemma splitOn_alnum (s : jsstring) : alnum s → splitOn isDelimiter s = [s].
Proof.
  intros H.
  assert (Hd : Forall (fun c => isDelimiter c = false) s).
  { revert H. apply alnum_all. intros c Hc. unfold isDelimiter.
    by rewrite !(proj2 (N.eqb_neq c _)) by lia. }
  clear H. induction Hd as [|c s Hc _ IH]; simpl; [done|]. by rewrite Hc, IH.
Qed.

Lemma alnum_noBreak (s : jsstring) : alnum s → Forall (fun c => c ≠ 13 ∧ c ≠ 10) s.
Proof. apply alnum_all. lia. Qed.

(** Lines are ended by a line feed, with or without a carriage return before
    it. *)
Definition lineEnd (crlf : bool) : jsstring := if crlf then [13; 10] else [10].

Lemma splitLines_end (crlf : bool) (s rest : jsstring) :
  alnum s → splitLines (s ++ lineEnd crlf ++ rest) = s :: splitLines rest.
Proof.
  intros H%alnum_noBreak. induction H as [|c s [H13 H10] _ IH].
  - destruct crlf; [by destruct rest | apply splitLines_lf].
  - rewrite <- app_comm_cons. by rewrite splitLines_cons, IH.
Qed.

Lemma splitLines_alnum (s : jsstring) : alnum s → splitLines s = [s].
Proof.
  intros H%alnum_noBreak. induction H as [|c s [H13 H10] _ IH]; [done|].
  by rewrite splitLines_cons, IH.
Qed.

Lemma splitLines_joined (crlf : bool) (x : jsstring) (l : list jsstring) :
  Forall alnum (x :: l) → splitLines (join (lineEnd crlf) (x :: l)) = x :: l.
Proof.
  revert x. induction l as [|y l IH]; intros x H.
  - simpl. apply splitLines_alnum. by inversion H.
  - change (join (lineEnd crlf) (x :: y :: l))
      with (x ++ lineEnd crlf ++ join (lineEnd crlf) (y :: l)).
    inversion H as [|? ? Hx Hl]; subst.
    by rewrite splitLines_end, IH.
Qed.

(** A line that is a candidate identifier, or the header word. *)
Definition cellLine (s : jsstring) : Prop := s ≠ [] ∧ alnum s.

Lemma pattern_cellLine (x : jsstring) : isAsinPattern x = true → cellLine x.
Proof.
  unfold isAsinPattern. intros [Hlen Hall]%andb_true_iff.
  apply Nat.eqb_eq in Hlen. split; [by destruct x|].
  apply List.Forall_forall. by apply forallb_forall.
Qed.

Lemma lines_of_cells (crlf : bool) (x : jsstring) (l : list jsstring) :
  Forall cellLine (x :: l) →
  List.filter nonEmpty (List.map trim (splitLines (join (lineEnd crlf) (x :: l))))
  = x :: l.
Proof.
  intros H. rewrite splitLines_joined
    by (eapply List.Forall_impl; [|exact H]; by intros ? [_ ?]).
  induction H as [|y l' [Hne Hy] _ IH]; [done|].
  cbn [List.map List.filter]. rewrite (trim_alnum y Hy), IH. by destruct y.
Qed.

Lemma rowAsins_cell (asinIndex : option nat) (x : jsstring) :
  default O asinIndex = O → isAsinPattern x = true →
  rowAsins asinIndex x = [toUpperCase x].
Proof.
  intros Hidx Hx. destruct (pattern_cellLine x Hx) as [Hne Ha]. unfold rowAsins.
  rewrite (splitOn_alnum x Ha), Hidx. cbn [nth_error].
  rewrite (trim_alnum x Ha), (stripQuotes_alnum x Ha), (trim_alnum x Ha), Hx.
  by destruct x.
Qed.

Lemma flat_map_rowAsins_cells (asinIndex : option nat) (l : list jsstring) :
  default O asinIndex = O → Forall (fun x => isAsinPattern x = true) l →
  flat_map (rowAsins asinIndex) l = List.map toUpperCase l.
Proof.
  intros Hidx H. induction H as [|x l Hx _ IH]; [done|].
  cbn [flat_map List.map]. by rewrite (rowAsins_cell _ x Hidx Hx), IH.
Qed.

Lemma first_not_bom (c : N) (s : jsstring) : alnum (c :: s) → (c =? 0xFEFF) = false.
Proof.
  intros H. inversion H as [|? ? Hc _]; subst.
  apply asinUnit_bounds in Hc. apply N.eqb_neq. lia.
Qed.

(** A file with one candidate identifier per line (ten ASCII letters or
    digits, in either case), the lines ended by LF or CRLF, gives these
    identifiers in upper case, each once, in the order of their first
    occurrence. *)
Theorem csv_single_column (crlf : bool) (l : list jsstring) :
  Forall (fun x => isAsinPattern x = true) l →
  parseAsinCsv (join (lineEnd crlf) l) = unique (List.map toUpperCase l).
Proof.
  intros Hl. destruct l as [|x l]; [reflexivity|].
  assert (Hcells : Forall cellLine (x :: l)).
  { eapply List.Forall_impl; [|exact Hl]. apply pattern_cellLine. }
  unfold parseAsinCsv. rewrite (lines_of_cells crlf x l Hcells).
  inversion Hl as [|? ? Hx _]; subst.
  destruct (pattern_cellLine x Hx) as [Hne Ha].
  destruct x as [|c x]; [done|].
  rewrite (first_not_bom c x Ha). cbv zeta.
  rewrite (splitOn_alnum _ Ha).
  change (List.map ?f [c :: x]) with [f (c :: x)]. cbv beta.
  rewrite (stripQuotes_alnum _ Ha), (trim_alnum _ Ha).
  change (indexOf [?h] ?y) with (if JsString.eqb h y then Some O else None).
  assert (Hh : JsString.eqb (toLowerCase (c :: x)) (js "asin") = false).
  { destruct (JsString.eqb _ _) eqn:E; [|done].
    apply eqb_eq in E. apply (f_equal (@length N)) in E.
    unfold toLowerCase in E. rewrite length_map in E.
    unfold isAsinPattern in Hx. apply andb_true_iff in Hx as [Hlen _].
    apply Nat.eqb_eq in Hlen. rewrite Hlen in E. discriminate. }
  rewrite Hh. change (skipn 0 ?l) with l.
  by rewrite (flat_map_rowAsins_cells None _ eq_refl Hl).
Qed.

Lemma csv_single_column_witness :
  parseAsinCsv (js "b00test001" ++ [13; 10] ++ js "B00TEST002" ++ [13; 10]
                ++ js "B00test001")
  = [js "B00TEST001"; js "B00TEST002"].
Proof.
  apply (csv_single_column true [js "b00test001"; js "B00TEST002"; js "B00test001"]).
  repeat constructor.
Defined.

Lemma lower_asin_alnum (h : jsstring) : toLowerCase h = js "asin" → cellLine h.
Proof.
  intros H. split; [by destruct h|].
  assert (Hall : Forall (fun c => In (lowerUnit c) (js "asin")) h).
  { rewrite <- H. unfold toLowerCase. clear H.
    induction h as [|c h IH]; constructor.
    - by left.
    - eapply List.Forall_impl; [|exact IH]. intros d Hd. by right. }
  eapply List.Forall_impl; [|exact Hall]. intros c Hc.
  change (js "asin") with [97; 115; 105; 110] in Hc. unfold lowerUnit in Hc.
  unfold isAsinUnit. rewrite !orb_true_iff, !andb_true_iff, !N.leb_le.
  destruct (N.leb_spec 65 c), (N.leb_spec c 90); simpl in Hc; lia.
Qed.

(** When the first line is the word [asin], in any mix of cases, it is taken
    as the header and left out; the lines after it are read as above. *)
Theorem csv_header_row (crlf : bool) (h : jsstring) (l : list jsstring) :
  toLowerCase h = js "asin" →
  Forall (fun x => isAsinPattern x = true) l →
  parseAsinCsv (join (lineEnd crlf) (h :: l)) = unique (List.map toUpperCase l).
Proof.
  intros Hh Hl. pose proof (lower_asin_alnum h Hh) as [Hne Ha].
  assert (Hcells : Forall cellLine (h :: l)).
  { constructor; [done|]. eapply List.Forall_impl; [|exact Hl].
    apply pattern_cellLine. }
  unfold parseAsinCsv. rewrite (lines_of_cells crlf h l Hcells).
  destruct h as [|c h]; [done|].
  rewrite (first_not_bom c h Ha). cbv zeta.
  rewrite (splitOn_alnum _ Ha).
  change (List.map ?f [c :: h]) with [f (c :: h)]. cbv beta.
  rewrite (stripQuotes_alnum _ Ha), (trim_alnum _ Ha).
  change (indexOf [?x] ?y) with (if JsString.eqb x y then Some O else None).
  rewrite Hh, eqb_refl. change (skipn 1 (?x :: ?l)) with l.
  by rewrite (flat_map_rowAsins_cells (Some O) _ eq_refl Hl).
Qed.

Lemma csv_header_row_witness :
  parseAsinCsv (js "Asin" ++ [10] ++ js "b00test001") = [js "B00TEST001"].
Proof.
  apply (csv_header_row false (js "Asin") [js "b00test001"]).
  - reflexivity.
  - repeat constructor.
Defined.

(** *** Blank input *)

Lemma consHead_Forall (P : N → Prop) (c : N) (pieces : list jsstring) :
  P c → Forall (Forall P) pieces → Forall (Forall P) (consHead c pieces).
Proof.
  intros Hc H. destruct H as [|h t Hh Ht]; simpl.
  - repeat constructor. done.
  - constructor; [by constructor | done].
Qed.

Lemma splitLines_two (c d : N) (s : jsstring) :
  splitLines (c :: d :: s)
  = if (c =? 13) && (d =? 10) then [] :: splitLines s
    else if c =? 10 then [] :: splitLines (d :: s)
    else consHead c (splitLines (d :: s)).
Proof. reflexivity. Qed.

Lemma splitLines_Forall (P : N → Prop) (n : nat) (s : jsstring) :
  (length s <= n)%nat → Forall P s → Forall (Forall P) (splitLines s).
Proof.
  revert s. induction n as [|n IH]; intros s Hlen Hs.
  - destruct s; [|simpl in Hlen; lia]. repeat constructor.
  - destruct s as [|c s]; [repeat constructor|].
    inversion Hs as [|? ? Hc Hs']; subst.
    destruct s as [|d s].
    + simpl. destruct (c =? 10); repeat constructor. done.
    + rewrite splitLines_two.
      destruct ((c =? 13) && (d =? 10)).
      * constructor; [constructor|]. apply IH; [simpl in *; lia|].
        by inversion Hs'.
      * destruct (c =? 10).
        -- constructor; [constructor|]. apply IH; [simpl in *; lia | done].
        -- apply consHead_Forall; [done|]. apply IH; [simpl in *; lia | done].
Qed.

Lemma trim_blank (s : jsstring) :
  Forall (fun c => isWhiteSpace c = true) s → trim s = [].
Proof.
  intros H. unfold trim.
  assert (Hd : dropWhile isWhiteSpace s = []).
  { induction H as [|c s Hc _ IH]; simpl; [done|]. by rewrite Hc. }
  by rewrite Hd.
Qed.

(** A text of white space only (blanks, tabs, line ends, a byte order mark)
    holds no identifier: the import returns the empty list. *)
Theorem csv_blank (text : jsstring) :
  Forall (fun c => isWhiteSpace c = true) text → parseAsinCsv text = [].
Proof.
  intros H. unfold parseAsinCsv.
  pose proof (splitLines_Forall _ (length text) text (le_n _) H) as Hlines.
  assert (Hnil : List.filter nonEmpty (List.map trim (splitLines text)) = []).
  { induction Hlines as [|s lines Hs _ IH]; [done|].
    cbn [List.map List.filter]. by rewrite (trim_blank s Hs). }
  by rewrite Hnil.
Qed.

Lemma csv_blank_witness : parseAsinCsv [0xFEFF; 32; 13; 10; 9; 10] = [].
Proof. apply csv_blank. repeat constructor. Defined.

End CsvColumns.

(** ** Cleaning a title *)

Module TitleFacts.

Import App JsStringFacts.

(** No two white space code units side by side. *)
Fixpoint noRuns (s : jsstring) : Prop :=
  match s with
  | [] => True
  | c :: s' =>
    match s' with
    | d :: _ => ¬ (isWhiteSpace c = true ∧ isWhiteSpace d = true)
    | [] => True
    end ∧ noRuns s'
  end.

(** The only white space is the space. *)
Definition spacesOnly (s : jsstring) : Prop :=
  Forall (fun c => isWhiteSpace c = true → c = 0x20) s.

(** A tidy string: single spaces between the words, none at either end. *)
Definition tidy (s : jsstring) : Prop :=
  spacesOnly s ∧ noRuns s
  ∧ (∀ c r, s = c :: r → isWhiteSpace c = false)
  ∧ (∀ r c, s = r ++ [c] → isWhiteSpace c = false).

(** *** [dropWhile] and [dropWhileEnd] *)

Lemma dropWhile_suffix (f : N → bool) (s : jsstring) :
  ∃ a, s = a ++ dropWhile f s.
Proof.
  induction s as [|c s [a IH]]; simpl; [by exists []|].
  destruct (f c); [|by exists []]. exists (c :: a). by rewrite IH at 1.
Qed.

Lemma dropWhile_head (f : N → bool) (s : jsstring) c r :
  dropWhile f s = c :: r → f c = false.
Proof.
  induction s as [|d s IH]; simpl; [done|].
  destruct (f d) eqn:E; [done|]. by intros [= <- _].
Qed.

Lemma dropWhileEnd_prefix (f : N → bool) (s : jsstring) :
  ∃ b, s = dropWhileEnd f s ++ b.
Proof.
  unfold dropWhileEnd. destruct (dropWhile_suffix f (rev s)) as [a Ha].
  exists (rev a). rewrite <- rev_app_distr, <- Ha. by rewrite rev_involutive.
Qed.

Lemma dropWhileEnd_last (f : N → bool) (s : jsstring) r c :
  dropWhileEnd f s = r ++ [c] → f c = false.
Proof.
  unfold dropWhileEnd. intros H. apply (f_equal (@rev N)) in H.
  rewrite rev_involutive, rev_app_distr in H. simpl in H.
  by apply dropWhile_head in H.
Qed.

Lemma dropWhile_id (f : N → bool) (c : N) (s : jsstring) :
  f c = false → dropWhile f (c :: s) = c :: s.
Proof. intros H. simpl. by rewrite H. Qed.

Lemma dropWhileEnd_id (f : N → bool) (s : jsstring) :
  (∀ r c, s = r ++ [c] → f c = false) → dropWhileEnd f s = s.
Proof.
  intros H. unfold dropWhileEnd.
  destruct (rev s) as [|c r] eqn:E.
  - simpl. apply (f_equal (@rev N)) in E. by rewrite rev_involutive in E.
  - rewrite dropWhile_id.
    + rewrite <- E. apply rev_involutive.
    + apply (H (rev r)). apply (f_equal (@rev N)) in E.
      by rewrite rev_involutive in E.
Qed.

(** *** Pieces of a string without runs *)

Lemma noRuns_app (a b : jsstring) : noRuns (a ++ b) → noRuns a ∧ noRuns b.
Proof.
  induction a as [|c a IH]; [by split|].
  rewrite <- app_comm_cons. intros [Hc H]. apply IH in H as [Ha Hb].
  split; [|done]. split; [|done].
  destruct a as [|d a]; [done|]. exact Hc.
Qed.

Lemma spacesOnly_app (a b : jsstring) :
  spacesOnly (a ++ b) → spacesOnly a ∧ spacesOnly b.
Proof. unfold spacesOnly. by rewrite Forall_app. Qed.

(** *** [collapseSpaces] *)

Lemma collapseSpaces_two (c d : N) (s : jsstring) :
  collapseSpaces (c :: d :: s)
  = if isWhiteSpace c
    then (if isWhiteSpace d then collapseSpaces (d :: s)
          else 0x20 :: collapseSpaces (d :: s))
    else c :: collapseSpaces (d :: s).
Proof. reflexivity. Qed.

Lemma collapseSpaces_head (d : N) (s : jsstring) :
  isWhiteSpace d = false → ∃ r, collapseSpaces (d :: s) = d :: r.
Proof. intros H. destruct s; simpl; rewrite H; eauto. Qed.

Lemma collapseSpaces_spacesOnly (s : jsstring) : spacesOnly (collapseSpaces s).
Proof.
  unfold spacesOnly. induction s as [|c s IH]; [constructor|].
  destruct s as [|d s].
  - simpl. destruct (isWhiteSpace c) eqn:E; repeat constructor; congruence.
  - rewrite collapseSpaces_two.
    destruct (isWhiteSpace c) eqn:Ec; [destruct (isWhiteSpace d)|];
      try done; constructor; try done; congruence.
Qed.

Lemma collapseSpaces_noRuns (s : jsstring) : noRuns (collapseSpaces s).
Proof.
  induction s as [|c s IH]; [done|].
  destruct s as [|d s].
  - simpl. by destruct (isWhiteSpace c).
  - rewrite collapseSpaces_two.
    destruct (isWhiteSpace c) eqn:Ec; [destruct (isWhiteSpace d) eqn:Ed|]; [done| |].
    + destruct (collapseSpaces_head d s Ed) as [r Hr].
      rewrite Hr in *. split; [|done]. intros [_ H]. congruence.
    + split; [|done]. destruct (collapseSpaces (d :: s)); [done|].
      intros [H _]. congruence.
Qed.

Lemma collapseSpaces_id (s : jsstring) :
  spacesOnly s → noRuns s → collapseSpaces s = s.
Proof.
  induction s as [|c s IH]; [done|]. intros Hs Hr.
  inversion Hs as [|? ? Hc Hs']; subst. destruct Hr as [Hcd Hr].
  destruct s as [|d s].
  - simpl. destruct (isWhiteSpace c) eqn:E; [|done]. by rewrite Hc.
  - rewrite collapseSpaces_two, (IH Hs' Hr).
    destruct (isWhiteSpace c) eqn:Ec; [|done].
    destruct (isWhiteSpace d) eqn:Ed; [by destruct Hcd|]. by rewrite Hc.
Qed.

(** *** [trim] *)

(** A trimmed string neither starts nor ends with white space. *)
Lemma trim_ends (s : jsstring) :
  (∀ c r, trim s = c :: r → isWhiteSpace c = false)
  ∧ (∀ r c, trim s = r ++ [c] → isWhiteSpace c = false).
Proof.
  unfold trim. split.
  - intros c r E.
    destruct (dropWhileEnd_prefix isWhiteSpace (dropWhile isWhiteSpace s)) as [b Hb].
    rewrite E in Hb. apply (dropWhile_head isWhiteSpace s c (r ++ b)). by rewrite Hb.
  - intros r c E. by apply dropWhileEnd_last in E.
Qed.

(** Such a string is left as it is. *)
Lemma trim_fixed (s : jsstring) :
  (∀ c r, s = c :: r → isWhiteSpace c = false) →
  (∀ r c, s = r ++ [c] → isWhiteSpace c = false) →
  trim s = s.
Proof.
  intros Hhead Hlast. unfold trim.
  destruct s as [|c s]; [done|].
  rewrite (dropWhile_id _ c s (Hhead c s eq_refl)).
  by apply dropWhileEnd_id.
Qed.

Lemma trim_idem (s : jsstring) : trim (trim s) = trim s.
Proof. destruct (trim_ends s). by apply trim_fixed. Qed.

Lemma trim_tidy (s : jsstring) : spacesOnly s → noRuns s → tidy (trim s).
Proof.
  intros Hs Hr. destruct (trim_ends s) as [Hhead Hlast].
  split; [|split; [|by split]].
  - unfold trim.
    destruct (dropWhile_suffix isWhiteSpace s) as [a Ha].
    destruct (dropWhileEnd_prefix isWhiteSpace (dropWhile isWhiteSpace s)) as [b Hb].
    rewrite Ha in Hs. apply spacesOnly_app in Hs as [_ Hs].
    rewrite Hb in Hs. by apply spacesOnly_app in Hs as [Hs _].
  - unfold trim.
    destruct (dropWhile_suffix isWhiteSpace s) as [a Ha].
    destruct (dropWhileEnd_prefix isWhiteSpace (dropWhile isWhiteSpace s)) as [b Hb].
    rewrite Ha in Hr. apply noRuns_app in Hr as [_ Hr].
    rewrite Hb in Hr. by apply noRuns_app in Hr as [Hr _].
Qed.

Lemma trim_id (s : jsstring) : tidy s → trim s = s.
Proof. intros (_ & _ & Hhead & Hlast). by apply trim_fixed. Qed.

(** *** Removing a word *)

Lemma removeAll_absent (w s : jsstring) : ¬ contains s w → removeAll w s = s.
Proof.
  unfold removeAll. induction s as [|c s IH]; [done|]. intros Hc.
  cbn [removeAllFrom].
  destruct (startsWith (c :: s) w) eqn:E.
  - exfalso. apply Hc. apply startsWith_iff in E as [post E].
    by exists [], post.
  - f_equal. apply IH. intros (pre & post & E'). apply Hc.
    exists (c :: pre), post. by rewrite E'.
Qed.

(** Whatever the title and the words to erase, the cleaned title is tidy:
    its only white space is the single space, never two in a row and none at
    either end. *)
Theorem stripWords_tidy (title : jsstring) (words : list jsstring) :
  tidy (stripWords title words).
Proof.
  unfold stripWords.
  apply trim_tidy; [apply collapseSpaces_spacesOnly | apply collapseSpaces_noRuns].
Qed.

(** A tidy title in which none of the words to erase occurs comes back
    unchanged; in particular cleaning a cleaned title with no words to erase
    changes nothing. *)
Theorem stripWords_clean (title : jsstring) (words : list jsstring) :
  tidy title →
  (∀ w, In w words → w ≠ [] → ¬ contains title w) →
  stripWords title words = title.
Proof.
  intros Ht Hw. unfold stripWords.
  assert (Hfold : fold_left
            (fun t w => if negb (nonEmpty w) then t else removeAll w t) words title
          = title).
  { induction words as [|w words IH]; [done|]. cbn [fold_left].
    destruct w as [|u w]; cbn [nonEmpty negb].
    - apply IH. intros w' Hin. apply Hw. by right.
    - rewrite removeAll_absent by (apply Hw; [by left | done]).
      apply IH. intros w' Hin. apply Hw. by right. }
  rewrite Hfold. destruct Ht as (Hs & Hr & Hh & Hl).
  rewrite (collapseSpaces_id _ Hs Hr). by apply trim_id.
Qed.

Lemma stripWords_clean_witness :
  stripWords (stripWords (js "  Amazon.co.jp 限定  UV  クリーム 発送 ")
                (nameEraseWords DEFAULT_SETTINGS)) []
  = js "UV クリーム".
Proof.
  rewrite stripWords_clean.
  - vm_compute. reflexivity.
  - unfold stripWords. apply trim_tidy;
      [apply collapseSpaces_spacesOnly | apply collapseSpaces_noRuns].
  - by intros w [].
Defined.

End TitleFacts.

(** ** The tag editor keeps its list in order *)

Module TagEditorFacts.

Import App TagEditor JsStringFacts CsvFacts TitleFacts.

(** A list of tags as the editor leaves it: no tag twice, no empty tag, no
    tag with white space around it. *)
Definition wellFormed (tags : list jsstring) : Prop :=
  List.NoDup tags ∧ Forall (fun t => t ≠ [] ∧ trim t = t) tags.

Definition separatorFree (t : jsstring) : Prop :=
  Forall (fun c => isSeparator c = false) t.

(** *** Pieces of [splitRuns] *)

Lemma splitRuns_two (sep : N → bool) (c d : N) (s : jsstring) :
  splitRuns sep (c :: d :: s)
  = if sep c
    then (if sep d then splitRuns sep (d :: s) else [] :: splitRuns sep (d :: s))
    else consHead c (splitRuns sep (d :: s)).
Proof. reflexivity. Qed.

Lemma splitRuns_one (sep : N → bool) (c : N) :
  splitRuns sep [c] = if sep c then [[]; []] else [[c]].
Proof. reflexivity. Qed.

(** The pieces of a split: the first is a prefix of the string, every piece
    occurs in it, and none holds a separator. *)
Lemma splitRuns_pieces (sep : N → bool) (s : jsstring) :
  ∃ h t, splitRuns sep s = h :: t
         ∧ (∃ post, s = h ++ post)
         ∧ Forall (fun p => contains s p ∧ Forall (fun c => sep c = false) p)
                  (h :: t).
Proof.
  induction s as [|c s IH].
  - exists [], []. split; [done|]. split; [by exists []|].
    repeat constructor. by exists [], [].
  - destruct IH as (h & t & E & [post Hpost] & Hall).
    assert (Hlift : Forall (fun p => contains (c :: s) p
                                     ∧ Forall (fun c => sep c = false) p) (h :: t)).
    { eapply List.Forall_impl; [|exact Hall].
      intros p [(pre & post' & Hp) Hsep]. split; [|done].
      exists (c :: pre), post'. by rewrite Hp. }
    assert (Hnil : contains (c :: s) [] ∧ Forall (fun c => sep c = false) []).
    { split; [by exists [], (c :: s) | constructor]. }
    destruct s as [|d s].
    + rewrite splitRuns_one. destruct (sep c) eqn:Ec.
      * exists [], [[]]. split; [done|]. split; [by exists [c]|].
        constructor; [done|]. constructor; [done|]. constructor.
      * exists [c], []. split; [done|]. split; [by exists []|].
        repeat constructor; [by exists [], [] | done].
    + rewrite splitRuns_two, E. destruct (sep c) eqn:Ec.
      * destruct (sep d) eqn:Ed.
        -- destruct h as [|u h].
           ++ exists [], t. split; [done|]. split; [by exists (c :: d :: s)|]. done.
           ++ exfalso. inversion Hall as [|? ? [_ Hh] _]; subst.
              inversion Hh as [|? ? Hu _]; subst.
              injection Hpost as -> _. congruence.
        -- exists [], (h :: t). split; [done|]. split; [by exists (c :: d :: s)|].
           by constructor.
      * exists (c :: h), t. split; [done|].
        split; [exists post; by rewrite Hpost|].
        inversion Hlift as [|? ? [_ Hh] Ht]; subst. constructor; [|done].
        split; [|by constructor]. exists [], post. by rewrite Hpost.
Qed.

Lemma splitRuns_sound (s p : jsstring) :
  In p (splitRuns isSeparator s) → contains s p ∧ separatorFree p.
Proof.
  destruct (splitRuns_pieces isSeparator s) as (h & t & -> & _ & Hall).
  rewrite List.Forall_forall in Hall. apply Hall.
Qed.

(** All pieces are empty exactly when the string holds separators only. *)
Lemma splitRuns_empty (sep : N → bool) (s : jsstring) :
  Forall (fun p => p = []) (splitRuns sep s) ↔ Forall (fun c => sep c = true) s.
Proof.
  induction s as [|c s IH]; [by split; repeat constructor|].
  destruct s as [|d s].
  - rewrite splitRuns_one. destruct (sep c) eqn:Ec.
    + split; by repeat constructor.
    + split; intros H; inversion H; subst; [done | congruence].
  - rewrite splitRuns_two. destruct (sep c) eqn:Ec.
    + destruct (sep d) eqn:Ed.
      * rewrite IH. split; [by constructor | by inversion 1].
      * split.
        -- intros H. inversion H as [|? ? _ H']; subst.
           apply IH in H'. inversion H'; subst. congruence.
        -- intros H. inversion H as [|? ? _ H']; subst.
           inversion H'; subst. congruence.
    + split.
      * intros H. destruct (splitRuns sep (d :: s)); inversion H; subst; done.
      * intros H. inversion H; subst. congruence.
Qed.

Lemma separatorFree_trim (p : jsstring) : separatorFree p → trim p = p.
Proof.
  intros H. apply trim_fixed.
  - intros c r ->. inversion H as [|? ? Hc _]; subst.
    unfold isSeparator in Hc. by do 4 (apply orb_false_iff in Hc as [Hc _]).
  - intros r c ->. apply Forall_app in H as [_ H].
    inversion H as [|? ? Hc _]; subst.
    unfold isSeparator in Hc. by do 4 (apply orb_false_iff in Hc as [Hc _]).
Qed.

(** The new tags of a bulk text are its pieces that are not empty. *)
Lemma bulkList_pieces (st : State) :
  bulkList st = List.filter nonEmpty (splitRuns isSeparator (bulk st)).
Proof.
  unfold bulkList. f_equal.
  rewrite <- (map_id (splitRuns isSeparator (bulk st))) at 2.
  apply map_ext_in. intros p Hp.
  apply separatorFree_trim. by destruct (splitRuns_sound _ _ Hp).
Qed.

Lemma bulkList_sound (st : State) (t : jsstring) :
  In t (bulkList st) → t ≠ [] ∧ separatorFree t ∧ contains (bulk st) t.
Proof.
  rewrite bulkList_pieces. intros [Hin Hne]%filter_In.
  apply splitRuns_sound in Hin as [Hc Hs]. by destruct t.
Qed.

Lemma bulkList_nil (st : State) :
  bulkList st = [] ↔ Forall (fun c => isSeparator c = true) (bulk st).
Proof.
  rewrite bulkList_pieces, <- splitRuns_empty. split.
  - intros H. apply List.Forall_forall. intros p Hp.
    destruct p as [|c p]; [done|].
    assert (Hin : In (c :: p) (List.filter nonEmpty (splitRuns isSeparator (bulk st))))
      by (by apply filter_In).
    by rewrite H in Hin.
  - intros H. rewrite List.Forall_forall in H.
    destruct (List.filter _ _) as [|p l] eqn:E; [done|].
    assert (Hin : In p (List.filter nonEmpty (splitRuns isSeparator (bulk st))))
      by (rewrite E; by left).
    apply filter_In in Hin as [Hin Hne]. rewrite (H p Hin) in Hne. done.
Qed.

(** *** [Array.from(new Set(..))] *)

Lemma uniqueFrom_complete (seen l : list jsstring) (x : jsstring) :
  In x l → ¬ In x seen → In x (uniqueFrom seen l).
Proof.
  revert seen. induction l as [|y l IH]; intros seen; [done|].
  intros [->|Hin] Hs; cbn [uniqueFrom].
  - destruct (arrayIncludes seen x) eqn:E; [|by left].
    apply arrayIncludes_iff in E. done.
  - destruct (arrayIncludes seen y) eqn:E; [by apply IH|].
    destruct (decide (x = y)) as [->|Hne]; [by left|].
    right. apply IH; [done|]. intros [?|?]; [congruence | done].
Qed.

Lemma uniqueFrom_app (seen a b : list jsstring) :
  uniqueFrom seen (a ++ b) = uniqueFrom seen a ++ uniqueFrom (rev (uniqueFrom seen a) ++ seen) b.
Proof.
  revert seen. induction a as [|y a IH]; intros seen; [done|].
  cbn [app uniqueFrom]. destruct (arrayIncludes seen y) eqn:E; [apply IH|].
  cbn [app rev]. rewrite IH. f_equal. by rewrite <- !app_assoc.
Qed.

(** *** The three handlers *)

(** The editor keeps a well-formed list well-formed: whatever is typed,
    [add], [addBulk] and [remove] hand [onChange] a list without duplicates,
    without an empty tag and without a tag that has white space around it. *)
Theorem tags_stay_well_formed (tags : list jsstring) :
  wellFormed tags →
  (∀ st tags', fst (add tags st) = Some tags' → wellFormed tags')
  ∧ (∀ st tags', fst (addBulk tags st) = Some tags' → wellFormed tags')
  ∧ (∀ t, wellFormed (remove tags t)).
Proof.
  intros [Hnd Hall]. split; [|split].
  - intros st tags'. unfold add. cbv zeta.
    destruct (nonEmpty (trim (value st))) eqn:Hne; cbn [negb orb]; [|done].
    destruct (arrayIncludes tags (trim (value st))) eqn:Hin; [done|].
    intros [= <-]. split.
    + constructor; [|done]. intros H%arrayIncludes_iff. congruence.
    + constructor; [|done]. split; [by apply ListingFacts.nonEmpty_iff | apply trim_idem].
  - intros st tags'. unfold addBulk. cbv zeta.
    destruct (Nat.eqb _ _); [done|]. intros [= <-]. split.
    + apply uniqueFrom_NoDup.
    + apply List.Forall_forall. intros t [Hin _]%uniqueFrom_In.
      apply in_app_or in Hin as [Hin|Hin].
      * rewrite List.Forall_forall in Hall. by apply Hall.
      * apply bulkList_sound in Hin as (Hne & Hs & _).
        split; [done | by apply separatorFree_trim].
  - intros t. unfold remove. split.
    + by apply List.NoDup_filter.
    + apply List.Forall_forall. intros x [Hin _]%filter_In.
      rewrite List.Forall_forall in Hall. by apply Hall.
Qed.

Lemma tags_stay_well_formed_witness :
  wellFormed (remove [js "限定"; js "公式"] (js "公式")).
Proof.
  apply (tags_stay_well_formed [js "限定"; js "公式"]).
  split.
  - constructor; [intros [H|[]]; discriminate|].
    constructor; [intros [] | constructor].
  - repeat constructor; discriminate.
Defined.

(** What the bulk field does.  Nothing happens exactly when the text holds
    separators only.  Otherwise every tag of the old list is kept, a list
    without duplicates stays in front as it was, and each tag that comes new
    is a non-empty piece of the text without a separator in it; the field is
    emptied and closed. *)
Theorem bulk_tags (tags : list jsstring) (st : State) :
  (fst (addBulk tags st) = None ↔ Forall (fun c => isSeparator c = true) (bulk st))
  ∧ (fst (addBulk tags st) = None → snd (addBulk tags st) = st)
  ∧ (∀ tags', fst (addBulk tags st) = Some tags' →
       snd (addBulk tags st) = {| value := value st; bulk := []; showBulk := false |}
       ∧ (∀ t, In t tags' ↔ In t tags ∨ In t (bulkList st))
       ∧ (List.NoDup tags → ∃ new, tags' = tags ++ new)
       ∧ (∀ t, In t tags' → ¬ In t tags →
            t ≠ [] ∧ separatorFree t ∧ contains (bulk st) t)).
Proof.
  unfold addBulk. cbv zeta.
  destruct (bulkList st) as [|t0 l] eqn:E; cbn [length Nat.eqb fst snd].
  - apply bulkList_nil in E. repeat split; done.
  - assert (Hnot : ¬ Forall (fun c => isSeparator c = true) (bulk st)).
    { intros H%bulkList_nil. congruence. }
    split; [split; [done | by intros H]|]. split; [done|].
    intros tags' [= <-].
    assert (Hmem : ∀ t, In t (unique (tags ++ t0 :: l)) ↔ In t tags ∨ In t (t0 :: l)).
    { intros t. split.
      - intros [H _]%uniqueFrom_In. by apply in_app_or.
      - intros H. apply uniqueFrom_complete; [by apply in_or_app | by intros []]. }
    repeat split.
    + by apply Hmem.
    + by apply Hmem.
    + intros Hnd. unfold unique. rewrite uniqueFrom_app.
      rewrite (uniqueFrom_id [] tags Hnd) by (by intros x _ []). eauto.
    + apply Hmem in H as [H|H]; [done|]. rewrite <- E in H.
      by apply bulkList_sound in H as (? & _).
    + apply Hmem in H as [H|H]; [done|]. rewrite <- E in H.
      by apply bulkList_sound in H as (_ & ? & _).
    + apply Hmem in H as [H|H]; [done|]. rewrite <- E in H.
      by apply bulkList_sound in H as (_ & _ & ?).
Qed.

End TagEditorFacts.

(** ** Deleting from the list *)

Module SelectionFacts.

Import Api App Selection ListFacts JsStringFacts JsNumberFacts.

(** *** SameValueZero *)

Lemma sameValueZero_refl (x : number) : sameValueZero x x = true.
Proof.
  unfold sameValueZero, PrimFloat.is_nan. by destruct (x =? x)%float.
Qed.

Lemma is_zero_spec (x : number) :
  PrimFloat.is_zero x = true ↔ ∃ s, Prim2SF x = S754_zero s.
Proof.
  unfold PrimFloat.is_zero. rewrite FloatAxioms.eqb_spec.
  change (Prim2SF zero) with (S754_zero false).
  destruct (Prim2SF x) as [s|s| |s m e]; unfold SFeqb; simpl.
  - split; [eauto | done].
  - split; [by destruct s | by intros [? ?]].
  - split; [done | by intros [? ?]].
  - split; [by destruct s | by intros [? ?]].
Qed.

(** The stored value compares like the inserted one. *)
Lemma sameValueZero_stored (x y : number) :
  sameValueZero (if PrimFloat.is_zero x then 0%float else x) y = sameValueZero x y.
Proof.
  destruct (PrimFloat.is_zero x) eqn:Hz; [|done].
  apply is_zero_spec in Hz as [s Hs].
  unfold sameValueZero.
  assert (Hn : PrimFloat.is_nan x = false) by (apply is_nan_false; congruence).
  rewrite Hn. change (PrimFloat.is_nan 0) with false. f_equal.
  apply eq_true_iff_eq. rewrite !FloatAxioms.eqb_spec, Hs.
  change (Prim2SF 0) with (S754_zero false).
  by destruct (Prim2SF y).
Qed.

(** SameValueZero is equality up to the sign of zero. *)
Definition unsigned (sf : spec_float) : spec_float :=
  match sf with
  | S754_zero _ => S754_zero false
  | _ => sf
  end.

Lemma sameValueZero_iff (x y : number) :
  sameValueZero x y = true ↔ unsigned (Prim2SF x) = unsigned (Prim2SF y).
Proof.
  unfold sameValueZero.
  rewrite orb_true_iff, andb_true_iff, !is_nan_spec, FloatAxioms.eqb_spec.
  unfold SFeqb.
  destruct (Prim2SF x) as [sx|sx| |sx mx ex], (Prim2SF y) as [sy|sy| |sy my ey];
    cbn [SFcompare unsigned];
    try (solve [ repeat match goal with s : bool |- _ => destruct s end;
                 (split; [intros [H|[H1 H2]]; done
                         | intros H; first [done | by left | by right]]) ]).
  split.
  - intros [H|[H1 H2]]; [|done].
    destruct sx, sy; try done;
      destruct (Z.compare ex ey) eqn:Ee; try done;
      apply Z.compare_eq in Ee; subst;
      destruct (Pos.compare_cont Eq mx my) eqn:Em; try done;
      apply Pos.compare_eq in Em; by subst.
  - intros [= -> -> ->]. left.
    rewrite Z.compare_refl, Pos.compare_cont_refl. by destruct sy.
Qed.

Lemma sameValueZero_trans (x y z : number) :
  sameValueZero x y = true → sameValueZero y z = true → sameValueZero x z = true.
Proof. rewrite !sameValueZero_iff. congruence. Qed.

(** *** [Set] *)

Lemma Set_has_iff (s : NumberSet) (y : number) :
  Set_has s y = true ↔ ∃ x, In x s ∧ sameValueZero x y = true.
Proof. apply existsb_exists. Qed.

Lemma Set_has_add (s : NumberSet) (x y : number) :
  Set_has (Set_add s x) y = true ↔ Set_has s y = true ∨ sameValueZero x y = true.
Proof.
  unfold Set_add. destruct (Set_has s x) eqn:E.
  - split; [by left|]. intros [H|H]; [done|].
    apply Set_has_iff in E as (z & Hz & Hzx). apply Set_has_iff.
    exists z. split; [done|]. by apply sameValueZero_trans with x.
  - unfold Set_has. rewrite existsb_app. cbn [existsb].
    by rewrite sameValueZero_stored, orb_false_r, orb_true_iff.
Qed.

(** [new Set(l)] has exactly the numbers of [l]. *)
Lemma Set_of_has (l : list number) (y : number) :
  Set_has (Set_of l) y = true ↔ ∃ x, In x l ∧ sameValueZero x y = true.
Proof.
  unfold Set_of.
  assert (H : ∀ s, Set_has (fold_left Set_add l s) y = true
                   ↔ Set_has s y = true ∨ ∃ x, In x l ∧ sameValueZero x y = true).
  { induction l as [|x l IH]; intros s; cbn [fold_left].
    - split; [by left | by intros [H|(x & [] & _)]].
    - rewrite IH, Set_has_add. split.
      + intros [[H|H]|(x' & Hin & Hx)]; [by left | |].
        * right. exists x. split; [by left | done].
        * right. exists x'. split; [by right | done].
      + intros [H|(x' & [->|Hin] & Hx)]; [by left; left | by left; right |].
        right. by exists x'. }
  rewrite H. split; [by intros [?|?] | by right].
Qed.

Lemma Set_of_size (l : list number) : length (Set_of l) = 0%nat ↔ l = [].
Proof.
  split; [|by intros ->].
  destruct l as [|x l]; [done|]. intros Hlen.
  assert (H : Set_has (Set_of (x :: l)) x = true).
  { apply Set_of_has. exists x. split; [by left | apply sameValueZero_refl]. }
  by destruct (Set_of (x :: l)).
Qed.

(** *** Filtering twice *)

Lemma filter_filter_weaker {A} (f g : A → bool) (l : list A) :
  (∀ x, f x = true → g x = true) →
  List.filter f (List.filter g l) = List.filter f l.
Proof.
  intros H. induction l as [|x l IH]; [done|]. cbn [List.filter].
  destruct (g x) eqn:Eg; cbn [List.filter].
  - by rewrite IH.
  - destruct (f x) eqn:Ef; [|done]. apply H in Ef. congruence.
Qed.

Section Delete.

Variable lower : jsstring → jsstring.
Variable settings : SettingsState.

(** One action removes products only, and none that is protected. *)
Lemma step_keeps (st : ListState) (a : Action) :
  sublist (products (step lower settings st a)) (products st)
  ∧ List.filter (kept settings) (products (step lower settings st a))
    = List.filter (kept settings) (products st).
Proof.
  destruct a as [s|i checked| | |confirm|confirm]; cbn [step]; try done.
  - unfold deleteSelected.
    destruct (Nat.eqb _ _); [done|]. destruct confirm; cbn [negb]; [|done].
    cbn [clearSelection products]. split; [apply filter_sublist|].
    apply filter_filter_weaker. intros p ->. apply orb_true_r.
  - unfold deleteAll.
    destruct (Nat.eqb _ _); [done|]. destruct confirm; cbn [negb]; [|done].
    cbn [clearSelection products]. split; [apply filter_sublist|].
    by apply filter_filter_weaker.
Qed.

(** Whatever the user does on the list page (searching, selecting,
    deleting the selection or everything, confirming or not), products are
    only ever removed, in their order, and the products whose ASIN is in
    [keepASINsOnDelete] all stay. *)
Theorem protected_products_survive (st : ListState) (actions : list Action) :
  sublist (products (steps lower settings st actions)) (products st)
  ∧ List.filter (kept settings) (products (steps lower settings st actions))
    = List.filter (kept settings) (products st)
  ∧ ∀ p, In p (products st) → In (asin p) (keepASINsOnDelete settings) →
         In p (products (steps lower settings st actions)).
Proof.
  assert (H : sublist (products (steps lower settings st actions)) (products st)
              ∧ List.filter (kept settings) (products (steps lower settings st actions))
                = List.filter (kept settings) (products st)).
  { revert st. induction actions as [|a actions IH]; intros st; [done|].
    unfold steps in *. cbn [fold_left].
    destruct (IH (step lower settings st a)) as [IH1 IH2].
    destruct (step_keeps st a) as [H1 H2].
    split; [by etrans | congruence]. }
  destruct H as [H1 H2]. split; [done|]. split; [done|].
  intros p Hin Hkept.
  assert (Hf : In p (List.filter (kept settings) (products st))).
  { apply filter_In. split; [done|]. by apply arrayIncludes_iff. }
  rewrite <- H2 in Hf. by apply filter_In in Hf as [? _].
Qed.

(** Selecting what is visible and deleting the selection removes the
    products that are not protected and carry the id of a visible product:
    each visible product that is not protected, and with it any hidden one
    that shares its id. *)
Theorem delete_visible (st : ListState) (p : Product) :
  In p (products (deleteSelected settings true (selectVisible lower st)))
  ↔ In p (products st)
    ∧ (In (asin p) (keepASINsOnDelete settings)
       ∨ ∀ v, In v (filteredProducts lower st) → sameValueZero (id v) (id p) = false).
Proof.
  unfold deleteSelected.
  cbn [selectVisible selected products].
  destruct (Nat.eqb _ _) eqn:Esize.
  - apply Nat.eqb_eq, Set_of_size, map_eq_nil in Esize.
    rewrite Esize. split; [|tauto]. intros H. split; [done|]. by right.
  - cbn [negb clearSelection products]. rewrite filter_In.
    apply and_iff_compat_l.
    rewrite orb_true_iff, negb_true_iff. unfold kept.
    rewrite arrayIncludes_iff. split.
    + intros [H|H]; [right | by left].
      intros v Hv. apply not_true_iff_false. intros Hs.
      apply not_true_iff_false in H. apply H, Set_of_has.
      exists (id v). split; [by apply in_map | done].
    + intros [H|H]; [by right | left].
      apply not_true_iff_false. intros (x & Hin & Hx)%Set_of_has.
      apply in_map_iff in Hin as (v & <- & Hv).
      rewrite (H v Hv) in Hx. done.
Qed.

(** With an empty search, selecting all and deleting the selection is
    [deleteAll]: the same products remain. *)
Theorem select_all_then_delete (st : ListState) (confirm : bool) :
  lower (trim (search st)) = [] →
  products (deleteSelected settings confirm (selectVisible lower st))
  = products (deleteAll settings confirm st).
Proof.
  intros Hq.
  assert (Hvis : filteredProducts lower st = products st).
  { unfold filteredProducts. by rewrite Hq. }
  unfold deleteSelected, deleteAll.
  cbn [selectVisible selected products]. rewrite Hvis.
  destruct (products st) as [|p0 l] eqn:E; [done|].
  destruct (Nat.eqb (length (Set_of _)) 0) eqn:Esize.
  { by apply Nat.eqb_eq, Set_of_size in Esize. }
  cbn [length Nat.eqb]. destruct confirm; cbn [negb]; [|done].
  cbn [clearSelection products]. apply filter_ext_in.
  intros p Hp.
  assert (Hhas : Set_has (Set_of (List.map id (p0 :: l))) (id p) = true).
  { apply Set_of_has. exists (id p).
    split; [by apply in_map | apply sameValueZero_refl]. }
  by rewrite Hhas.
Qed.

End Delete.

Definition protectedOnly : SettingsState :=
  {| primeOnly := primeOnly DEFAULT_SETTINGS;
     primeShipDaysMax := primeShipDaysMax DEFAULT_SETTINGS;
     maxStockPerItem := maxStockPerItem DEFAULT_SETTINGS;
     settings_shippingCode := settings_shippingCode DEFAULT_SETTINGS;
     rules := rules DEFAULT_SETTINGS;
     noListASINs := []; noListWords := []; nameEraseWords := [];
     keepASINsOnDelete := [js "B00TEST002"];
     categoryMap := []; autoCategoryEnabled := true |}.

Definition sunscreenItem : Product :=
  {| id := 1; asin := js "B00TEST001"; name := js "日焼け止め 50ml";
     jan := None; qoo10Id := None; amazonPrice := 2500; inStock := Some true |}.

Definition lotionItem : Product :=
  {| id := 2; asin := js "B00TEST002"; name := js "化粧水 200ml";
     jan := None; qoo10Id := None; amazonPrice := 1800; inStock := Some true |}.

Lemma select_all_then_delete_witness :
  products (deleteSelected protectedOnly true
              (selectVisible toLowerCase
                 {| products := [sunscreenItem; lotionItem]; search := js "  "; selected := [] |}))
  = [lotionItem].
Proof.
  rewrite (select_all_then_delete toLowerCase protectedOnly) by reflexivity.
  vm_compute. reflexivity.
Defined.

End SelectionFacts.

(** ** Filling the product list *)

Module CatalogFacts.

Import Api ApiRest App Catalog JsStringFacts JsNumberFacts ApiFacts CsvFacts.

Definition rowAsin (r : ProductRow) : jsstring := asin (product r).

Lemma orZero_not_nan (x : option number) : PrimFloat.is_nan (orZero x) = false.
Proof.
  destruct x as [v|]; [|done]. unfold orZero.
  destruct (truthy v) eqn:E; [|done].
  unfold truthy in E. apply negb_true_iff, orb_false_iff in E. tauto.
Qed.

Lemma orElse_nonEmpty (a : option jsstring) (b : jsstring) : b ≠ [] → orElse a b ≠ [].
Proof. intros Hb. by destruct a as [[|c s]|]. Qed.

Lemma imagesOf_cases (img : option jsstring) (fallback : jsstring) :
  imagesOf img = [] ∨ imagesOf img = [orElse img fallback].
Proof. destruct img as [[|c s]|]; simpl; auto. Qed.

(** A row as the page expects it: an ASIN, a name, a price that is a number,
    a picture, and no picture in the gallery other than the main one. *)
Definition presentable (r : ProductRow) : Prop :=
  asin (product r) ≠ [] ∧ name (product r) ≠ []
  ∧ PrimFloat.is_nan (amazonPrice (product r)) = false
  ∧ mainImage r ≠ []
  ∧ (images r = [] ∨ images r = [mainImage r]).

(** The rows made of the server's items: one for each item with an ASIN, in
    the order of the items and numbered from 1, each presentable whatever
    the server left out. *)
Theorem server_items_presentable (items : list QeasyItem) :
  List.map rowAsin (mapItemsToProducts items)
  = List.filter nonEmpty (List.map qi_asin items)
  ∧ Forall presentable (mapItemsToProducts items)
  ∧ ∀ (i : nat) r, mapItemsToProducts items !! i = Some r →
      id (product r) = (ofZ (Z.of_nat i) + 1)%float.
Proof.
  unfold mapItemsToProducts. split; [|split].
  - assert (H : ∀ (f : nat → QeasyItem → ProductRow) l,
              (∀ i r, rowAsin (f i r) = qi_asin r) →
              List.map rowAsin (imap f l) = List.map qi_asin l).
    { intros f l. revert f. induction l as [|r l IH]; intros f Hf; [done|].
      cbn [imap List.map]. rewrite Hf. f_equal. apply IH. intros i r'. apply Hf. }
    rewrite H by done. clear H.
    induction items as [|r items IH]; [done|]. cbn [List.filter List.map].
    destruct (nonEmpty (qi_asin r)); cbn [List.map]; by rewrite IH.
  - apply Forall_lookup. intros i row Hrow.
    rewrite list_lookup_imap in Hrow.
    destruct (List.filter _ items !! i) as [r|] eqn:Hr; [|done].
    injection Hrow as <-.
    apply list_elem_of_lookup_2, list_elem_of_In, filter_In in Hr as [_ Hne].
    apply ListingFacts.nonEmpty_iff in Hne.
    unfold presentable. cbn [product asin name amazonPrice mainImage images].
    split; [done|]. split; [by destruct (qi_name r)|].
    split; [apply orZero_not_nan|].
    split; [by apply (orElse_nonEmpty (qi_mainImage r))|].
    apply imagesOf_cases.
  - intros i row Hrow. rewrite list_lookup_imap in Hrow.
    destruct (List.filter _ items !! i) as [r|]; [|done]. by injection Hrow as <-.
Qed.

Section CsvImport.

Variable upper : jsstring → jsstring.
Variable now : jsstring.

(** What the loop adds. *)
Lemma importLoop_spec (infos : list AmazonItemInfo) (used : list jsstring)
    (idBase : number) (next : list ProductRow) :
  ∃ new,
    importLoop upper now infos used idBase next = next ++ new
    ∧ List.NoDup (List.map rowAsin new)
    ∧ Forall (fun r => ¬ In (rowAsin r) used
                       ∧ rowAsin r ≠ []
                       ∧ PrimFloat.is_nan (amazonPrice (product r)) = false
                       ∧ updatedAt r = now
                       ∧ ∃ info, In info infos ∧ rowAsin r = upper (info_asin info)
                                 ∧ r = importedRow now (id (product r)) (rowAsin r) info)
             new
    ∧ ∀ info, In info infos → upper (info_asin info) ≠ [] →
              In (upper (info_asin info)) (used ++ List.map rowAsin new).
Proof.
  revert used idBase next.
  induction infos as [|info infos IH]; intros used idBase next; cbn [importLoop].
  - exists []. rewrite app_nil_r. repeat split; try constructor. by intros info [].
  - cbv zeta.
    destruct (nonEmpty (upper (info_asin info))) eqn:Hne; cbn [negb orb].
    + destruct (arrayIncludes used (upper (info_asin info))) eqn:Hused.
      * destruct (IH used idBase next) as (new & -> & Hnd & Hall & Hcov).
        exists new. split; [done|]. split; [done|]. split.
        -- eapply List.Forall_impl; [|exact Hall].
           intros r (H1 & H2 & H3 & H4 & info' & Hin & H5).
           repeat split; try done. exists info'. split; [by right | done].
        -- intros info' [<-|Hin] Hne'; [|by apply Hcov].
           apply in_or_app. left. by apply arrayIncludes_iff.
      * destruct (IH (used ++ [upper (info_asin info)]) (idBase + 1)%float
                    (next ++ [importedRow now idBase (upper (info_asin info)) info]))
          as (new & -> & Hnd & Hall & Hcov).
        exists (importedRow now idBase (upper (info_asin info)) info :: new).
        split; [by rewrite <- app_assoc|].
        assert (Hfresh : ¬ In (upper (info_asin info)) used).
        { intros H%arrayIncludes_iff. congruence. }
        split; [|split].
        -- cbn [List.map]. constructor; [|done].
           intros Hin. apply in_map_iff in Hin as (r & Hr & Hin).
           rewrite List.Forall_forall in Hall.
           destruct (Hall r Hin) as [Hnot _]. apply Hnot.
           apply in_or_app. right. left. by rewrite Hr.
        -- constructor.
           ++ split; [done|]. split; [by apply ListingFacts.nonEmpty_iff|].
              split; [apply orZero_not_nan|]. split; [done|].
              exists info. split; [by left | done].
           ++ eapply List.Forall_impl; [|exact Hall].
              intros r (H1 & H2 & H3 & H4 & info' & Hin & H5).
              split; [intros H; apply H1, in_or_app; by left|].
              repeat split; try done. exists info'. split; [by right | done].
        -- intros info' [<-|Hin] Hne'.
           ++ apply in_or_app. right. by left.
           ++ apply (Hcov info' Hin) in Hne'.
              rewrite <- app_assoc in Hne'. exact Hne'.
    + destruct (IH used idBase next) as (new & -> & Hnd & Hall & Hcov).
      exists new. split; [done|]. split; [done|]. split.
      * eapply List.Forall_impl; [|exact Hall].
        intros r (H1 & H2 & H3 & H4 & info' & Hin & H5).
        repeat split; try done. exists info'. split; [by right | done].
      * intros info' [<-|Hin] Hne'; [|by apply Hcov].
        apply ListingFacts.nonEmpty_iff in Hne'. congruence.
Qed.

Lemma unique_In (l : list jsstring) (x : jsstring) : In x (unique l) ↔ In x l.
Proof.
  split.
  - by intros [H _]%uniqueFrom_In.
  - intros H. apply TagEditorFacts.uniqueFrom_complete; [done | by intros []].
Qed.

(** A CSV import only appends: the rows of the list stay in front as they
    were.  No ASIN comes in twice and none that the list has already, so a
    list with distinct ASINs keeps them distinct; each new row has the
    upper-cased ASIN of an item of the answer, a price that is a number and
    the time stamp of the import; and every ASIN of the answer is in the list
    afterwards. *)
Theorem import_keeps_asins_distinct (infos : list AmazonItemInfo)
    (prev : list ProductRow) :
  ∃ new,
    mergeImported upper now infos prev = prev ++ new
    ∧ List.NoDup (List.map rowAsin new)
    ∧ Forall (fun r => ¬ In (rowAsin r) (List.map rowAsin prev)
                       ∧ rowAsin r ≠ []
                       ∧ PrimFloat.is_nan (amazonPrice (product r)) = false
                       ∧ updatedAt r = now
                       ∧ ∃ info, In info infos ∧ rowAsin r = upper (info_asin info))
             new
    ∧ (∀ info, In info infos → upper (info_asin info) ≠ [] →
         In (upper (info_asin info))
            (List.map rowAsin (mergeImported upper now infos prev)))
    ∧ (List.NoDup (List.map rowAsin prev) →
       List.NoDup (List.map rowAsin (mergeImported upper now infos prev))).
Proof.
  unfold mergeImported. cbv zeta.
  destruct (importLoop_spec infos
              (unique (List.map (fun p => asin (product p)) prev))
              (if negb (Nat.eqb (length prev) 0)
               then (Math_max_list (List.map (fun p => id (product p)) prev) + 1)%float
               else 1%float) prev) as (new & E & Hnd & Hall & Hcov).
  exists new. rewrite E.
  assert (Hall' : Forall (fun r => ¬ In (rowAsin r) (List.map rowAsin prev)
                       ∧ rowAsin r ≠ []
                       ∧ PrimFloat.is_nan (amazonPrice (product r)) = false
                       ∧ updatedAt r = now
                       ∧ ∃ info, In info infos ∧ rowAsin r = upper (info_asin info))
                    new).
  { eapply List.Forall_impl; [|exact Hall].
    intros r (H1 & H2 & H3 & H4 & info & Hin & H5 & _).
    split; [intros H; by apply H1, unique_In|]. eauto 10. }
  split; [done|]. split; [done|]. split; [done|]. split.
  - intros info Hin Hne. rewrite map_app.
    apply (Hcov info Hin) in Hne. apply in_app_or in Hne as [H|H].
    + apply in_or_app. left. exact (proj1 (unique_In _ _) H).
    + apply in_or_app. by right.
  - intros Hprev. rewrite map_app. apply List.NoDup_app; [done | done |].
    intros x Hx Hnew.
    apply in_map_iff in Hnew as (r & <- & Hr).
    rewrite List.Forall_forall in Hall'. by destruct (Hall' r Hr) as [Hnot _].
Qed.

Section Alerts.

Variable Err : Type.
Variable httpError : forall T, jsstring -> Response Err T -> jsstring -> Err.
Variable httpGetError : forall T, jsstring -> Response Err T -> Err.


End Alerts.

End CsvImport.

End CatalogFacts.
